(** * Session/transport core of the WhatsApp Web client

    A shallow embedding of the connection state machine, the frame codec,
    the tag-callback registry, the authentication handlers and the
    reconnection policy of [examples/pairing-code-auth.ts] (classes
    [WhatsApp], [ProtocolManager], [AuthHandler], [BinaryEncoder],
    [BinaryDecoder]), of [src/auth/QRAuth.ts] and of the [PairingCodeAuth]
    class of [src/messaging/MessageHandler.ts], with the notification
    handler of [GroupHandler] and the signature check of
    [src/utils/crypto.ts].

    The client object, its protocol manager and its authentication handler
    share one mutable object graph in the source; here they are the fields
    of one record that every operation takes and returns.  Timers, promises,
    the event emitter, the log and the socket are part of that record, so
    that what an operation armed, settled, emitted, logged or wrote to the
    wire can be stated. *)

From Stdlib Require Import ZArith QArith Qpower Lia.
From Stdlib Require Import Strings.Ascii Strings.String Strings.Byte.
From Stdlib Require Import DecimalString DecimalN.
From stdpp Require Import base option list gmap strings.

Set Warnings "-register-all".

Local Open Scope string_scope.
Local Open Scope Z_scope.

(** ** Buffers and strings

    A [Buffer] is a list of bytes.  A JavaScript string is represented by
    its UTF-8 bytes, which is what [Buffer.from(str)] and [buf.toString()]
    convert from and to; on such strings both conversions are the
    identity on the byte sequence. *)

Definition Buffer := list byte.

Definition Buffer_from (s : string) : Buffer := list_byte_of_string s.
Definition Buffer_toString (b : Buffer) : string := string_of_list_byte b.

(** [buffer[i]], [undefined] (here [None]) out of range. *)
Definition Buffer_at (b : Buffer) (i : nat) : option byte := b !! i.

(** [buffer.slice(n)]. *)
Definition Buffer_slice (n : nat) (b : Buffer) : Buffer := drop n b.

(** [Buffer.concat(list)]. *)
Definition Buffer_concat (l : list Buffer) : Buffer := concat l.

(** [buffer[i] === k] for a byte [k]: [undefined] is equal to no byte. *)
Definition byte_is (o : option byte) (k : byte) : bool :=
  match o with
  | Some x => Byte.eqb x k
  | None => false
  end.

(** ** Constants *)

Definition WA_MAGIC : Buffer := [x57; x41].
Definition WA_PREFIX_INFO : Buffer := [x06; x00; x00; x00].
Definition WA_PREFIX_BINARY : Buffer := [x06; x01; x00; x00].

(** Statically known elements [WA_MAGIC[0]], [WA_MAGIC[1]],
    [WA_PREFIX_INFO[0]] and [WA_PREFIX_BINARY[0]]. *)
Definition WA_MAGIC_0 : byte := default x00 (WA_MAGIC !! 0%nat).
Definition WA_MAGIC_1 : byte := default x00 (WA_MAGIC !! 1%nat).
Definition WA_PREFIX_INFO_0 : byte := default x00 (WA_PREFIX_INFO !! 0%nat).
Definition WA_PREFIX_BINARY_0 : byte := default x00 (WA_PREFIX_BINARY !! 0%nat).

(** The connection states of the source's [ConnectionState] enumeration,
    and the strings they stand for. *)
Inductive ConnectionState :=
  | DISCONNECTED | CONNECTING | CONNECTED | AUTHENTICATED | READY | TIMEOUT.

Definition ConnectionState_name (s : ConnectionState) : string :=
  match s with
  | DISCONNECTED => "DISCONNECTED"
  | CONNECTING => "CONNECTING"
  | CONNECTED => "CONNECTED"
  | AUTHENTICATED => "AUTHENTICATED"
  | READY => "READY"
  | TIMEOUT => "TIMEOUT"
  end.

Definition ConnectionState_eqb (a b : ConnectionState) : bool :=
  match a, b with
  | DISCONNECTED, DISCONNECTED | CONNECTING, CONNECTING
  | CONNECTED, CONNECTED | AUTHENTICATED, AUTHENTICATED
  | READY, READY | TIMEOUT, TIMEOUT => true
  | _, _ => false
  end.

(** ** JSON documents

    Numbers keep the text they were written with; an object is the list of
    its properties in insertion order. *)
Inductive json :=
  | JNull
  | JBool (b : bool)
  | JNum (lexeme : string)
  | JStr (s : string)
  | JArr (items : list json)
  | JObj (props : list (string * json)).

(** [o[k] = v] on an object: an existing property keeps its place. *)
Fixpoint props_set (k : string) (v : json) (ps : list (string * json))
  : list (string * json) :=
  match ps with
  | [] => [(k, v)]
  | (k', v') :: r =>
      if String.eqb k k' then (k, v) :: r else (k', v') :: props_set k v r
  end.

Fixpoint props_get (k : string) (ps : list (string * json)) : option json :=
  match ps with
  | [] => None
  | (k', v) :: r => if String.eqb k k' then Some v else props_get k r
  end.

(** What evaluating a piece of JavaScript yields: a value, or a thrown
    error with its message. *)
Inductive completion (A : Type) :=
  | Normal (a : A)
  | Throw (msg : string).
Arguments Normal {A} a.
Arguments Throw {A} msg.

(** Property read [v.k] for the property names the handlers use ([status],
    [type], [ref], [session], ...): [undefined] ([None]) when absent or when
    [v] is a number, a boolean, a string or an array, a [TypeError] on
    [null]. *)
Definition get_prop (v : json) (k : string) : completion (option json) :=
  match v with
  | JNull => Throw "TypeError: Cannot read properties of null"
  | JObj ps => Normal (props_get k ps)
  | _ => Normal None
  end.

(** [x === 'text']. *)
Definition is_str (o : option json) (text : string) : bool :=
  match o with
  | Some (JStr s) => String.eqb s text
  | _ => false
  end.

(** ** [JSON.parse] and [JSON.stringify]

    The two runtime functions the codec calls, over the byte strings
    above.  [JSON_parse] is a recursive-descent reader of the JSON grammar;
    [None] is the [SyntaxError] that [JSON.parse] throws. *)

Definition dquote : ascii := ascii_of_N 34.
Definition backslash : ascii := ascii_of_N 92.

Definition is_ws (c : ascii) : bool :=
  let n := N_of_ascii c in
  ((n =? 32) || (n =? 9) || (n =? 10) || (n =? 13))%N.

Fixpoint skip_ws (s : string) : string :=
  match s with
  | String c r => if is_ws c then skip_ws r else s
  | EmptyString => s
  end.

Definition is_digit (c : ascii) : bool :=
  let n := N_of_ascii c in ((48 <=? n) && (n <=? 57))%N.

Fixpoint span_digits (s : string) : string * string :=
  match s with
  | String c r =>
      if is_digit c then let '(d, t) := span_digits r in (String c d, t)
      else (EmptyString, s)
  | EmptyString => (EmptyString, EmptyString)
  end.

(** [strip p s]: the rest of [s] after its prefix [p]. *)
Fixpoint strip (p s : string) : option string :=
  match p, s with
  | EmptyString, _ => Some s
  | String a p', String b s' => if Ascii.eqb a b then strip p' s' else None
  | String _ _, EmptyString => None
  end.

(** A JSON number: an optional minus sign, an integer part without a
    leading zero (or the single digit zero), an optional fraction and an
    optional exponent. *)
Definition parse_number (s : string) : option (string * string) :=
  let '(sign, s1) :=
    match s with
    | String c r => if Ascii.eqb c "-" then ("-", r) else ("", s)
    | EmptyString => ("", s)
    end in
  let '(int, s2) := span_digits s1 in
  match int with
  | EmptyString => None
  | String d more =>
      if (Ascii.eqb d "0" && negb (String.eqb more ""))%bool then None else
      let frac :=
        match s2 with
        | String c r =>
            if Ascii.eqb c "." then
              let '(f, t) := span_digits r in
              if String.eqb f "" then None else Some ("." +:+ f, t)
            else Some ("", s2)
        | EmptyString => Some ("", s2)
        end in
      match frac with
      | None => None
      | Some (f, s3) =>
          let exp :=
            match s3 with
            | String c r =>
                if (Ascii.eqb c "e" || Ascii.eqb c "E")%bool then
                  let '(sg, r') :=
                    match r with
                    | String c' r'' =>
                        if (Ascii.eqb c' "+" || Ascii.eqb c' "-")%bool
                        then (String c' "", r'') else ("", r)
                    | EmptyString => ("", r)
                    end in
                  let '(e, t) := span_digits r' in
                  if String.eqb e "" then None
                  else Some (String c "" +:+ sg +:+ e, t)
                else Some ("", s3)
            | EmptyString => Some ("", s3)
            end in
          match exp with
          | None => None
          | Some (e, s4) => Some (sign +:+ int +:+ f +:+ e, s4)
          end
      end
  end.

(** *** The value of a number

    [JSON.parse] turns the text of a number into the nearest double.  The
    text is [m * 10^e] for the integer [m] its digits write and a decimal
    exponent [e]: the exponent written, less the number of digits of the
    fraction. *)

Fixpoint digits_value (acc : Z) (s : string) : Z :=
  match s with
  | String c r => digits_value (10 * acc + Z.of_N (N_of_ascii c - 48)) r
  | EmptyString => acc
  end.

Definition lexeme_parts (n : string) : Z * Z :=
  let s1 := match n with
            | String c r => if Ascii.eqb c "-" then r else n
            | EmptyString => n
            end in
  let '(int, s2) := span_digits s1 in
  let '(frac, s3) :=
    match s2 with
    | String c r => if Ascii.eqb c "." then span_digits r else ("", s2)
    | EmptyString => ("", s2)
    end in
  let exp :=
    match s3 with
    | String c r =>
        if (Ascii.eqb c "e" || Ascii.eqb c "E")%bool then
          match r with
          | String c' r' =>
              if Ascii.eqb c' "-" then - digits_value 0 (fst (span_digits r'))
              else if Ascii.eqb c' "+" then digits_value 0 (fst (span_digits r'))
              else digits_value 0 (fst (span_digits r))
          | EmptyString => 0
          end
        else 0
    | EmptyString => 0
    end in
  (digits_value 0 (int +:+ frac), exp - Z.of_nat (String.length frac)).

(** The number written [n] is zero, positive or negative: no digit of
    its mantissa is non-zero, or its magnitude is at most [2^-1075], half
    the least positive double, and is rounded to zero ([1e-400] is). *)
Definition lexeme_is_zero (n : string) : bool :=
  let '(m, e) := lexeme_parts n in
  ((m =? 0) || ((e <? 0) && (m * 2 ^ 1075 <=? 10 ^ (- e))))%bool.

(** JavaScript truthiness of a property value. *)
Definition truthy (o : option json) : bool :=
  match o with
  | None | Some JNull | Some (JBool false) | Some (JStr "") => false
  | Some (JNum n) => negb (lexeme_is_zero n)
  | Some _ => true
  end.

Definition hex_val (c : ascii) : option N :=
  let n := N_of_ascii c in
  if ((48 <=? n) && (n <=? 57))%N then Some (n - 48)%N
  else if ((97 <=? n) && (n <=? 102))%N then Some (n - 87)%N
  else if ((65 <=? n) && (n <=? 70))%N then Some (n - 55)%N
  else None.

(** UTF-8 bytes of a code unit below [0x10000]. *)
Definition utf8 (n : N) : string :=
  if (n <? 128)%N then String (ascii_of_N n) ""
  else if (n <? 2048)%N then
    String (ascii_of_N (192 + n / 64)) (String (ascii_of_N (128 + n mod 64)) "")
  else
    String (ascii_of_N (224 + n / 4096))
      (String (ascii_of_N (128 + (n / 64) mod 64))
         (String (ascii_of_N (128 + n mod 64)) "")).

(** The characters of a string literal after its opening quote, up to and
    including the closing quote. *)
Fixpoint parse_chars (s : string) : option (string * string) :=
  match s with
  | EmptyString => None
  | String c r =>
      if Ascii.eqb c dquote then Some ("", r)
      else if (N_of_ascii c <? 32)%N then None
      else if Ascii.eqb c backslash then
        match r with
        | EmptyString => None
        | String e r1 =>
            let simple (x : N) :=
              match parse_chars r1 with
              | Some (t, rest) => Some (String (ascii_of_N x) t, rest)
              | None => None
              end in
            if Ascii.eqb e dquote then simple 34%N
            else if Ascii.eqb e backslash then simple 92%N
            else if Ascii.eqb e "/" then simple 47%N
            else if Ascii.eqb e "b" then simple 8%N
            else if Ascii.eqb e "f" then simple 12%N
            else if Ascii.eqb e "n" then simple 10%N
            else if Ascii.eqb e "r" then simple 13%N
            else if Ascii.eqb e "t" then simple 9%N
            else if Ascii.eqb e "u" then
              match r1 with
              | String h1 (String h2 (String h3 (String h4 r2))) =>
                  match hex_val h1, hex_val h2, hex_val h3, hex_val h4 with
                  | Some a, Some b, Some c', Some d =>
                      match parse_chars r2 with
                      | Some (t, rest) =>
                          Some (utf8 (((a * 16 + b) * 16 + c') * 16 + d)%N +:+ t,
                                rest)
                      | None => None
                      end
                  | _, _, _, _ => None
                  end
              | _ => None
              end
            else None
        end
      else
        match parse_chars r with
        | Some (t, rest) => Some (String c t, rest)
        | None => None
        end
  end.

Fixpoint parse_value (fuel : nat) (s : string) : option (json * string) :=
  match fuel with
  | O => None
  | S f =>
      match skip_ws s with
      | EmptyString => None
      | String c r =>
          if Ascii.eqb c "{" then
            match skip_ws r with
            | String c' r' =>
                if Ascii.eqb c' "}" then Some (JObj [], r')
                else parse_members f (skip_ws r) []
            | EmptyString => None
            end
          else if Ascii.eqb c "[" then
            match skip_ws r with
            | String c' r' =>
                if Ascii.eqb c' "]" then Some (JArr [], r')
                else parse_items f r []
            | EmptyString => None
            end
          else if Ascii.eqb c dquote then
            match parse_chars r with
            | Some (t, rest) => Some (JStr t, rest)
            | None => None
            end
          else if (Ascii.eqb c "-" || is_digit c)%bool then
            match parse_number (String c r) with
            | Some (n, rest) => Some (JNum n, rest)
            | None => None
            end
          else
            match strip "true" (String c r), strip "false" (String c r),
                  strip "null" (String c r) with
            | Some rest, _, _ => Some (JBool true, rest)
            | _, Some rest, _ => Some (JBool false, rest)
            | _, _, Some rest => Some (JNull, rest)
            | _, _, _ => None
            end
      end
  end
with parse_items (fuel : nat) (s : string) (acc : list json)
  : option (json * string) :=
  match fuel with
  | O => None
  | S f =>
      match parse_value f s with
      | Some (v, r) =>
          match skip_ws r with
          | String c r' =>
              if Ascii.eqb c "," then parse_items f r' (acc ++ [v])
              else if Ascii.eqb c "]" then Some (JArr (acc ++ [v]), r')
              else None
          | EmptyString => None
          end
      | None => None
      end
  end
with parse_members (fuel : nat) (s : string) (acc : list (string * json))
  : option (json * string) :=
  match fuel with
  | O => None
  | S f =>
      match s with
      | String q r =>
          if Ascii.eqb q dquote then
            match parse_chars r with
            | Some (k, r1) =>
                match skip_ws r1 with
                | String c r2 =>
                    if Ascii.eqb c ":" then
                      match parse_value f r2 with
                      | Some (v, r3) =>
                          match skip_ws r3 with
                          | String c' r4 =>
                              if Ascii.eqb c' "," then
                                parse_members f (skip_ws r4) (props_set k v acc)
                              else if Ascii.eqb c' "}" then
                                Some (JObj (props_set k v acc), r4)
                              else None
                          | EmptyString => None
                          end
                      | None => None
                      end
                    else None
                | EmptyString => None
                end
            | None => None
            end
          else None
      | EmptyString => None
      end
  end.

(** [JSON.parse(text)]: one value, surrounded by white space only. *)
Definition JSON_parse (text : string) : option json :=
  match parse_value (2 * String.length text + 2) text with
  | Some (v, rest) =>
      match skip_ws rest with
      | EmptyString => Some v
      | String _ _ => None
      end
  | None => None
  end.

Definition hex_digit (n : N) : ascii :=
  if (n <? 10)%N then ascii_of_N (48 + n) else ascii_of_N (87 + n).

(** The body of a quoted string as [JSON.stringify] writes it. *)
Fixpoint escape (s : string) : string :=
  match s with
  | EmptyString => ""
  | String c r =>
      let n := N_of_ascii c in
      (if Ascii.eqb c dquote then String backslash (String dquote "")
       else if Ascii.eqb c backslash then String backslash (String backslash "")
       else if (n =? 8)%N then String backslash "b"
       else if (n =? 12)%N then String backslash "f"
       else if (n =? 10)%N then String backslash "n"
       else if (n =? 13)%N then String backslash "r"
       else if (n =? 9)%N then String backslash "t"
       else if (n <? 32)%N then
         String backslash
           (String "u" (String "0" (String "0"
              (String (hex_digit (n / 16)) (String (hex_digit (n mod 16)) "")))))
       else String c "") +:+ escape r
  end.

Definition quote (s : string) : string :=
  String dquote (escape s +:+ String dquote "").

Fixpoint JSON_stringify (v : json) : string :=
  match v with
  | JNull => "null"
  | JBool true => "true"
  | JBool false => "false"
  | JNum n => n
  | JStr s => quote s
  | JArr items =>
      let fix go (l : list json) : string :=
        match l with
        | [] => ""
        | [x] => JSON_stringify x
        | x :: l' => JSON_stringify x +:+ "," +:+ go l'
        end in
      "[" +:+ go items +:+ "]"
  | JObj props =>
      let fix go (l : list (string * json)) : string :=
        match l with
        | [] => ""
        | [(k, x)] => quote k +:+ ":" +:+ JSON_stringify x
        | (k, x) :: l' => quote k +:+ ":" +:+ JSON_stringify x +:+ "," +:+ go l'
        end in
      "{" +:+ go props +:+ "}"
  end.

(** [buf.toString('hex')] and [buf.toString('base64')]. *)
Definition hex_of_bytes (b : Buffer) : string :=
  foldr (fun x acc =>
           let n := Byte.to_N x in
           String (hex_digit (n / 16)) (String (hex_digit (n mod 16)) acc))
        "" b.

Definition base64_char (n : N) : ascii :=
  if (n <? 26)%N then ascii_of_N (65 + n)
  else if (n <? 52)%N then ascii_of_N (71 + n)
  else if (n <? 62)%N then ascii_of_N (n - 4)
  else if (n =? 62)%N then "+"%char else "/"%char.

Fixpoint base64_of_N (l : list N) : string :=
  match l with
  | a :: b :: c :: r =>
      String (base64_char (a / 4))
        (String (base64_char ((a mod 4) * 16 + b / 16))
           (String (base64_char ((b mod 16) * 4 + c / 64))
              (String (base64_char (c mod 64)) (base64_of_N r))))
  | [a; b] =>
      String (base64_char (a / 4))
        (String (base64_char ((a mod 4) * 16 + b / 16))
           (String (base64_char ((b mod 16) * 4)) "="))
  | [a] =>
      String (base64_char (a / 4)) (String (base64_char ((a mod 4) * 16)) "==")
  | [] => ""
  end%N.

Definition base64_of_bytes (b : Buffer) : string := base64_of_N (map Byte.to_N b).

(** [s.toUpperCase()] on the characters [a]-[z]. *)
Fixpoint toUpperCase (s : string) : string :=
  match s with
  | EmptyString => ""
  | String c r =>
      let n := N_of_ascii c in
      String (if ((97 <=? n) && (n <=? 122))%N then ascii_of_N (n - 32) else c)
             (toUpperCase r)
  end.

(** [s.replace(/[^0-9]/g, '')]. *)
Fixpoint digits_only (s : string) : string :=
  match s with
  | EmptyString => ""
  | String c r => if is_digit c then String c (digits_only r) else digits_only r
  end.

(** [s.includes('@')]. *)
Fixpoint includes_at (s : string) : bool :=
  match s with
  | EmptyString => false
  | String c r => if Ascii.eqb c "@" then true else includes_at r
  end.

(** Decimal text of a non-negative integer, as a template literal prints
    it. *)
Definition decimal (n : Z) : string := NilEmpty.string_of_uint (N.to_uint (Z.to_N n)).

(** ** The client and its runtime *)

Record Options := {
  debug : bool;
  maxReconnects : Z;
  reconnectDelay : Z;
  autoReconnect : bool;
  qrMaxRetries : Z;
  qrTimeout : Z;
  wsUrl : string;
  userAgent : string;
}.

(** The options object a caller passes: every key may be absent. *)
Record RawOptions := {
  raw_debug : option bool;
  raw_maxReconnects : option Z;
  raw_reconnectDelay : option Z;
  raw_autoReconnect : option bool;
  raw_qrMaxRetries : option Z;
  raw_qrTimeout : option Z;
  raw_wsUrl : option string;
  raw_userAgent : option string;
}.

Definition WA_WEB_URL : string := "wss://web.whatsapp.com/ws".
Definition WA_UA : string :=
  "Mozilla/5.0 (Windows NT 10.0; Win64; x64) AppleWebKit/537.36 (KHTML, like Gecko) Chrome/120.0.0.0 Safari/537.36".

(** The constructor's option defaults.  Each default is written with [||]
    and the object ends with a spread of the caller's options, so a key
    the caller gave wins whatever its value, and a key it left out gets
    the default. *)
Definition make_options (o : RawOptions) : Options := {|
  debug := default false (raw_debug o);
  maxReconnects := default 5 (raw_maxReconnects o);
  reconnectDelay := default 3000 (raw_reconnectDelay o);
  autoReconnect := default true (raw_autoReconnect o);
  qrMaxRetries := default 3 (raw_qrMaxRetries o);
  qrTimeout := default 60000 (raw_qrTimeout o);
  wsUrl := default WA_WEB_URL (raw_wsUrl o);
  userAgent := default WA_UA (raw_userAgent o);
|}.

Record Me := {
  me_id : option json;
  me_name : option json;
  me_phone : option json;
}.

Record Session := {
  session_clientId : option string;
  serverToken : option json;
  clientToken : option json;
  encKey : option Buffer;
  macKey : option Buffer;
  me : Me;
}.

(** [this.keys], as [generateKeys] builds it. *)
Record Keys := {
  private : Buffer;
  public : Buffer;
}.

(** [this.keys.encKey] and [this.keys.macKey]: the object [generateKeys]
    stores has the properties [private] and [public] only, so both reads
    yield [undefined]. *)
Definition Keys_encKey (k : Keys) : option Buffer := None.
Definition Keys_macKey (k : Keys) : option Buffer := None.

Inductive ReadyState := WS_CONNECTING | WS_OPEN | WS_CLOSING | WS_CLOSED.

(** The payload of a [pairing_code_error] event: the object
    [{reason: ...}] built from a reply, or a caught error. *)
Inductive PairingError :=
  | PE_reason (reason : json)
  | PE_error (msg : string).

Inductive Event :=
  | Ev_state_change (from to : ConnectionState)
  | Ev_connected
  | Ev_disconnected (info : option (Z * string))
  | Ev_connection_failure (err : string)
  | Ev_connection_error (err : string)
  | Ev_reconnect_failed
  | Ev_connection_success (m : json)
  | Ev_connecting (m : json)
  | Ev_connection_timeout (m : json)
  | Ev_unknown_message (m : json)
  | Ev_qr (ref : option json)
  | Ev_qr_expired
  | Ev_qr_max_retries
  | Ev_qr_error (err : string)
  | Ev_authenticated (u : Me) (s : Session)
  | Ev_ready
  | Ev_presence (d : json)
  | Ev_notification (d : json)
  | Ev_privacy_notification (d : json)
  | Ev_contact_notification (d : json)
  | Ev_binary_message (d : json)
  | Ev_pairing_code_request (phone : string)
  | Ev_pairing_code (code : option json)
  | Ev_pairing_code_error (e : PairingError).

(** Calls into the message and group handlers, which are outside the
    session core. *)
Inductive Delegated :=
  | To_handleIncomingMessage (d : json)
  | To_handleReceipt (d : json)
  | To_handleGroupNotification (d : json).

(** What a timer runs when it fires. *)
Inductive TimerAction :=
  | T_reconnect
  | T_qrExpiry
  | T_ready
  | T_responseTimeout (tag : string) (promise : nat).

Record Timer := {
  t_delay : Q;
  t_action : TimerAction;
}.

(** The state of a promise returned by [sendBinary]. *)
Inductive Settlement :=
  | Pending
  | Resolved (response : json)
  | Rejected (error : string).

(** What runs after an [await sendJSON(...)]. *)
Inductive JsonAfter :=
  | After_initial
  | After_pairing (phone : string).

(** The callback given to [ws.send]. *)
Inductive SendCont :=
  | K_json (after : JsonAfter)
  | K_binary (timeout : nat) (tag : string) (promise : nat).

#[local] Set Primitive Projections.
Record Client := {
  (** [WhatsApp]: the fields of the client object *)
  options : Options;
  state : ConnectionState;
  session : option Session;
  user : option Me;
  ws : option ReadyState;
  reconnectCount : Z;
  qrRetryCount : Z;
  reconnectTimer : option nat;
  qrRefreshTimer : option nat;
  (** [ProtocolManager] *)
  messageTagCounter : Z;
  callbacks : gmap string (nat * nat);
  (** [AuthHandler] (and [QRAuth]) *)
  clientId : option string;
  keys : option Keys;
  (** [PairingCodeAuth] *)
  pairing_clientId : option string;
  pairing_keys : option Keys;
  (** the runtime: armed timers, promises of [sendBinary], pending
      [ws.send] completions *)
  timers : gmap nat Timer;
  nextTimer : nat;
  promises : gmap nat Settlement;
  nextPromise : nat;
  sends : gmap nat SendCont;
  nextSend : nat;
  (** what the client did to the outside: frames handed to [ws.send],
      events emitted, lines written by the debug logger, values handed to
      the message and group handlers, QR renderings awaited *)
  wire : list Buffer;
  emitted : list Event;
  console : list string;
  delegated : list Delegated;
  rendering : list (option json);
  (** the environment: [Date.now()], the bytes [crypto.randomBytes]
      draws, the public key [curve.makeKeyPair] derives, and the error
      [new WebSocket(wsUrl)] throws for this configuration, if any *)
  now : Z;
  entropy : nat -> byte;
  drawn : nat;
  curve_makeKeyPair : Buffer -> Buffer;
  ws_ctor_error : option string;
}.
#[local] Unset Primitive Projections.

(** Field updates. *)
Definition with_options (v : Options) (c : Client) : Client :=
  Build_Client v (state c) (session c) (user c) (ws c) (reconnectCount c)
    (qrRetryCount c) (reconnectTimer c) (qrRefreshTimer c) (messageTagCounter
    c) (callbacks c) (clientId c) (keys c) (pairing_clientId c) (pairing_keys
    c) (timers c) (nextTimer c) (promises c) (nextPromise c) (sends c)
    (nextSend c) (wire c) (emitted c) (console c) (delegated c) (rendering c)
    (now c) (entropy c) (drawn c) (curve_makeKeyPair c) (ws_ctor_error c).
Definition with_state (v : ConnectionState) (c : Client) : Client :=
  Build_Client (options c) v (session c) (user c) (ws c) (reconnectCount c)
    (qrRetryCount c) (reconnectTimer c) (qrRefreshTimer c) (messageTagCounter
    c) (callbacks c) (clientId c) (keys c) (pairing_clientId c) (pairing_keys
    c) (timers c) (nextTimer c) (promises c) (nextPromise c) (sends c)
    (nextSend c) (wire c) (emitted c) (console c) (delegated c) (rendering c)
    (now c) (entropy c) (drawn c) (curve_makeKeyPair c) (ws_ctor_error c).
Definition with_session (v : option Session) (c : Client) : Client :=
  Build_Client (options c) (state c) v (user c) (ws c) (reconnectCount c)
    (qrRetryCount c) (reconnectTimer c) (qrRefreshTimer c) (messageTagCounter
    c) (callbacks c) (clientId c) (keys c) (pairing_clientId c) (pairing_keys
    c) (timers c) (nextTimer c) (promises c) (nextPromise c) (sends c)
    (nextSend c) (wire c) (emitted c) (console c) (delegated c) (rendering c)
    (now c) (entropy c) (drawn c) (curve_makeKeyPair c) (ws_ctor_error c).
Definition with_user (v : option Me) (c : Client) : Client :=
  Build_Client (options c) (state c) (session c) v (ws c) (reconnectCount c)
    (qrRetryCount c) (reconnectTimer c) (qrRefreshTimer c) (messageTagCounter
    c) (callbacks c) (clientId c) (keys c) (pairing_clientId c) (pairing_keys
    c) (timers c) (nextTimer c) (promises c) (nextPromise c) (sends c)
    (nextSend c) (wire c) (emitted c) (console c) (delegated c) (rendering c)
    (now c) (entropy c) (drawn c) (curve_makeKeyPair c) (ws_ctor_error c).
Definition with_ws (v : option ReadyState) (c : Client) : Client :=
  Build_Client (options c) (state c) (session c) (user c) v (reconnectCount
    c) (qrRetryCount c) (reconnectTimer c) (qrRefreshTimer c)
    (messageTagCounter c) (callbacks c) (clientId c) (keys c)
    (pairing_clientId c) (pairing_keys c) (timers c) (nextTimer c) (promises
    c) (nextPromise c) (sends c) (nextSend c) (wire c) (emitted c) (console c)
    (delegated c) (rendering c) (now c) (entropy c) (drawn c)
    (curve_makeKeyPair c) (ws_ctor_error c).
Definition with_reconnectCount (v : Z) (c : Client) : Client :=
  Build_Client (options c) (state c) (session c) (user c) (ws c) v
    (qrRetryCount c) (reconnectTimer c) (qrRefreshTimer c) (messageTagCounter
    c) (callbacks c) (clientId c) (keys c) (pairing_clientId c) (pairing_keys
    c) (timers c) (nextTimer c) (promises c) (nextPromise c) (sends c)
    (nextSend c) (wire c) (emitted c) (console c) (delegated c) (rendering c)
    (now c) (entropy c) (drawn c) (curve_makeKeyPair c) (ws_ctor_error c).
Definition with_qrRetryCount (v : Z) (c : Client) : Client :=
  Build_Client (options c) (state c) (session c) (user c) (ws c)
    (reconnectCount c) v (reconnectTimer c) (qrRefreshTimer c)
    (messageTagCounter c) (callbacks c) (clientId c) (keys c)
    (pairing_clientId c) (pairing_keys c) (timers c) (nextTimer c) (promises
    c) (nextPromise c) (sends c) (nextSend c) (wire c) (emitted c) (console c)
    (delegated c) (rendering c) (now c) (entropy c) (drawn c)
    (curve_makeKeyPair c) (ws_ctor_error c).
Definition with_reconnectTimer (v : option nat) (c : Client) : Client :=
  Build_Client (options c) (state c) (session c) (user c) (ws c)
    (reconnectCount c) (qrRetryCount c) v (qrRefreshTimer c)
    (messageTagCounter c) (callbacks c) (clientId c) (keys c)
    (pairing_clientId c) (pairing_keys c) (timers c) (nextTimer c) (promises
    c) (nextPromise c) (sends c) (nextSend c) (wire c) (emitted c) (console c)
    (delegated c) (rendering c) (now c) (entropy c) (drawn c)
    (curve_makeKeyPair c) (ws_ctor_error c).
Definition with_qrRefreshTimer (v : option nat) (c : Client) : Client :=
  Build_Client (options c) (state c) (session c) (user c) (ws c)
    (reconnectCount c) (qrRetryCount c) (reconnectTimer c) v
    (messageTagCounter c) (callbacks c) (clientId c) (keys c)
    (pairing_clientId c) (pairing_keys c) (timers c) (nextTimer c) (promises
    c) (nextPromise c) (sends c) (nextSend c) (wire c) (emitted c) (console c)
    (delegated c) (rendering c) (now c) (entropy c) (drawn c)
    (curve_makeKeyPair c) (ws_ctor_error c).
Definition with_messageTagCounter (v : Z) (c : Client) : Client :=
  Build_Client (options c) (state c) (session c) (user c) (ws c)
    (reconnectCount c) (qrRetryCount c) (reconnectTimer c) (qrRefreshTimer c)
    v (callbacks c) (clientId c) (keys c) (pairing_clientId c) (pairing_keys
    c) (timers c) (nextTimer c) (promises c) (nextPromise c) (sends c)
    (nextSend c) (wire c) (emitted c) (console c) (delegated c) (rendering c)
    (now c) (entropy c) (drawn c) (curve_makeKeyPair c) (ws_ctor_error c).
Definition with_callbacks (v : gmap string (nat * nat)) (c : Client) : Client :=
  Build_Client (options c) (state c) (session c) (user c) (ws c)
    (reconnectCount c) (qrRetryCount c) (reconnectTimer c) (qrRefreshTimer c)
    (messageTagCounter c) v (clientId c) (keys c) (pairing_clientId c)
    (pairing_keys c) (timers c) (nextTimer c) (promises c) (nextPromise c)
    (sends c) (nextSend c) (wire c) (emitted c) (console c) (delegated c)
    (rendering c) (now c) (entropy c) (drawn c) (curve_makeKeyPair c)
    (ws_ctor_error c).
Definition with_clientId (v : option string) (c : Client) : Client :=
  Build_Client (options c) (state c) (session c) (user c) (ws c)
    (reconnectCount c) (qrRetryCount c) (reconnectTimer c) (qrRefreshTimer c)
    (messageTagCounter c) (callbacks c) v (keys c) (pairing_clientId c)
    (pairing_keys c) (timers c) (nextTimer c) (promises c) (nextPromise c)
    (sends c) (nextSend c) (wire c) (emitted c) (console c) (delegated c)
    (rendering c) (now c) (entropy c) (drawn c) (curve_makeKeyPair c)
    (ws_ctor_error c).
Definition with_keys (v : option Keys) (c : Client) : Client :=
  Build_Client (options c) (state c) (session c) (user c) (ws c)
    (reconnectCount c) (qrRetryCount c) (reconnectTimer c) (qrRefreshTimer c)
    (messageTagCounter c) (callbacks c) (clientId c) v (pairing_clientId c)
    (pairing_keys c) (timers c) (nextTimer c) (promises c) (nextPromise c)
    (sends c) (nextSend c) (wire c) (emitted c) (console c) (delegated c)
    (rendering c) (now c) (entropy c) (drawn c) (curve_makeKeyPair c)
    (ws_ctor_error c).
Definition with_pairing_clientId (v : option string) (c : Client) : Client :=
  Build_Client (options c) (state c) (session c) (user c) (ws c)
    (reconnectCount c) (qrRetryCount c) (reconnectTimer c) (qrRefreshTimer c)
    (messageTagCounter c) (callbacks c) (clientId c) (keys c) v (pairing_keys
    c) (timers c) (nextTimer c) (promises c) (nextPromise c) (sends c)
    (nextSend c) (wire c) (emitted c) (console c) (delegated c) (rendering c)
    (now c) (entropy c) (drawn c) (curve_makeKeyPair c) (ws_ctor_error c).
Definition with_pairing_keys (v : option Keys) (c : Client) : Client :=
  Build_Client (options c) (state c) (session c) (user c) (ws c)
    (reconnectCount c) (qrRetryCount c) (reconnectTimer c) (qrRefreshTimer c)
    (messageTagCounter c) (callbacks c) (clientId c) (keys c)
    (pairing_clientId c) v (timers c) (nextTimer c) (promises c) (nextPromise
    c) (sends c) (nextSend c) (wire c) (emitted c) (console c) (delegated c)
    (rendering c) (now c) (entropy c) (drawn c) (curve_makeKeyPair c)
    (ws_ctor_error c).
Definition with_timers (v : gmap nat Timer) (c : Client) : Client :=
  Build_Client (options c) (state c) (session c) (user c) (ws c)
    (reconnectCount c) (qrRetryCount c) (reconnectTimer c) (qrRefreshTimer c)
    (messageTagCounter c) (callbacks c) (clientId c) (keys c)
    (pairing_clientId c) (pairing_keys c) v (nextTimer c) (promises c)
    (nextPromise c) (sends c) (nextSend c) (wire c) (emitted c) (console c)
    (delegated c) (rendering c) (now c) (entropy c) (drawn c)
    (curve_makeKeyPair c) (ws_ctor_error c).
Definition with_nextTimer (v : nat) (c : Client) : Client :=
  Build_Client (options c) (state c) (session c) (user c) (ws c)
    (reconnectCount c) (qrRetryCount c) (reconnectTimer c) (qrRefreshTimer c)
    (messageTagCounter c) (callbacks c) (clientId c) (keys c)
    (pairing_clientId c) (pairing_keys c) (timers c) v (promises c)
    (nextPromise c) (sends c) (nextSend c) (wire c) (emitted c) (console c)
    (delegated c) (rendering c) (now c) (entropy c) (drawn c)
    (curve_makeKeyPair c) (ws_ctor_error c).
Definition with_promises (v : gmap nat Settlement) (c : Client) : Client :=
  Build_Client (options c) (state c) (session c) (user c) (ws c)
    (reconnectCount c) (qrRetryCount c) (reconnectTimer c) (qrRefreshTimer c)
    (messageTagCounter c) (callbacks c) (clientId c) (keys c)
    (pairing_clientId c) (pairing_keys c) (timers c) (nextTimer c) v
    (nextPromise c) (sends c) (nextSend c) (wire c) (emitted c) (console c)
    (delegated c) (rendering c) (now c) (entropy c) (drawn c)
    (curve_makeKeyPair c) (ws_ctor_error c).
Definition with_nextPromise (v : nat) (c : Client) : Client :=
  Build_Client (options c) (state c) (session c) (user c) (ws c)
    (reconnectCount c) (qrRetryCount c) (reconnectTimer c) (qrRefreshTimer c)
    (messageTagCounter c) (callbacks c) (clientId c) (keys c)
    (pairing_clientId c) (pairing_keys c) (timers c) (nextTimer c) (promises
    c) v (sends c) (nextSend c) (wire c) (emitted c) (console c) (delegated c)
    (rendering c) (now c) (entropy c) (drawn c) (curve_makeKeyPair c)
    (ws_ctor_error c).
Definition with_sends (v : gmap nat SendCont) (c : Client) : Client :=
  Build_Client (options c) (state c) (session c) (user c) (ws c)
    (reconnectCount c) (qrRetryCount c) (reconnectTimer c) (qrRefreshTimer c)
    (messageTagCounter c) (callbacks c) (clientId c) (keys c)
    (pairing_clientId c) (pairing_keys c) (timers c) (nextTimer c) (promises
    c) (nextPromise c) v (nextSend c) (wire c) (emitted c) (console c)
    (delegated c) (rendering c) (now c) (entropy c) (drawn c)
    (curve_makeKeyPair c) (ws_ctor_error c).
Definition with_nextSend (v : nat) (c : Client) : Client :=
  Build_Client (options c) (state c) (session c) (user c) (ws c)
    (reconnectCount c) (qrRetryCount c) (reconnectTimer c) (qrRefreshTimer c)
    (messageTagCounter c) (callbacks c) (clientId c) (keys c)
    (pairing_clientId c) (pairing_keys c) (timers c) (nextTimer c) (promises
    c) (nextPromise c) (sends c) v (wire c) (emitted c) (console c) (delegated
    c) (rendering c) (now c) (entropy c) (drawn c) (curve_makeKeyPair c)
    (ws_ctor_error c).
Definition with_wire (v : list Buffer) (c : Client) : Client :=
  Build_Client (options c) (state c) (session c) (user c) (ws c)
    (reconnectCount c) (qrRetryCount c) (reconnectTimer c) (qrRefreshTimer c)
    (messageTagCounter c) (callbacks c) (clientId c) (keys c)
    (pairing_clientId c) (pairing_keys c) (timers c) (nextTimer c) (promises
    c) (nextPromise c) (sends c) (nextSend c) v (emitted c) (console c)
    (delegated c) (rendering c) (now c) (entropy c) (drawn c)
    (curve_makeKeyPair c) (ws_ctor_error c).
Definition with_emitted (v : list Event) (c : Client) : Client :=
  Build_Client (options c) (state c) (session c) (user c) (ws c)
    (reconnectCount c) (qrRetryCount c) (reconnectTimer c) (qrRefreshTimer c)
    (messageTagCounter c) (callbacks c) (clientId c) (keys c)
    (pairing_clientId c) (pairing_keys c) (timers c) (nextTimer c) (promises
    c) (nextPromise c) (sends c) (nextSend c) (wire c) v (console c)
    (delegated c) (rendering c) (now c) (entropy c) (drawn c)
    (curve_makeKeyPair c) (ws_ctor_error c).
Definition with_console (v : list string) (c : Client) : Client :=
  Build_Client (options c) (state c) (session c) (user c) (ws c)
    (reconnectCount c) (qrRetryCount c) (reconnectTimer c) (qrRefreshTimer c)
    (messageTagCounter c) (callbacks c) (clientId c) (keys c)
    (pairing_clientId c) (pairing_keys c) (timers c) (nextTimer c) (promises
    c) (nextPromise c) (sends c) (nextSend c) (wire c) (emitted c) v
    (delegated c) (rendering c) (now c) (entropy c) (drawn c)
    (curve_makeKeyPair c) (ws_ctor_error c).
Definition with_delegated (v : list Delegated) (c : Client) : Client :=
  Build_Client (options c) (state c) (session c) (user c) (ws c)
    (reconnectCount c) (qrRetryCount c) (reconnectTimer c) (qrRefreshTimer c)
    (messageTagCounter c) (callbacks c) (clientId c) (keys c)
    (pairing_clientId c) (pairing_keys c) (timers c) (nextTimer c) (promises
    c) (nextPromise c) (sends c) (nextSend c) (wire c) (emitted c) (console c)
    v (rendering c) (now c) (entropy c) (drawn c) (curve_makeKeyPair c)
    (ws_ctor_error c).
Definition with_rendering (v : list (option json)) (c : Client) : Client :=
  Build_Client (options c) (state c) (session c) (user c) (ws c)
    (reconnectCount c) (qrRetryCount c) (reconnectTimer c) (qrRefreshTimer c)
    (messageTagCounter c) (callbacks c) (clientId c) (keys c)
    (pairing_clientId c) (pairing_keys c) (timers c) (nextTimer c) (promises
    c) (nextPromise c) (sends c) (nextSend c) (wire c) (emitted c) (console c)
    (delegated c) v (now c) (entropy c) (drawn c) (curve_makeKeyPair c)
    (ws_ctor_error c).
Definition with_now (v : Z) (c : Client) : Client :=
  Build_Client (options c) (state c) (session c) (user c) (ws c)
    (reconnectCount c) (qrRetryCount c) (reconnectTimer c) (qrRefreshTimer c)
    (messageTagCounter c) (callbacks c) (clientId c) (keys c)
    (pairing_clientId c) (pairing_keys c) (timers c) (nextTimer c) (promises
    c) (nextPromise c) (sends c) (nextSend c) (wire c) (emitted c) (console c)
    (delegated c) (rendering c) v (entropy c) (drawn c) (curve_makeKeyPair c)
    (ws_ctor_error c).
Definition with_entropy (v : nat -> byte) (c : Client) : Client :=
  Build_Client (options c) (state c) (session c) (user c) (ws c)
    (reconnectCount c) (qrRetryCount c) (reconnectTimer c) (qrRefreshTimer c)
    (messageTagCounter c) (callbacks c) (clientId c) (keys c)
    (pairing_clientId c) (pairing_keys c) (timers c) (nextTimer c) (promises
    c) (nextPromise c) (sends c) (nextSend c) (wire c) (emitted c) (console c)
    (delegated c) (rendering c) (now c) v (drawn c) (curve_makeKeyPair c)
    (ws_ctor_error c).
Definition with_drawn (v : nat) (c : Client) : Client :=
  Build_Client (options c) (state c) (session c) (user c) (ws c)
    (reconnectCount c) (qrRetryCount c) (reconnectTimer c) (qrRefreshTimer c)
    (messageTagCounter c) (callbacks c) (clientId c) (keys c)
    (pairing_clientId c) (pairing_keys c) (timers c) (nextTimer c) (promises
    c) (nextPromise c) (sends c) (nextSend c) (wire c) (emitted c) (console c)
    (delegated c) (rendering c) (now c) (entropy c) v (curve_makeKeyPair c)
    (ws_ctor_error c).
Definition with_curve_makeKeyPair (v : Buffer -> Buffer) (c : Client) : Client :=
  Build_Client (options c) (state c) (session c) (user c) (ws c)
    (reconnectCount c) (qrRetryCount c) (reconnectTimer c) (qrRefreshTimer c)
    (messageTagCounter c) (callbacks c) (clientId c) (keys c)
    (pairing_clientId c) (pairing_keys c) (timers c) (nextTimer c) (promises
    c) (nextPromise c) (sends c) (nextSend c) (wire c) (emitted c) (console c)
    (delegated c) (rendering c) (now c) (entropy c) (drawn c) v (ws_ctor_error
    c).
Definition with_ws_ctor_error (v : option string) (c : Client) : Client :=
  Build_Client (options c) (state c) (session c) (user c) (ws c)
    (reconnectCount c) (qrRetryCount c) (reconnectTimer c) (qrRefreshTimer c)
    (messageTagCounter c) (callbacks c) (clientId c) (keys c)
    (pairing_clientId c) (pairing_keys c) (timers c) (nextTimer c) (promises
    c) (nextPromise c) (sends c) (nextSend c) (wire c) (emitted c) (console c)
    (delegated c) (rendering c) (now c) (entropy c) (drawn c)
    (curve_makeKeyPair c) v.

(** ** Runtime services *)

(** [this.emit(name, payload)].  No listener is part of the core; an
    emitted event is appended to the record of emitted events. *)
Definition emit (e : Event) (c : Client) : Client :=
  with_emitted (emitted c ++ [e]) c.

(** [this.log(...)]: writes only when the [debug] option is set.  A line is
    recorded by its leading text. *)
Definition log (msg : string) (c : Client) : Client :=
  with_console (console c ++ (if debug (options c) then [msg] else [])) c.

(** Several calls of [this.log] in a row. *)
Definition log_lines (msgs : list string) (c : Client) : Client :=
  with_console (console c ++ (if debug (options c) then msgs else [])) c.

Definition setTimeout (a : TimerAction) (delay : Q) (c : Client)
  : nat * Client :=
  let id := nextTimer c in
  (id, with_nextTimer (S id)
         (with_timers (<[id := {| t_delay := delay; t_action := a |}]> (timers c)) c)).

(** [clearTimeout(id)]: nothing happens for a timer that already fired or
    was cleared. *)
Definition clearTimeout (id : nat) (c : Client) : Client :=
  with_timers (delete id (timers c)) c.

(** [new Promise(...)]: a fresh pending promise. *)
Definition new_promise (c : Client) : nat * Client :=
  let p := nextPromise c in
  (p, with_nextPromise (S p) (with_promises (<[p := Pending]> (promises c)) c)).

(** [resolve(v)] and [reject(e)]: a promise that is already settled keeps
    its settlement. *)
Definition settle (p : nat) (r : Settlement) (c : Client) : Client :=
  with_promises
    (match promises c !! p with
     | Some Pending => <[p := r]> (promises c)
     | _ => promises c
     end) c.

(** [crypto.randomBytes(n)]. *)
Definition randomBytes (n : nat) (c : Client) : Buffer * Client :=
  (map (entropy c) (seq (drawn c) n), with_drawn (drawn c + n)%nat c).

(** [this.client.ws.send(buffer, callback)]: the frame goes to the wire
    and the callback waits for the outcome of the write. *)
Definition ws_send (buffer : Buffer) (k : SendCont) (c : Client) : Client :=
  let id := nextSend c in
  with_nextSend (S id)
    (with_sends (<[id := k]> (sends c)) (with_wire (wire c ++ [buffer]) c)).

(** [!this.client.ws || this.client.ws.readyState !== WebSocket.OPEN]. *)
Definition ws_not_open (c : Client) : bool :=
  match ws c with
  | Some WS_OPEN => false
  | _ => true
  end.

(** ** [BinaryEncoder] and [BinaryDecoder] *)

Definition BinaryEncoder_encode (node : json) : Buffer :=
  Buffer_from (JSON_stringify node).

(** What [BinaryDecoder.decode] returns: the parsed document, or the
    object [{data: buffer}] when the text is not JSON. *)
Inductive Decoded :=
  | D_json (v : json)
  | D_raw (data : Buffer).

Definition BinaryDecoder_decode (buffer : Buffer) : Decoded :=
  match JSON_parse (Buffer_toString buffer) with
  | Some v => D_json v
  | None => D_raw buffer
  end.

(** ** [AuthHandler] *)

Definition generateKeys (c : Client) : Client :=
  let '(idBytes, c) := randomBytes 16 c in
  let c := with_clientId (Some (hex_of_bytes idBytes)) c in
  let '(privateKey, c) := randomBytes 32 c in
  let c := with_keys (Some {| private := privateKey;
                              public := curve_makeKeyPair c privateKey |}) c in
  log "Generated new client ID and keys" c.

(** The settle delay of [handleAuthSuccess], in milliseconds. *)
Definition settle_delay : Q := 1000 # 1.

(** [handleAuthSuccess(data)] of [AuthHandler] and of [QRAuth]; the two are
    the same statement for statement ([QRAuth] writes the state names as
    string literals). *)
Definition handleAuthSuccess (data : json) (c : Client)
  : completion unit * Client :=
  match get_prop data "session" with
  | Throw e => (Throw e, c)
  | Normal session_field =>
      match keys c with
      | None => (Throw "TypeError: Cannot read properties of null", c)
      | Some k =>
          let prop x := match get_prop data x with
                        | Normal v => v
                        | Throw _ => None
                        end in
          let who := {| me_id := prop "wid";
                        me_name := prop "pushname";
                        me_phone := prop "phone" |} in
          let s := {| session_clientId := clientId c;
                      serverToken := session_field;
                      clientToken := prop "clientToken";
                      encKey := Keys_encKey k;
                      macKey := Keys_macKey k;
                      me := who |} in
          let c := with_session (Some s) c in
          let c := with_user (Some who) c in
          let prevState := state c in
          let c := with_state AUTHENTICATED c in
          let c := emit (Ev_state_change prevState AUTHENTICATED) c in
          let c := emit (Ev_authenticated who s) c in
          let c := with_reconnectCount 0 c in
          let c := with_qrRetryCount 0 c in
          let c := match qrRefreshTimer c with
                   | Some t => with_qrRefreshTimer None (clearTimeout t c)
                   | None => c
                   end in
          let '(_, c) := setTimeout T_ready settle_delay c in
          (Normal tt, c)
      end
  end.

(** The callback of the settle-delay timer. *)
Definition ready_callback (c : Client) : Client :=
  if ConnectionState_eqb (state c) AUTHENTICATED then
    let c := with_state READY c in
    let c := emit (Ev_state_change AUTHENTICATED READY) c in
    emit Ev_ready c
  else c.

(** [handleQRCode(ref)] up to its first [await]: the keys are generated if
    absent and the rendering of the QR image is awaited. *)
Definition handleQRCode (ref : option json) (c : Client) : Client :=
  let c := match keys c, clientId c with
           | Some _, Some _ => c
           | _, _ => generateKeys c
           end in
  with_rendering (rendering c ++ [ref]) c.

(** The lines [handleQRCode] logs around the rendered code. *)
Definition qr_banner : list string :=
  [ "==========================================================";
    "SCAN THIS QR CODE WITH YOUR WHATSAPP MOBILE APP:";
    "==========================================================";
    "(the QR code as text)";
    "==========================================================";
    "QR code saved as:";
    "QR code will expire in 60 seconds";
    "==========================================================" ].

(** [handleQRCode] after the rendering: on success the [qr] event and the
    expiry timer, on failure the [qr_error] event. *)
Definition handleQRCode_rendered (err : option string) (c : Client) : Client :=
  match rendering c with
  | [] => c
  | ref :: rest =>
      let c := with_rendering rest c in
      match err with
      | Some e => emit (Ev_qr_error e) (log "Error generating QR code:" c)
      | None =>
          let c := emit (Ev_qr ref) c in
          let c := log_lines qr_banner c in
          let c := match qrRefreshTimer c with
                   | Some t => clearTimeout t c
                   | None => c
                   end in
          let '(id, c) := setTimeout T_qrExpiry (inject_Z (qrTimeout (options c))) c in
          with_qrRefreshTimer (Some id) c
      end
  end.

(** ** [ProtocolManager] *)

(** [this.messageTagCounter++] on a JavaScript number: integers are exact
    up to [2^53], where adding one no longer changes the value. *)
Definition js_incr (n : Z) : Z := if n <? 2 ^ 53 then n + 1 else n.

(** The tag text for a clock value and a counter value: the two numbers
    in decimal with [.--] between them. *)
Definition message_tag (clock counter : Z) : string :=
  decimal clock +:+ ".--" +:+ decimal counter.

(** [_generateMessageTag()]: the tag of [Date.now()] and the counter, which
    is then incremented. *)
Definition _generateMessageTag (c : Client) : string * Client :=
  (message_tag (now c) (messageTagCounter c),
   with_messageTagCounter (js_incr (messageTagCounter c)) c).

Definition sendJSON (data : json) (after : JsonAfter) (c : Client)
  : completion unit * Client :=
  if ws_not_open c then (Throw "WebSocket is not connected", c)
  else
    let jsonStr := JSON_stringify data in
    let buffer := Buffer_concat [WA_MAGIC; WA_PREFIX_INFO; Buffer_from jsonStr] in
    (Normal tt, ws_send buffer (K_json after) c).

(** [node.tag = tag], in the strict code of a class body.  On an object
    the property is set.  On an array it is set too, and is no element:
    [JSON.stringify], the only reader of the node, writes the elements.
    On [null] and on a string, a number or a boolean the assignment
    throws a [TypeError]. *)
Definition set_tag (node : json) (tag : string) : completion json :=
  match node with
  | JObj ps => Normal (JObj (props_set "tag" (JStr tag) ps))
  | JArr items => Normal (JArr items)
  | JNull => Throw "TypeError: Cannot set properties of null"
  | JBool _ | JNum _ | JStr _ => Throw "TypeError: Cannot create property 'tag'"
  end.

(** [sendBinary(node, options)] with [options.tag] and [options.timeout];
    the result is the promise it returns, or the error it is rejected with
    before anything is sent: the socket is not open, or the node cannot
    take the tag, which by then has been generated. *)
Definition sendBinary (node : json) (opt_tag : option string)
    (opt_timeout : option Z) (c : Client) : completion nat * Client :=
  if ws_not_open c then (Throw "WebSocket is not connected", c)
  else
    let '(tag, c) :=
      match opt_tag with
      | Some t => if String.eqb t "" then _generateMessageTag c else (t, c)
      | None => _generateMessageTag c
      end in
    match set_tag node tag with
    | Throw e => (Throw e, c)
    | Normal node =>
        let encoded := BinaryEncoder_encode node in
        let buffer := Buffer_concat [WA_MAGIC; WA_PREFIX_BINARY; encoded] in
        let '(p, c) := new_promise c in
        let delay := match opt_timeout with
                     | Some t => if t =? 0 then 60000 else t
                     | None => 60000
                     end in
        let '(timeout, c) :=
          setTimeout (T_responseTimeout tag p) (inject_Z delay) c in
        let c := with_callbacks (<[tag := (timeout, p)]> (callbacks c)) c in
        (Normal p, ws_send buffer (K_binary timeout tag p) c)
    end.

(** The timeout callback of [sendBinary]. *)
Definition response_timeout (tag : string) (p : nat) (c : Client) : Client :=
  settle p (Rejected "Response timeout")
    (with_callbacks (delete tag (callbacks c)) c).

(** The [ws.send] callback of [sendBinary]. *)
Definition binary_send_done (timeout : nat) (tag : string) (p : nat)
    (error : option string) (c : Client) : Client :=
  match error with
  | Some e =>
      let c := clearTimeout timeout c in
      let c := with_callbacks (delete tag (callbacks c)) c in
      settle p (Rejected e) c
  | None => c
  end.

Definition num (n : Z) : json := JNum (decimal n).

Definition WA_VERSION : list Z := [2; 2342; 59].

Definition sendInitialMessage (c : Client) : Client :=
  let version i := num (default 0 (WA_VERSION !! i)) in
  let initialMessage :=
    [ ("clientToken", match clientId c with Some i => JStr i | None => JNull end);
      ("connectType", JStr "WIFI_UNKNOWN");
      ("connectReason", JStr "USER_ACTIVATED");
      ("userAgent",
        JObj [ ("platform", JStr "DESKTOP");
               ("appVersion", JObj [ ("primary", version 0%nat);
                                     ("secondary", version 1%nat);
                                     ("tertiary", version 2%nat) ]);
               ("osVersion", JObj [ ("primary", num 10);
                                    ("secondary", num 0);
                                    ("tertiary", num 0) ]) ]);
      ("webInfo", JObj [ ("webSubPlatform", JStr "WEB_BROWSER") ]) ] in
  let initialMessage :=
    match session c with
    | Some s =>
        let m := props_set "passive" (JBool true) initialMessage in
        match serverToken s with
        | Some t => props_set "session" t m
        | None => m
        end
    | None => initialMessage
    end in
  snd (sendJSON (JObj initialMessage) After_initial c).

(** [sendLogout()] up to its [await]: a rejection of the request is caught
    and logged. *)
Definition sendLogout (c : Client) : Client :=
  let '(id, c) := _generateMessageTag c in
  let node := JObj [ ("id", JStr id); ("type", JStr "action");
                     ("data", JObj [ ("type", JStr "set");
                                     ("xmlns", JStr "status");
                                     ("status", JStr "logout") ]) ] in
  match sendBinary node None (Some 5000) c with
  | (Normal _, c) => c
  | (Throw _, c) => log "Error sending logout message:" c
  end.

Definition _processJsonMessage (message : json) (c : Client)
  : completion unit * Client :=
  match get_prop message "status" with
  | Throw e => (Throw e, c)
  | Normal status =>
      if is_str status "connected" then
        (Normal tt, emit (Ev_connection_success message) c)
      else if is_str status "connecting" then
        (Normal tt, emit (Ev_connecting message) c)
      else if is_str status "timeout" then
        let c := with_state TIMEOUT c in
        let c := emit (Ev_state_change CONNECTING TIMEOUT) c in
        (Normal tt, emit (Ev_connection_timeout message) c)
      else
        let prop x := match get_prop message x with
                      | Normal v => v
                      | Throw _ => None
                      end in
        if is_str (prop "type") "qr" then
          let c := log "Received QR code data" c in
          (Normal tt, handleQRCode (prop "ref") c)
        else if is_str (prop "type") "success" then
          let c := log "Authentication successful" c in
          handleAuthSuccess message c
        else
          (Normal tt, emit (Ev_unknown_message message) c)
  end.

Definition _processNotification (notification : json) (c : Client) : Client :=
  match get_prop notification "subtype" with
  | Throw _ => c
  | Normal subtype =>
      if negb (truthy subtype) then emit (Ev_notification notification) c
      else if is_str subtype "group" then
        with_delegated (delegated c ++ [To_handleGroupNotification notification]) c
      else if is_str subtype "privacy" then
        emit (Ev_privacy_notification notification) c
      else if is_str subtype "contact" then
        emit (Ev_contact_notification notification) c
      else emit (Ev_notification notification) c
  end.

(** The callback [sendBinary] registers for a tag, applied to a reply. *)
Definition reply_callback (timeout p : nat) (response : json) (c : Client)
  : Client :=
  settle p (Resolved response) (clearTimeout timeout c).

(** The registry part of [_processBinaryMessage]: the callback registered
    for the tag of the message, if any, is called and removed.  The keys of
    the registry are strings, so a tag that is not a string finds none. *)
Definition deliver (m : json) (tag : option json) (c : Client) : Client :=
  match tag with
  | Some (JStr t) =>
      match callbacks c !! t with
      | Some (timeout, p) =>
          let c := reply_callback timeout p m c in
          with_callbacks (delete t (callbacks c)) c
      | None => c
      end
  | _ => c
  end.

Definition _processBinaryMessage (message : Decoded) (c : Client)
  : completion unit * Client :=
  match message with
  | D_raw _ => (Normal tt, log "Received binary message without tag" c)
  | D_json m =>
      match get_prop m "tag" with
      | Throw e => (Throw e, c)
      | Normal tag =>
          if negb (truthy tag) then
            (Normal tt, log "Received binary message without tag" c)
          else
            let c := deliver m tag c in
            match get_prop m "data" with
            | Normal (Some d) =>
                if truthy (Some d) then
                  match get_prop d "type" with
                  | Normal ty =>
                      if negb (truthy ty) then (Normal tt, c)
                      else if is_str ty "message" then
                        (Normal tt, with_delegated
                                      (delegated c ++ [To_handleIncomingMessage d]) c)
                      else if is_str ty "receipt" then
                        (Normal tt, with_delegated
                                      (delegated c ++ [To_handleReceipt d]) c)
                      else if is_str ty "presence" then
                        (Normal tt, emit (Ev_presence d) c)
                      else if is_str ty "notification" then
                        (Normal tt, _processNotification d c)
                      else (Normal tt, emit (Ev_binary_message d) c)
                  | Throw e => (Throw e, c)
                  end
                else (Normal tt, c)
            | _ => (Normal tt, c)
            end
      end
  end.

Definition processMessage (buffer : Buffer) (c : Client)
  : completion unit * Client :=
  if ((length buffer <? 4)%nat
      || negb (byte_is (Buffer_at buffer 0) WA_MAGIC_0)
      || negb (byte_is (Buffer_at buffer 1) WA_MAGIC_1))%bool
  then (Normal tt, log "Received invalid message format" c)
  else
    let messageType := Buffer_at buffer 2 in
    let messageData := Buffer_slice 4 buffer in
    if byte_is messageType WA_PREFIX_INFO_0 then
      match JSON_parse (Buffer_toString messageData) with
      | Some jsonMessage =>
          let c := log "Received JSON message:" c in
          match _processJsonMessage jsonMessage c with
          | (Normal _, c) => (Normal tt, c)
          | (Throw _, c) => (Normal tt, log "Error parsing JSON message:" c)
          end
      | None => (Normal tt, log "Error parsing JSON message:" c)
      end
    else if byte_is messageType WA_PREFIX_BINARY_0 then
      let decoded := BinaryDecoder_decode messageData in
      let c := log "Received binary message:" c in
      match _processBinaryMessage decoded c with
      | (Normal _, c) => (Normal tt, c)
      | (Throw _, c) => (Normal tt, log "Error decoding binary message:" c)
      end
    else (Normal tt, log "Received unknown message type:" c).

(** ** [WhatsApp] *)

(** A client as the constructor leaves it, in a given environment. *)
Definition new_WhatsApp (o : RawOptions) (rand : nat -> byte)
    (curve : Buffer -> Buffer) (ctor_error : option string) (clock : Z)
  : Client := {|
  options := make_options o;
  state := DISCONNECTED;
  session := None;
  user := None;
  ws := None;
  reconnectCount := 0;
  qrRetryCount := 0;
  reconnectTimer := None;
  qrRefreshTimer := None;
  messageTagCounter := 0;
  callbacks := ∅;
  clientId := None;
  keys := None;
  pairing_clientId := None;
  pairing_keys := None;
  timers := ∅;
  nextTimer := 0;
  promises := ∅;
  nextPromise := 0;
  sends := ∅;
  nextSend := 0;
  wire := [];
  emitted := [];
  console := [];
  delegated := [];
  rendering := [];
  now := clock;
  entropy := rand;
  drawn := 0;
  curve_makeKeyPair := curve;
  ws_ctor_error := ctor_error;
|}.

(** *** Numbers

    A finite JavaScript number is a double: a rational [m * 2^e] with
    [|m| < 2^53] and [-1074 <= e].  [round_double x] is the double nearest
    to the rational [x], of two nearest ones the one with the even [m]
    (IEEE 754 binary64, round to nearest, ties to even): the value an
    arithmetic operation on doubles returns when its exact result is [x].
    [binade n d] is the exponent [floor (log2 (n / d))] of a positive
    fraction.  [Infinity], the result for magnitudes from about 1.8e308,
    has no rational here; the statements on numbers are about magnitudes
    below. *)

Definition binade (n d : Z) : Z :=
  if d <=? n then Z.log2 (n / d) else - Z.log2_up ((d + n - 1) / n).

Definition round_double (x : Q) : Q :=
  let x := Qred x in
  let n := Z.abs (Qnum x) in
  let d := Zpos (Qden x) in
  if n =? 0 then 0%Q else
  let e := Z.max (binade n d - 52) (-1074) in
  let a := if e <? 0 then n * 2 ^ (- e) else n in
  let b := if e <? 0 then d else d * 2 ^ e in
  let m := a / b in
  let r := a mod b in
  let m := if ((b <? 2 * r) || ((2 * r =? b) && Z.odd m))%bool
           then m + 1 else m in
  let m := Z.sgn (Qnum x) * m in
  if e <? 0 then Qred (m # Z.to_pos (2 ^ (- e))) else inject_Z (m * 2 ^ e).

(** [x * y] on doubles. *)
Definition Number_mul (x y : Q) : Q := round_double (x * y).

(** [Math.pow(x, k)] for an integer [k].  The language asks [Math.pow]
    for an approximation of the power and leaves its last bit to the
    engine; where the power is a double, as [1.5^k] is up to [k = 33], the
    result is that double.  Here it is the double nearest to the power. *)
Definition Math_pow (x : Q) (k : Z) : Q := round_double (Qpower x k).

Definition _scheduleReconnect (c : Client) : Client :=
  if maxReconnects (options c) <=? reconnectCount c then
    let c := log "Maximum reconnect attempts reached" c in
    emit Ev_reconnect_failed c
  else
    let c := with_reconnectCount (reconnectCount c + 1) c in
    let delay :=
      Number_mul (inject_Z (reconnectDelay (options c)))
        (Math_pow (3 # 2) (reconnectCount c - 1)) in
    let c := log "Scheduling reconnect attempt" c in
    let c := match reconnectTimer c with
             | Some t => clearTimeout t c
             | None => c
             end in
    let '(id, c) := setTimeout T_reconnect delay c in
    with_reconnectTimer (Some id) c.

Definition connect (c : Client) : Client :=
  if negb (ConnectionState_eqb (state c) DISCONNECTED) then
    log "Already connecting or connected" c
  else
    let c := with_state CONNECTING c in
    let c := emit (Ev_state_change DISCONNECTED CONNECTING) c in
    let c := log "Connecting to WhatsApp Web servers..." c in
    let c := match session c with
             | None => generateKeys c
             | Some _ => c
             end in
    match ws_ctor_error c with
    | None => with_ws (Some WS_CONNECTING) c
    | Some error =>
        let c := log "Error connecting to WhatsApp Web:" c in
        let c := with_state DISCONNECTED c in
        let c := emit (Ev_state_change CONNECTING DISCONNECTED) c in
        let c := emit (Ev_connection_failure error) c in
        if autoReconnect (options c) then _scheduleReconnect c else c
    end.

(** [disconnect()].  The statements run in the order of the source: the
    state is overwritten first, the two timers are cancelled, the state is
    tested for the logout, the socket is closed and the events are
    emitted. *)
Definition disconnect (c : Client) : Client :=
  if ConnectionState_eqb (state c) DISCONNECTED then c
  else
    let prevState := state c in
    let c := with_state DISCONNECTED c in
    let c := match reconnectTimer c with
             | Some t => with_reconnectTimer None (clearTimeout t c)
             | None => c
             end in
    let c := match qrRefreshTimer c with
             | Some t => with_qrRefreshTimer None (clearTimeout t c)
             | None => c
             end in
    let c := if (ConnectionState_eqb (state c) AUTHENTICATED
                 || ConnectionState_eqb (state c) READY)%bool
             then sendLogout c
             else c in
    let c := match ws c with
             | Some _ => with_ws None c
             | None => c
             end in
    let c := emit (Ev_state_change prevState DISCONNECTED) c in
    let c := emit (Ev_disconnected None) c in
    log "Disconnected from WhatsApp Web servers" c.

(** [restoreSession(session)]: the two calls it awaits complete without
    waiting for an event, so the three statements run in one turn. *)
Definition restoreSession (s : Session) (c : Client) : Client :=
  let c := if negb (ConnectionState_eqb (state c) DISCONNECTED)
           then disconnect c
           else c in
  let c := with_session (Some s) c in
  connect c.

Definition _onWebSocketOpen (c : Client) : Client :=
  let c := log "WebSocket connection established" c in
  let c := with_state CONNECTED c in
  let c := emit (Ev_state_change CONNECTING CONNECTED) c in
  let c := emit Ev_connected c in
  sendInitialMessage c.

Definition _onWebSocketMessage (data : Buffer) (c : Client)
  : completion unit * Client :=
  match processMessage data c with
  | (Normal _, c) => (Normal tt, c)
  | (Throw _, c) => (Normal tt, log "Error processing WebSocket message:" c)
  end.

Definition _onWebSocketClose (code : Z) (reason : string) (c : Client)
  : Client :=
  let c := log "WebSocket closed with code" c in
  let prevState := state c in
  let c := with_state DISCONNECTED c in
  let c := emit (Ev_state_change prevState DISCONNECTED) c in
  let c := emit (Ev_disconnected (Some (code, reason))) c in
  if (autoReconnect (options c) && negb (code =? 1000))%bool
  then _scheduleReconnect c
  else c.

Definition _onWebSocketError (error : string) (c : Client) : Client :=
  emit (Ev_connection_error error) (log "WebSocket error:" c).

Definition _assertConnected (c : Client) : completion unit :=
  if (negb (ConnectionState_eqb (state c) AUTHENTICATED)
      && negb (ConnectionState_eqb (state c) READY))%bool
  then Throw "Not connected or authenticated to WhatsApp"
  else Normal tt.

(** The callback of the reconnect timer. *)
Definition reconnect_callback (c : Client) : Client :=
  connect (log "Reconnecting" c).

(** The callback of the QR expiry timer. *)
Definition qr_expiry_callback (c : Client) : Client :=
  let c := with_qrRetryCount (qrRetryCount c + 1) c in
  if qrRetryCount c <? qrMaxRetries (options c) then
    emit Ev_qr_expired (log "QR code expired. Retrying" c)
  else
    let c := log "Maximum QR code retries reached" c in
    let c := emit Ev_qr_max_retries c in
    disconnect c.

(** ** [PairingCodeAuth] *)

Definition Pairing_generateKeys (c : Client) : Client :=
  let '(idBytes, c) := randomBytes 16 c in
  let c := with_pairing_clientId (Some (hex_of_bytes idBytes)) c in
  let '(privateKey, c) := randomBytes 32 c in
  let c := with_pairing_keys
             (Some {| private := privateKey;
                      public := curve_makeKeyPair c privateKey |}) c in
  log "Generated new client ID and keys for pairing code authentication" c.

Definition formatPhone (phoneNumber : string) : string :=
  if includes_at phoneNumber then phoneNumber
  else digits_only phoneNumber +:+ "@s.whatsapp.net".

(** [if (!this.keys || !this.clientId) this.generateKeys()]. *)
Definition ensure_pairing_keys (c : Client) : Client :=
  match pairing_keys c, pairing_clientId c with
  | Some _, Some _ => c
  | _, _ => Pairing_generateKeys c
  end.

(** [requestPairingCode(phoneNumber)] up to its [await]. *)
Definition requestPairingCode (phoneNumber : string) (c : Client) : Client :=
  let c := ensure_pairing_keys c in
  let formattedPhone := formatPhone phoneNumber in
  let '(refBytes, c) := randomBytes 8 c in
  let publicKey := match pairing_keys c with
                   | Some k => base64_of_bytes (public k)
                   | None => ""
                   end in
  let pairingMessage :=
    JObj [ ("type", JStr "request_pair");
           ("ref", JStr (toUpperCase (hex_of_bytes refBytes)));
           ("publicKey", JStr publicKey);
           ("phone", JStr formattedPhone) ] in
  let c := emit (Ev_pairing_code_request formattedPhone) c in
  match sendJSON pairingMessage (After_pairing formattedPhone) c with
  | (Normal _, c) => c
  | (Throw error, c) =>
      let c := log "Error requesting pairing code:" c in
      emit (Ev_pairing_code_error (PE_error error)) c
  end.

(** [requestPairingCode] after its [await]: the [ws.send] callback of
    [sendJSON] resolves or rejects the awaited promise. *)
Definition requestPairingCode_sent (phone : string) (error : option string)
    (c : Client) : Client :=
  match error with
  | None => log "Pairing code requested for phone:" c
  | Some e =>
      let c := log "Error requesting pairing code:" c in
      emit (Ev_pairing_code_error (PE_error e)) c
  end.

Definition handlePairingCodeResponse (data : json) (c : Client)
  : completion unit * Client :=
  match get_prop data "type" with
  | Throw e => (Throw e, c)
  | Normal ty =>
      let prop x := match get_prop data x with
                    | Normal v => v
                    | Throw _ => None
                    end in
      if is_str ty "pair_success" then
        let c := log "Pairing code generated successfully" c in
        (Normal tt, emit (Ev_pairing_code (prop "code")) c)
      else if is_str ty "pair_error" then
        let reason := match prop "reason" with
                      | Some r => if truthy (Some r) then r
                                  else JStr "Unknown error"
                      | None => JStr "Unknown error"
                      end in
        let c := log "Error generating pairing code:" c in
        (Normal tt, emit (Ev_pairing_code_error (PE_reason reason)) c)
      else (Normal tt, c)
  end.

(** [handleAuthSuccess(data)] of [PairingCodeAuth]: the statements of
    [AuthHandler]'s but the two on the QR code, over the client id and the
    keys [PairingCodeAuth] holds. *)
Definition Pairing_handleAuthSuccess (data : json) (c : Client)
  : completion unit * Client :=
  match get_prop data "session" with
  | Throw e => (Throw e, c)
  | Normal session_field =>
      match pairing_keys c with
      | None => (Throw "TypeError: Cannot read properties of null", c)
      | Some k =>
          let prop x := match get_prop data x with
                        | Normal v => v
                        | Throw _ => None
                        end in
          let who := {| me_id := prop "wid";
                        me_name := prop "pushname";
                        me_phone := prop "phone" |} in
          let s := {| session_clientId := pairing_clientId c;
                      serverToken := session_field;
                      clientToken := prop "clientToken";
                      encKey := Keys_encKey k;
                      macKey := Keys_macKey k;
                      me := who |} in
          let c := with_session (Some s) c in
          let c := with_user (Some who) c in
          let prevState := state c in
          let c := with_state AUTHENTICATED c in
          let c := emit (Ev_state_change prevState AUTHENTICATED) c in
          let c := emit (Ev_authenticated who s) c in
          let c := with_reconnectCount 0 c in
          let '(_, c) := setTimeout T_ready settle_delay c in
          (Normal tt, c)
      end
  end.

(** ** Requests behind the connection guard

    [setPresence] and [isRegisteredUser] of [WhatsApp] check the state and
    hand over to [ProtocolManager.sendPresence] and
    [AuthHandler.isRegisteredUser], which build a node and send it with
    [sendBinary]. *)

Definition validTypes : list string :=
  ["typing"; "recording"; "available"; "unavailable"; "paused"].

(** [validTypes.includes(type)]. *)
Definition valid_presence (type : json) : bool :=
  match type with
  | JStr s => existsb (String.eqb s) validTypes
  | _ => false
  end.

(** The node [sendPresence] builds. *)
Definition presence_node (id : string) (to type : json) : json :=
  JObj [ ("id", JStr id); ("type", JStr "action");
         ("data", JObj [ ("type", JStr "set"); ("xmlns", JStr "presence");
                         ("to", to); ("presence", type) ]) ].

(** [sendPresence(to, type)] up to its [await]: the promise of the request
    it waits for, or the error it is rejected with (the message of the
    first error, without the type it quotes). *)
Definition sendPresence (to type : json) (c : Client)
  : completion nat * Client :=
  if negb (valid_presence type) then (Throw "Invalid presence type", c)
  else
    let '(id, c) := _generateMessageTag c in
    sendBinary (presence_node id to type) None None c.

Definition setPresence (chatId presence : json) (c : Client)
  : completion nat * Client :=
  match _assertConnected c with
  | Throw e => (Throw e, c)
  | Normal _ => sendPresence chatId presence c
  end.

(** How far an [async] method got in its first turn: it waits for a
    promise, or it has returned. *)
Inductive Progress (A : Type) :=
  | Awaiting (p : nat)
  | Returned (a : A).
Arguments Awaiting {A} p.
Arguments Returned {A} a.

(** The node [AuthHandler.isRegisteredUser] builds. *)
Definition contact_node (id jid : string) : json :=
  JObj [ ("id", JStr id); ("type", JStr "action");
         ("data", JObj [ ("type", JStr "get"); ("xmlns", JStr "contact");
                         ("jid", JStr jid) ]) ].

(** [AuthHandler.isRegisteredUser(number)] up to its [await]; an error of
    [sendBinary] is caught, logged and answered with [false]. *)
Definition isRegisteredUser (number : string) (c : Client)
  : Progress bool * Client :=
  let jid := digits_only number +:+ "@s.whatsapp.net" in
  let '(id, c) := _generateMessageTag c in
  match sendBinary (contact_node id jid) None None c with
  | (Normal p, c) => (Awaiting p, c)
  | (Throw _, c) => (Returned false, log "Error checking registered user:" c)
  end.

(** [WhatsApp.isRegisteredUser(number)]. *)
Definition WhatsApp_isRegisteredUser (number : string) (c : Client)
  : completion (Progress bool) * Client :=
  match _assertConnected c with
  | Throw e => (Throw e, c)
  | Normal _ =>
      let '(r, c) := isRegisteredUser number c in
      (Normal r, c)
  end.

(** [getSession()]. *)
Definition getSession (c : Client) : option Session := session c.

(** ** [GroupHandler.handleGroupNotification]

    The store of chats and the text a template literal gives a value
    belong to the runtime: [chats_has] is [this.client.store.chats.has]
    and [text_of] the string conversion.  The events of the group handler
    are not events of the session core; what the handler does after its
    log line is returned as a list of steps: the event it emits and, for
    a group of the store and one of the nine subtypes of its [switch],
    the call of [getInfo] that refreshes the group. *)
Section GroupNotification.

Variable chats_has : option json -> bool.
Variable text_of : option json -> string.

Inductive GroupStep :=
  | Emit_group (name : string) (notification : json)
  | Refresh (groupId : option json).

Definition refreshing : list string :=
  [ "add"; "remove"; "promote"; "demote"; "subject"; "description";
    "picture"; "announce"; "restrict" ].

Definition handleGroupNotification (notification : json) (c : Client)
  : completion (list GroupStep) * Client :=
  match get_prop notification "subtype" with
  | Throw e => (Throw e, c)
  | Normal type =>
      let groupId := match get_prop notification "jid" with
                     | Normal v => v
                     | Throw _ => None
                     end in
      let c := log "Received group notification:" c in
      let emitted_step := Emit_group ("group_" +:+ text_of type) notification in
      if (chats_has groupId && existsb (is_str type) refreshing)%bool
      then (Normal [emitted_step; Refresh groupId], c)
      else (Normal [emitted_step], c)
  end.

End GroupNotification.

(** ** [utils/crypto]: signing and verifying

    [createHmac_sha256 key data] is the digest
    [crypto.createHmac('sha256', key).update(data).digest()] of the
    runtime.  [crypto.timingSafeEqual] compares two buffers of one length
    and throws a [RangeError] on buffers of different lengths. *)
Section Crypto.

Variable createHmac_sha256 : Buffer -> Buffer -> Buffer.

Definition hmacSign (data key : Buffer) : Buffer :=
  createHmac_sha256 key data.

Definition timingSafeEqual (a b : Buffer) : completion bool :=
  if (length a =? length b)%nat
  then Normal (if List.list_eq_dec Byte.byte_eq_dec a b then true else false)
  else Throw "RangeError: Input buffers must have the same byte length".

Definition hmacVerify (data key signature : Buffer) : completion bool :=
  let computed := hmacSign data key in
  timingSafeEqual computed signature.

End Crypto.

(** ** The event loop

    One turn of the event loop runs one of the client's entry points: a
    call by the application, a socket event, a timer that fires, the
    completion of a write, the end of a QR rendering, or the passing of
    time.  [I_sendBinary] stands for the handlers that send a tagged
    request; every call of [sendBinary] in the source leaves [options.tag]
    out.  [I_binary] is the reply entry point of the tag registry,
    [_processBinaryMessage], applied to a decoded message, and
    [I_pairingResponse] the reply entry point of the pairing-code variant,
    [handlePairingCodeResponse]; the connection class that would call the
    latter is not among the sources. *)
Inductive Input :=
  | I_connect
  | I_disconnect
  | I_restoreSession (s : Session)
  | I_sendBinary (node : json) (timeout : option Z)
  | I_requestPairingCode (phone : string)
  | I_pairingResponse (data : json)
  | I_open
  | I_message (data : Buffer)
  | I_binary (message : Decoded)
  | I_close (code : Z) (reason : string)
  | I_error (error : string)
  | I_fire (timer : nat)
  | I_sent (id : nat) (error : option string)
  | I_rendered (error : option string)
  | I_clock (t : Z).

Definition socket_becomes (r : ReadyState) (c : Client) : Client :=
  match ws c with
  | Some _ => with_ws (Some r) c
  | None => c
  end.

Definition fire (id : nat) (c : Client) : Client :=
  match timers c !! id with
  | None => c
  | Some t =>
      let c := with_timers (delete id (timers c)) c in
      match t_action t with
      | T_reconnect => reconnect_callback c
      | T_qrExpiry => qr_expiry_callback c
      | T_ready => ready_callback c
      | T_responseTimeout tag p => response_timeout tag p c
      end
  end.

Definition sent (id : nat) (error : option string) (c : Client) : Client :=
  match sends c !! id with
  | None => c
  | Some k =>
      let c := with_sends (delete id (sends c)) c in
      match k with
      | K_json After_initial => c
      | K_json (After_pairing phone) => requestPairingCode_sent phone error c
      | K_binary timeout tag p => binary_send_done timeout tag p error c
      end
  end.

Definition step (i : Input) (c : Client) : Client :=
  match i with
  | I_connect => connect c
  | I_disconnect => disconnect c
  | I_restoreSession s => restoreSession s c
  | I_sendBinary node timeout => snd (sendBinary node None timeout c)
  | I_requestPairingCode phone => requestPairingCode phone c
  | I_pairingResponse data => snd (handlePairingCodeResponse data c)
  | I_open => _onWebSocketOpen (socket_becomes WS_OPEN c)
  | I_message data => snd (_onWebSocketMessage data c)
  | I_binary message => snd (_processBinaryMessage message c)
  | I_close code reason => _onWebSocketClose code reason (socket_becomes WS_CLOSED c)
  | I_error error => _onWebSocketError error c
  | I_fire id => fire id c
  | I_sent id error => sent id error c
  | I_rendered error => handleQRCode_rendered error c
  | I_clock t => with_now t c
  end.

Definition run (c : Client) (l : list Input) : Client :=
  foldl (fun c i => step i c) c l.

(** ** Sample data

    A client with the default options in a fixed environment, and the
    messages of the scenarios. *)

Definition no_options : RawOptions := {|
  raw_debug := None;
  raw_maxReconnects := None;
  raw_reconnectDelay := None;
  raw_autoReconnect := None;
  raw_qrMaxRetries := None;
  raw_qrTimeout := None;
  raw_wsUrl := None;
  raw_userAgent := None;
|}.

Definition sample_entropy (n : nat) : byte :=
  default x00 (Byte.of_N (N.of_nat ((n * 7 + 3) mod 256))).

Definition sample_curve (privateKey : Buffer) : Buffer := rev privateKey.

Definition fresh_client : Client :=
  new_WhatsApp no_options sample_entropy sample_curve None 1700000000000.

Definition msg_connected : json := JObj [("status", JStr "connected")].

Definition msg_success : json :=
  JObj [ ("type", JStr "success"); ("session", JStr "S1");
         ("clientToken", JStr "C1"); ("wid", JStr "123@s") ].

Definition msg_pair_error : json :=
  JObj [ ("type", JStr "pair_error"); ("reason", JStr "missing") ].

(** An inbound frame with the four-byte header [processMessage] reads:
    the magic, the kind byte and one more byte. *)
Definition inbound_frame (m : json) : Buffer :=
  Buffer_concat [[x57; x41; x06; x00]; Buffer_from (JSON_stringify m)].

(** The frame [sendJSON] writes for a document. *)
Definition json_frame (m : json) : Buffer :=
  Buffer_concat [WA_MAGIC; WA_PREFIX_INFO; Buffer_from (JSON_stringify m)].

(** The frame [sendBinary] writes for a node. *)
Definition binary_frame (node : json) : Buffer :=
  Buffer_concat [WA_MAGIC; WA_PREFIX_BINARY; BinaryEncoder_encode node].

(** A client that connected, authenticated and has one tagged request
    pending. *)
Definition busy_client : Client :=
  run fresh_client
    [ I_connect; I_open; I_message (inbound_frame msg_success);
      I_sendBinary (JObj [("id", JStr "x")]) None ].

(** The reply a server would frame for the pending request of
    [busy_client]. *)
Definition reply_frame : Buffer :=
  binary_frame (JObj [ ("tag", JStr "1700000000000.--0");
                       ("data", JObj [("status", num 200)]) ]).


(** A session saved by an earlier run. *)
Definition saved_session : Session := {|
  session_clientId := Some "0a0b0c0d0e0f";
  serverToken := Some (JStr "S0");
  clientToken := Some (JStr "C0");
  encKey := None;
  macKey := None;
  me := {| me_id := Some (JStr "123@s"); me_name := None; me_phone := None |};
|}.

(** A message that carries a QR reference, and a client that shows the
    code. *)
Definition msg_qr : json := JObj [("type", JStr "qr"); ("ref", JStr "R1")].

Definition qr_shown : Client :=
  run fresh_client
    [I_connect; I_open; I_message (inbound_frame msg_qr); I_rendered None].

(** A client whose socket cannot be created. *)
Definition offline_client : Client :=
  new_WhatsApp no_options sample_entropy sample_curve (Some "ENOTFOUND")
    1700000000000.




(** ** Notions used in the statements *)

(** What the policy gives for the delay before attempt [n] with the base
    delay [base], a whole number of milliseconds.  Up to the 34th attempt,
    where the power of 1.5 is a double, the delay is the double nearest to
    [base * 1.5^(n-1)], within one part in [2^53] of it; it is
    [base * 1.5^(n-1)] itself as long as [base * 3^(n-1)] is below
    [2^53]. *)
Definition policy_delay (base n : Z) (delay : Q) : Prop :=
  let exact := (inject_Z base * Qpower (3 # 2) (n - 1))%Q in
  (0 < base < 2 ^ 53 -> 1 <= n <= 34 ->
   delay = round_double exact
   /\ Qle (exact - exact * (1 # 2 ^ 53)) delay
   /\ Qle delay (exact + exact * (1 # 2 ^ 53)))
  /\ (0 < base -> 1 <= n -> base * 3 ^ (n - 1) < 2 ^ 53 -> Qeq delay exact).

(** The timers left after [clearTimeout] of a timer field. *)
Definition cancel (t : option nat) (m : gmap nat Timer) : gmap nat Timer :=
  match t with
  | Some id => delete id m
  | None => m
  end.

Fixpoint all_digits (s : string) : bool :=
  match s with
  | EmptyString => true
  | String c r => is_digit c && all_digits r
  end.

(** The request [requestPairingCode] sends for a phone, a reference and a
    public key. *)
Definition pairing_request (ref publicKey phone : string) : json :=
  JObj [ ("type", JStr "request_pair"); ("ref", JStr ref);
         ("publicKey", JStr publicKey); ("phone", JStr phone) ].

(** The largest value the reconnect counter takes. *)
Definition cap (c : Client) : Z := Z.max 0 (maxReconnects (options c)).

(** The invariant of the runtime.  Timer and promise handles are below the
    next handle to be issued; the timer fields of the client, the callbacks
    of the registry and the pending [ws.send] callbacks of tagged requests
    name timers that, while armed, run the action they were armed with;
    every pending promise has its timeout timer armed; the counters are in
    range. *)
Record wf (c : Client) : Prop := {
  wf_timers : forall (id : nat) (t : Timer),
    timers c !! id = Some t -> (id < nextTimer c)%nat;
  wf_reconnect : forall r : nat,
    reconnectTimer c = Some r ->
    (r < nextTimer c)%nat
    /\ forall t : Timer, timers c !! r = Some t -> t_action t = T_reconnect;
  wf_qr : forall r : nat,
    qrRefreshTimer c = Some r ->
    (r < nextTimer c)%nat
    /\ forall t : Timer, timers c !! r = Some t -> t_action t = T_qrExpiry;
  wf_callbacks : forall (tag : string) (timeout p : nat),
    callbacks c !! tag = Some (timeout, p) ->
    (timeout < nextTimer c)%nat
    /\ forall t : Timer,
         timers c !! timeout = Some t -> t_action t = T_responseTimeout tag p;
  wf_sends : forall (id timeout : nat) (tag : string) (p : nat),
    sends c !! id = Some (K_binary timeout tag p) ->
    (timeout < nextTimer c)%nat
    /\ forall t : Timer,
         timers c !! timeout = Some t -> t_action t = T_responseTimeout tag p;
  wf_pending : forall p : nat,
    promises c !! p = Some Pending ->
    exists (id : nat) (d : Q) (tag : string),
      timers c !! id
      = Some {| t_delay := d; t_action := T_responseTimeout tag p |};
  wf_promises : forall (p : nat) (s : Settlement),
    promises c !! p = Some s -> (p < nextPromise c)%nat;
  wf_counter : 0 <= messageTagCounter c;
  wf_count : 0 <= reconnectCount c <= cap c;
}.

(** The fields the invariant reads. *)
Definition tracked (c : Client) :=
  (options c, reconnectCount c, messageTagCounter c, callbacks c, timers c,
   nextTimer c, promises c, nextPromise c, sends c, reconnectTimer c,
   qrRefreshTimer c).

(** [evolves keep c c']: what holds between a client and the same client
    after some turns of the event loop.  The options are the same, the tag
    counter did not go down, the invariant is kept, a promise whose
    settlement satisfies [keep] has the same settlement, and a tag that is
    registered was registered before or was generated in between. *)
Definition evolves (keep : Settlement -> Prop) (c c' : Client) : Prop :=
  options c' = options c
  /\ messageTagCounter c <= messageTagCounter c'
  /\ (wf c -> wf c')
  /\ (forall (p : nat) (s : Settlement),
        wf c -> promises c !! p = Some s -> keep s ->
        promises c' !! p = Some s)
  /\ (messageTagCounter c' < 2 ^ 53 ->
      forall tag : string,
        is_Some (callbacks c' !! tag) ->
        is_Some (callbacks c !! tag)
        \/ exists t k : Z,
             tag = message_tag t k
             /\ messageTagCounter c <= k < messageTagCounter c').

(** Turns that settle no promise, and turns that may settle pending
    ones. *)
Definition quiet : Client -> Client -> Prop := evolves (fun _ => True).
Definition steady : Client -> Client -> Prop := evolves (fun s => s <> Pending).


(** The turns that settle no promise: all but a reply, a timer and the
    completion of a write. *)
Definition settling (i : Input) : bool :=
  match i with
  | I_binary _ | I_fire _ | I_sent _ _ => true
  | _ => false
  end.

(** The state a listener of the [state_change] events knows: the target of
    the last one, and [DISCONNECTED] before the first. *)
Definition last_state (l : list Event) : ConnectionState :=
  foldl (fun s e => match e with
                    | Ev_state_change _ to => to
                    | _ => s
                    end) DISCONNECTED l.

(** The guard of [_assertConnected] passes. *)
Definition authenticated (c : Client) : Prop :=
  state c = AUTHENTICATED \/ state c = READY.

(** What the turns of the event loop keep beside the invariant of the
    runtime: the state is the one the [state_change] events announced, an
    authenticated client has a session and a user, and an armed reconnect
    or QR expiry timer is the one the client holds. *)
Record coherent (c : Client) : Prop := {
  co_state : last_state (emitted c) = state c;
  co_session : authenticated c -> is_Some (session c) /\ is_Some (user c);
  co_reconnect : forall (id : nat) (t : Timer),
    timers c !! id = Some t -> t_action t = T_reconnect ->
    reconnectTimer c = Some id;
  co_qr : forall (id : nat) (t : Timer),
    timers c !! id = Some t -> t_action t = T_qrExpiry ->
    qrRefreshTimer c = Some id;
}.

(** The fields [coherent] reads. *)
Definition observed (c : Client) :=
  (state c, emitted c, session c, user c, timers c, reconnectTimer c,
   qrRefreshTimer c).

(** No digit of the mantissa of a number written [n] is non-zero. *)
Fixpoint zero_digits (n : string) : bool :=
  match n with
  | EmptyString => true
  | String c r =>
      if (Ascii.eqb c "e" || Ascii.eqb c "E")%bool then true
      else if ((49 <=? N_of_ascii c) && (N_of_ascii c <=? 57))%N then false
           else zero_digits r
  end.

(** A number as [JSON.stringify] writes one: a JSON number, and not the
    negative zero, which is written [0]. *)
Definition written_number (n : string) : bool :=
  match parse_number n with
  | Some (m, rest) =>
      String.eqb m n && String.eqb rest ""
      && negb (zero_digits n && match n with
                                   | String c _ => Ascii.eqb c "-"
                                   | EmptyString => false
                                   end)
  | None => false
  end.

Fixpoint distinct (l : list string) : bool :=
  match l with
  | [] => true
  | k :: r => negb (existsb (String.eqb k) r) && distinct r
  end.

(** The documents [JSON.stringify] and [JSON.parse] exchange: numbers are
    written as numbers and no object has two properties of one name. *)
Fixpoint document (v : json) : bool :=
  match v with
  | JNull | JBool _ | JStr _ => true
  | JNum n => written_number n
  | JArr items => forallb document items
  | JObj props =>
      distinct (map fst props) && forallb (fun kv => document (snd kv)) props
  end.

(** The text [JSON.stringify] writes between the brackets of an array and
    between the braces of an object. *)
Fixpoint stringify_items (l : list json) : string :=
  match l with
  | [] => ""
  | [x] => JSON_stringify x
  | x :: l' => JSON_stringify x +:+ "," +:+ stringify_items l'
  end.

Fixpoint stringify_props (l : list (string * json)) : string :=
  match l with
  | [] => ""
  | [(k, x)] => quote k +:+ ":" +:+ JSON_stringify x
  | (k, x) :: l' =>
      quote k +:+ ":" +:+ JSON_stringify x +:+ "," +:+ stringify_props l'
  end.

(** What follows a value in a text [JSON.stringify] wrote: nothing, a
    comma, or a closing bracket or brace. *)
Definition closes (rest : string) : bool :=
  match rest with
  | EmptyString => true
  | String c _ => Ascii.eqb c "," || Ascii.eqb c "]" || Ascii.eqb c "}"
  end.

(** The registry agrees with the promises and the timers: a registered
    callback waits for a pending promise with its timeout armed, no two
    tags wait for one promise, and a timeout or a write completion of a
    request knows the only tag its promise can be registered under. *)
Record registered (c : Client) : Prop := {
  rg_pending : forall (tag : string) (t p : nat),
    callbacks c !! tag = Some (t, p) -> promises c !! p = Some Pending;
  rg_timer : forall (tag : string) (t p : nat),
    callbacks c !! tag = Some (t, p) -> is_Some (timers c !! t);
  rg_unique : forall (tag tag' : string) (t t' p : nat),
    callbacks c !! tag = Some (t, p) -> callbacks c !! tag' = Some (t', p) ->
    tag = tag';
  rg_timers : forall (id : nat) (x : Timer) (tag : string) (p : nat),
    timers c !! id = Some x -> t_action x = T_responseTimeout tag p ->
    (p < nextPromise c)%nat
    /\ forall (tag' : string) (t' : nat),
         callbacks c !! tag' = Some (t', p) -> tag' = tag;
  rg_sends : forall (i timeout : nat) (tag : string) (p : nat),
    sends c !! i = Some (K_binary timeout tag p) ->
    (p < nextPromise c)%nat
    /\ forall (tag' : string) (t' : nat),
         callbacks c !! tag' = Some (t', p) -> tag' = tag;
}.

(** A turn that leaves the registry alone: the registry and the promises
    are the same, no tagged write was added, and the timeouts of the
    requests are the same. *)
Definition calm (c c' : Client) : Prop :=
  wf c ->
  callbacks c' = callbacks c
  /\ promises c' = promises c
  /\ nextPromise c' = nextPromise c
  /\ (forall (i t : nat) (tag : string) (p : nat),
        sends c' !! i = Some (K_binary t tag p) ->
        sends c !! i = Some (K_binary t tag p))
  /\ (forall (id : nat) (x : Timer) (tag : string) (p : nat),
        t_action x = T_responseTimeout tag p ->
        (timers c' !! id = Some x <-> timers c !! id = Some x)).

(** A tag [_generateMessageTag] issued before the counter reached its
    present value. *)
Definition issued (c : Client) (tag : string) : Prop :=
  exists t k : Z, tag = message_tag t k /\ 0 <= k < messageTagCounter c.

(** No request is lost: a pending promise is registered, an armed timeout
    has its callback registered, a write completion knows what is
    registered under its tag, and every tag in use was issued. *)
Record tight (c : Client) : Prop := {
  tg_pending : forall p : nat,
    promises c !! p = Some Pending ->
    exists (tag : string) (t : nat), callbacks c !! tag = Some (t, p);
  tg_timers : forall (id : nat) (x : Timer) (tag : string) (p : nat),
    timers c !! id = Some x -> t_action x = T_responseTimeout tag p ->
    callbacks c !! tag = Some (id, p);
  tg_sends : forall (i timeout : nat) (tag : string) (p : nat),
    sends c !! i = Some (K_binary timeout tag p) ->
    issued c tag
    /\ forall t' p' : nat,
         callbacks c !! tag = Some (t', p') -> t' = timeout /\ p' = p;
  tg_issued : forall (tag : string) (t p : nat),
    callbacks c !! tag = Some (t, p) -> issued c tag;
}.

(** ** Proofs *)

Create HintDb client.
#[local] Hint Unfold
  with_options with_state with_session with_user with_ws with_reconnectCount
  with_qrRetryCount with_reconnectTimer with_qrRefreshTimer
  with_messageTagCounter with_callbacks with_clientId with_keys
  with_pairing_clientId with_pairing_keys with_timers with_nextTimer
  with_promises with_nextPromise with_sends with_nextSend with_wire
  with_emitted with_console with_delegated with_rendering with_now
  with_entropy with_drawn with_curve_makeKeyPair with_ws_ctor_error : client.

#[local] Arguments setTimeout a delay c /.
#[local] Arguments new_promise c /.
#[local] Arguments randomBytes n c /.

(** [fields] computes the fields of a client after field updates and the
    runtime services, without unfolding anything else. *)
Ltac fields :=
  cbn beta iota zeta delta
    [options state session user ws reconnectCount qrRetryCount
     reconnectTimer qrRefreshTimer messageTagCounter callbacks clientId
     keys pairing_clientId pairing_keys timers nextTimer promises
     nextPromise sends nextSend wire emitted console delegated rendering
     now entropy drawn curve_makeKeyPair ws_ctor_error with_options
     with_state with_session with_user with_ws with_reconnectCount
     with_qrRetryCount with_reconnectTimer with_qrRefreshTimer
     with_messageTagCounter with_callbacks with_clientId with_keys
     with_pairing_clientId with_pairing_keys with_timers with_nextTimer
     with_promises with_nextPromise with_sends with_nextSend with_wire
     with_emitted with_console with_delegated with_rendering with_now
     with_entropy with_drawn with_curve_makeKeyPair with_ws_ctor_error
     emit log log_lines setTimeout clearTimeout new_promise settle randomBytes
     ws_send _generateMessageTag ConnectionState_eqb orb andb negb fst snd].

Ltac fields_in H :=
  cbn beta iota zeta delta
    [options state session user ws reconnectCount qrRetryCount
     reconnectTimer qrRefreshTimer messageTagCounter callbacks clientId
     keys pairing_clientId pairing_keys timers nextTimer promises
     nextPromise sends nextSend wire emitted console delegated rendering
     now entropy drawn curve_makeKeyPair ws_ctor_error with_options
     with_state with_session with_user with_ws with_reconnectCount
     with_qrRetryCount with_reconnectTimer with_qrRefreshTimer
     with_messageTagCounter with_callbacks with_clientId with_keys
     with_pairing_clientId with_pairing_keys with_timers with_nextTimer
     with_promises with_nextPromise with_sends with_nextSend with_wire
     with_emitted with_console with_delegated with_rendering with_now
     with_entropy with_drawn with_curve_makeKeyPair with_ws_ctor_error
     emit log log_lines setTimeout clearTimeout new_promise settle randomBytes
     ws_send _generateMessageTag ConnectionState_eqb orb andb negb fst snd] in H.

Ltac head_of t :=
  lazymatch t with
  | ?f _ => head_of f
  | _ => t
  end.

(** [split_match] finds a [match] whose scrutinee contains no other
    [match].  A call of a runtime service that returns a pair is replaced
    by the pair of its components; any other scrutinee is computed and,
    unless that shows its constructor, taken apart. *)
Ltac split_match :=
  match goal with
  | |- context [match ?x with _ => _ end] =>
      lazymatch x with
      | context [match _ with _ => _ end] => fail
      | _ => idtac
      end;
      first
        [ lazymatch x with
          | setTimeout ?a ?d ?c =>
              change x with (nextTimer c, snd (setTimeout a d c))
          | new_promise ?c =>
              change x with (nextPromise c, snd (new_promise c))
          | randomBytes ?n ?c =>
              change x with (fst (randomBytes n c), snd (randomBytes n c))
          | _generateMessageTag ?c =>
              change x with (fst (_generateMessageTag c),
                             snd (_generateMessageTag c))
          end
        | let y := eval cbn beta iota zeta delta
                 [options state session user ws reconnectCount qrRetryCount
                  reconnectTimer qrRefreshTimer messageTagCounter callbacks
                  clientId keys pairing_clientId pairing_keys timers
                  nextTimer promises nextPromise sends nextSend wire emitted
                  console delegated rendering now entropy drawn
                  curve_makeKeyPair ws_ctor_error with_options with_state
                  with_session with_user with_ws with_reconnectCount
                  with_qrRetryCount with_reconnectTimer with_qrRefreshTimer
                  with_messageTagCounter with_callbacks with_clientId
                  with_keys with_pairing_clientId with_pairing_keys
                  with_timers with_nextTimer with_promises with_nextPromise
                  with_sends with_nextSend with_wire with_emitted
                  with_console with_delegated with_rendering with_now
                  with_entropy with_drawn with_curve_makeKeyPair
                  with_ws_ctor_error
                  emit log log_lines setTimeout clearTimeout new_promise
                  settle randomBytes ws_send ConnectionState_eqb orb andb
                  negb fst snd] in x in
          change x with y;
          let h := head_of y in
          tryif is_constructor h then idtac else destruct y eqn:? ];
      lazy beta iota zeta
  end.

(** *** The codec *)

Lemma JSON_parse_nul (s : string) :
  JSON_parse (String (ascii_of_byte x00) s) = None.
Proof.
  unfold JSON_parse.
  replace (2 * String.length (String (ascii_of_byte x00) s) + 2)%nat
    with (S (2 * String.length s + 3))%nat by (cbn [String.length]; lia).
  reflexivity.
Qed.

Lemma processMessage_binary_frame (payload : Buffer) (c : Client) :
  processMessage (Buffer_concat [WA_MAGIC; WA_PREFIX_BINARY; payload]) c
  = (Normal tt, log "Error parsing JSON message:" c).
Proof.
  unfold processMessage. cbn. rewrite JSON_parse_nul. reflexivity.
Qed.

Lemma processMessage_json_frame (payload : Buffer) (c : Client) :
  processMessage (Buffer_concat [WA_MAGIC; WA_PREFIX_INFO; payload]) c
  = (Normal tt, log "Error parsing JSON message:" c).
Proof.
  unfold processMessage. cbn. rewrite JSON_parse_nul. reflexivity.
Qed.

Lemma processMessage_normal (buffer : Buffer) (c : Client) :
  fst (processMessage buffer c) = Normal tt.
Proof.
  unfold processMessage. repeat case_match; reflexivity.
Qed.


Lemma processJsonMessage_registry (m : json) (c : Client) :
  callbacks (snd (_processJsonMessage m c)) = callbacks c
  /\ promises (snd (_processJsonMessage m c)) = promises c.
Proof.
  unfold _processJsonMessage, handleAuthSuccess, handleQRCode, generateKeys.
  repeat split_match; fields; auto.
Qed.

Lemma log_registry (msg : string) (c : Client) :
  callbacks (log msg c) = callbacks c /\ promises (log msg c) = promises c.
Proof. split; reflexivity. Qed.

Lemma processMessage_registry (buffer : Buffer) (c : Client) :
  callbacks (snd (processMessage buffer c)) = callbacks c
  /\ promises (snd (processMessage buffer c)) = promises c.
Proof.
  unfold processMessage.
  destruct (_ || _)%bool; [apply log_registry|].
  cbn zeta.
  destruct (byte_is (Buffer_at buffer 2) WA_PREFIX_INFO_0) eqn:Hkind.
  - destruct (JSON_parse _) as [m|]; [|apply log_registry].
    pose proof (processJsonMessage_registry m (log "Received JSON message:" c))
      as [Hc Hp].
    destruct (_processJsonMessage m _) as [[u|e] c']; cbn in *;
      split; assumption.
  - (* the second test compares with the same byte as the first *)
    change WA_PREFIX_BINARY_0 with WA_PREFIX_INFO_0. rewrite Hkind.
    apply log_registry.
Qed.

(** C2.  A frame with the magic and the tagged-binary descriptor
    [WA_PREFIX_BINARY] is sent down the structured path: [processMessage]
    compares [buffer[2]] with the first byte of each descriptor, and both
    first bytes are 6.  The JSON reader is given the frame from offset 4
    on, fails, and the frame ends in the error handler of the structured
    branch.  No inbound frame at all reaches the tag registry: the
    callbacks and the promises are the same after [processMessage] as
    before. *)
Theorem binary_frame_takes_structured_path (payload : Buffer) (c : Client) :
  processMessage (Buffer_concat [WA_MAGIC; WA_PREFIX_BINARY; payload]) c
  = (Normal tt, log "Error parsing JSON message:" c)
  /\ WA_PREFIX_BINARY_0 = WA_PREFIX_INFO_0
  /\ (forall buffer : Buffer,
        callbacks (snd (processMessage buffer c)) = callbacks c
        /\ promises (snd (processMessage buffer c)) = promises c).
Proof.
  split; [apply processMessage_binary_frame|].
  split; [reflexivity|].
  intros buffer. apply processMessage_registry.
Qed.

(** The reply to the pending request of [busy_client], framed as
    [sendBinary] frames a node, leaves the request pending and
    registered. *)
Example reply_frame_is_not_delivered :
  callbacks busy_client !! "1700000000000.--0" = Some (1%nat, 0%nat)
  /\ promises busy_client !! 0%nat = Some Pending
  /\ processMessage reply_frame busy_client = (Normal tt, busy_client).
Proof. vm_compute. auto. Qed.

(** C5.  The frame [sendJSON] writes for a document [p] (magic, info
    descriptor, serialized document) does not decode to [p]:
    [processMessage] reads the payload from offset 4, two bytes before the
    document starts, so the JSON reader fails on the two zero bytes of the
    descriptor and nothing is dispatched. *)
Theorem sendJSON_frame_is_not_decoded (p : json) (after : JsonAfter)
    (c d : Client) :
  wire (snd (sendJSON p after (with_ws (Some WS_OPEN) c)))
  = (wire c ++ [json_frame p])%list
  /\ Buffer_slice 4 (json_frame p)
     = ([x00; x00] ++ Buffer_from (JSON_stringify p))%list
  /\ JSON_parse (Buffer_toString (Buffer_slice 4 (json_frame p))) = None
  /\ processMessage (json_frame p) d
     = (Normal tt, log "Error parsing JSON message:" d).
Proof.
  split; [reflexivity|].
  split.
  { unfold json_frame, Buffer_concat, Buffer_slice. cbn.
    rewrite app_nil_r. reflexivity. }
  split; [apply JSON_parse_nul|].
  apply processMessage_json_frame.
Qed.

(** With the four-byte header that [processMessage] assumes, the same
    document is read back and dispatched. *)
Example inbound_frame_is_decoded :
  JSON_parse (Buffer_toString (Buffer_slice 4 (inbound_frame msg_connected)))
  = Some msg_connected
  /\ processMessage (json_frame msg_connected) fresh_client
     = (Normal tt, fresh_client)
  /\ processMessage (inbound_frame msg_connected) fresh_client
     = (Normal tt, emit (Ev_connection_success msg_connected) fresh_client).
Proof. vm_compute. auto. Qed.

(** *** The state machine *)

Lemma ConnectionState_eqb_eq (a b : ConnectionState) :
  ConnectionState_eqb a b = true <-> a = b.
Proof. destruct a, b; cbn; split; congruence. Qed.

Lemma no_authenticating_state (s : ConnectionState) :
  ConnectionState_name s <> "AUTHENTICATING".
Proof. destruct s; discriminate. Qed.

(** C1, as stated, fails.  After [connect()] the state is [CONNECTING];
    the message [{status:"connected"}] leaves it there, and after the
    transport opened it leaves the state at [CONNECTED].  No state named
    [AUTHENTICATING] is entered. *)
Lemma connected_status_counterexample :
  state (run fresh_client [I_connect]) = CONNECTING
  /\ state (snd (_processJsonMessage msg_connected
                   (run fresh_client [I_connect]))) = CONNECTING
  /\ state (run fresh_client
              [I_connect; I_open; I_message (inbound_frame msg_connected)])
     = CONNECTED
  /\ ConnectionState_name
       (state (run fresh_client
                 [I_connect; I_open; I_message (inbound_frame msg_connected)]))
     <> "AUTHENTICATING".
Proof. vm_compute. repeat split; discriminate. Qed.

(** C1, amended.  The transport-open step moves the state to [CONNECTED]
    and emits [state_change] (from [CONNECTING] to [CONNECTED]) and
    [connected].  An inbound structured message whose [status] is
    ["connected"] emits [connection_success] with the message and does
    nothing else: the state stays what it was.  The state machine has no
    [AUTHENTICATING] state. *)
Theorem connected_status_keeps_state (rest : list (string * json))
    (c : Client) :
  state (_onWebSocketOpen c) = CONNECTED
  /\ emitted (_onWebSocketOpen c)
     = (emitted c ++ [Ev_state_change CONNECTING CONNECTED; Ev_connected])%list
  /\ _processJsonMessage (JObj (("status", JStr "connected") :: rest)) c
     = (Normal tt,
        emit (Ev_connection_success
                (JObj (("status", JStr "connected") :: rest))) c)
  /\ state (snd (_processJsonMessage
                   (JObj (("status", JStr "connected") :: rest)) c))
     = state c
  /\ (forall s : ConnectionState, ConnectionState_name s <> "AUTHENTICATING").
Proof.
  repeat apply conj.
  - unfold _onWebSocketOpen, sendInitialMessage, sendJSON.
    repeat split_match; fields; reflexivity.
  - unfold _onWebSocketOpen, sendInitialMessage, sendJSON.
    repeat split_match; fields; rewrite <- app_assoc; reflexivity.
  - reflexivity.
  - reflexivity.
  - apply no_authenticating_state.
Qed.

(** C10.  [disconnect()] writes nothing to the socket, issues no tag and
    registers no request, whatever the state it is called in: the state it
    tests for the logout is the [DISCONNECTED] it has just stored. *)
Theorem disconnect_never_sends_logout (c : Client) :
  wire (disconnect c) = wire c
  /\ messageTagCounter (disconnect c) = messageTagCounter c
  /\ callbacks (disconnect c) = callbacks c
  /\ sends (disconnect c) = sends c
  /\ promises (disconnect c) = promises c.
Proof.
  unfold disconnect.
  repeat split_match; fields; auto.
Qed.

(** The logout itself does send, when it runs on an open socket. *)
Lemma sendLogout_sends (c : Client) :
  ws c = Some WS_OPEN ->
  exists frame, wire (sendLogout c) = (wire c ++ [frame])%list.
Proof.
  intros Hopen. unfold sendLogout, sendBinary, ws_not_open, _generateMessageTag.
  fields. rewrite Hopen. fields. eexists. reflexivity.
Qed.

(** *** Malformed input *)

Lemma byte_is_false (a k : byte) : a <> k -> byte_is (Some a) k = false.
Proof.
  intros Hne. cbn. destruct (Byte.eqb a k) eqn:E; [|reflexivity].
  apply Byte.byte_dec_bl in E. contradiction.
Qed.

Lemma processMessage_invalid (buffer : Buffer) (c : Client) :
  (length buffer < 4)%nat \/ take 2 buffer <> WA_MAGIC ->
  processMessage buffer c
  = (Normal tt, log "Received invalid message format" c).
Proof.
  intros Hbad. unfold processMessage.
  destruct (length buffer <? 4)%nat eqn:Hlen; [reflexivity|].
  apply Nat.ltb_ge in Hlen.
  destruct Hbad as [Hshort|Hmagic]; [lia|].
  destruct buffer as [|a [|b rest]]; cbn in Hlen; try lia.
  cbn [take] in Hmagic. unfold Buffer_at, byte_is. cbn [lookup list_lookup].
  destruct (Byte.eqb a WA_MAGIC_0) eqn:Ea; [|reflexivity].
  destruct (Byte.eqb b WA_MAGIC_1) eqn:Eb; [|reflexivity].
  apply Byte.byte_dec_bl in Ea, Eb. subst a b. contradiction.
Qed.

Lemma onWebSocketMessage_normal (data : Buffer) (c : Client) :
  fst (_onWebSocketMessage data c) = Normal tt.
Proof.
  unfold _onWebSocketMessage.
  destruct (processMessage data c) as [[u|e] c']; reflexivity.
Qed.

(** C4, as stated, fails.  On the empty buffer [processMessage] returns
    without a value and leaves the client as it was: no error is returned,
    emitted or recorded.  A five-byte buffer with the magic, shorter than
    the six-byte header that [sendJSON] writes, is not rejected at all: its
    fifth byte is read as a JSON document and dispatched. *)
Lemma malformed_counterexample :
  processMessage [] fresh_client = (Normal tt, fresh_client)
  /\ processMessage [x57; x41; x06; x00; x31] fresh_client
     = (Normal tt, emit (Ev_unknown_message (JNum "1")) fresh_client).
Proof. vm_compute. auto. Qed.

(** C4, amended.  For every buffer shorter than four bytes, or whose first
    two bytes are not the magic, [processMessage] writes the debug line
    [Received invalid message format], does nothing else and returns
    normally without a value.  For every buffer whatsoever,
    [processMessage] and its caller [_onWebSocketMessage] return normally:
    no exception reaches the socket. *)
Theorem malformed_is_logged_and_dropped (buffer : Buffer) (c : Client) :
  (length buffer < 4)%nat \/ take 2 buffer <> WA_MAGIC ->
  processMessage buffer c
  = (Normal tt, log "Received invalid message format" c)
  /\ (forall any : Buffer,
        fst (processMessage any c) = Normal tt
        /\ fst (_onWebSocketMessage any c) = Normal tt).
Proof.
  intros Hbad. split; [apply processMessage_invalid, Hbad|].
  intros any. split;
    [apply processMessage_normal | apply onWebSocketMessage_normal].
Qed.

Lemma malformed_is_logged_and_dropped_witness :
  ((length [x00; x41; x06; x00; x7b; x7d] < 4)%nat
   \/ take 2 [x00; x41; x06; x00; x7b; x7d] <> WA_MAGIC)
  /\ processMessage [x00; x41; x06; x00; x7b; x7d] fresh_client
     = (Normal tt, log "Received invalid message format" fresh_client).
Proof.
  split.
  - right. vm_compute. discriminate.
  - apply (malformed_is_logged_and_dropped
             [x00; x41; x06; x00; x7b; x7d] fresh_client).
    right. vm_compute. discriminate.
Defined.

(** *** Teardown *)

(** C6, as stated, fails.  [busy_client] is authenticated and has one
    tagged request pending; after [disconnect()] the request is still in
    the registry, its promise is still pending, and its timeout timer and
    the settle-delay timer are still armed. *)
Lemma teardown_counterexample :
  state busy_client = AUTHENTICATED
  /\ state (disconnect busy_client) = DISCONNECTED
  /\ callbacks (disconnect busy_client) !! "1700000000000.--0"
     = Some (1%nat, 0%nat)
  /\ promises (disconnect busy_client) !! 0%nat = Some Pending
  /\ timers (disconnect busy_client) !! 1%nat
     = Some {| t_delay := inject_Z 60000;
               t_action := T_responseTimeout "1700000000000.--0" 0 |}
  /\ timers (disconnect busy_client) !! 0%nat
     = Some {| t_delay := settle_delay; t_action := T_ready |}.
Proof. vm_compute. repeat split; reflexivity. Qed.

Lemma response_timeout_rejects (tag : string) (p : nat) (d : Client) :
  callbacks (response_timeout tag p d) !! tag = None
  /\ (promises d !! p = Some Pending ->
      promises (response_timeout tag p d) !! p
      = Some (Rejected "Response timeout")).
Proof.
  unfold response_timeout. fields. split.
  - apply lookup_delete_eq.
  - intros ->. apply lookup_insert_eq.
Qed.

Lemma ready_callback_idle (d : Client) :
  state d <> AUTHENTICATED -> ready_callback d = d.
Proof.
  intros Hne. unfold ready_callback.
  destruct (ConnectionState_eqb (state d) AUTHENTICATED) eqn:E; [|reflexivity].
  apply ConnectionState_eqb_eq in E. contradiction.
Qed.

(** C6, amended.  [disconnect()] in a state other than [DISCONNECTED] sets
    the state to [DISCONNECTED], drops the socket and cancels the reconnect
    timer and the QR expiry timer, and nothing else: the tag-callback
    registry, the promises of the pending requests, their timeout timers
    and the settle-delay timer are as before.  A pending request leaves the
    registry and is rejected when its own timeout fires, and the
    settle-delay callback does nothing once the state is no longer
    [AUTHENTICATED].  When the reconnects are exhausted, [reconnect_failed]
    is emitted and nothing is torn down. *)
Theorem disconnect_leaves_registry (c : Client) :
  state c <> DISCONNECTED ->
  state (disconnect c) = DISCONNECTED
  /\ ws (disconnect c) = None
  /\ reconnectTimer (disconnect c) = None
  /\ qrRefreshTimer (disconnect c) = None
  /\ timers (disconnect c)
     = cancel (qrRefreshTimer c) (cancel (reconnectTimer c) (timers c))
  /\ callbacks (disconnect c) = callbacks c
  /\ promises (disconnect c) = promises c
  /\ (forall (tag : string) (p : nat) (d : Client),
        callbacks (response_timeout tag p d) !! tag = None
        /\ (promises d !! p = Some Pending ->
            promises (response_timeout tag p d) !! p
            = Some (Rejected "Response timeout")))
  /\ (forall d : Client, state d <> AUTHENTICATED -> ready_callback d = d)
  /\ (forall d : Client,
        maxReconnects (options d) <= reconnectCount d ->
        _scheduleReconnect d
        = emit Ev_reconnect_failed
            (log "Maximum reconnect attempts reached" d)).
Proof.
  intros Hstate.
  assert (ConnectionState_eqb (state c) DISCONNECTED = false) as Hne.
  { destruct (ConnectionState_eqb _ _) eqn:E; [|reflexivity].
    apply ConnectionState_eqb_eq in E. contradiction. }
  unfold disconnect. rewrite Hne.
  repeat apply conj.
  1-7: repeat split_match; fields; unfold cancel;
       repeat match goal with H : _ = _ |- _ => rewrite H end; reflexivity.
  - apply response_timeout_rejects.
  - apply ready_callback_idle.
  - intros d Hmax. unfold _scheduleReconnect.
    apply Z.leb_le in Hmax. rewrite Hmax. reflexivity.
Qed.

Lemma disconnect_leaves_registry_witness :
  state busy_client <> DISCONNECTED
  /\ callbacks (disconnect busy_client) = callbacks busy_client
  /\ promises (disconnect busy_client) = promises busy_client.
Proof.
  assert (state busy_client <> DISCONNECTED) as H
    by (vm_compute; discriminate).
  split; [exact H|].
  pose proof (disconnect_leaves_registry busy_client H) as T.
  split; apply T.
Defined.

(** *** Session materialization *)

Lemma fire_ready (id : nat) (t : Timer) (d : Client) :
  timers d !! id = Some t -> t_action t = T_ready ->
  fire id d = ready_callback (with_timers (delete id (timers d)) d).
Proof. intros Ht Ha. unfold fire. rewrite Ht, Ha. reflexivity. Qed.

Lemma ready_callback_ready (d : Client) :
  state d = AUTHENTICATED ->
  state (ready_callback d) = READY
  /\ emitted (ready_callback d)
     = (emitted d ++ [Ev_state_change AUTHENTICATED READY; Ev_ready])%list.
Proof.
  intros Hs. unfold ready_callback. rewrite Hs. fields.
  rewrite <- app_assoc. split; reflexivity.
Qed.

(** C8.  Where [handleAuthSuccess] loses the key material.  The session
    it builds reads [this.keys.encKey] and [this.keys.macKey].  A client
    that holds no keys raises a [TypeError] there and stays as it was,
    whatever the message: no session is built, no event is emitted and
    the state does not change.  That is the client of a restored
    session, for which [connect()] generates no keys: after
    [restoreSession], the opening of the socket and the success message
    of the scenario, the state is still [CONNECTED], the session is the
    restored one, there is no user, and no event and no timer were added.
    With keys held the session is built, and its [encKey] and [macKey]
    are [undefined]: [generateKeys] stores [private] and [public]
    only. *)
Theorem handleAuthSuccess_loses_key_material (data : json) (c : Client) :
  (keys c = None ->
   exists e : string, handleAuthSuccess data c = (Throw e, c))
  /\ (forall s : Session,
        fst (handleAuthSuccess data c) = Normal tt ->
        session (snd (handleAuthSuccess data c)) = Some s ->
        encKey s = None /\ macKey s = None)
  /\ (forall s0 : Session,
        let r := run fresh_client [I_restoreSession s0; I_open] in
        let r' := step (I_message (inbound_frame msg_success)) r in
        keys r = None
        /\ state r = CONNECTED
        /\ state r' = CONNECTED
        /\ session r' = Some s0
        /\ user r' = None
        /\ emitted r' = emitted r
        /\ timers r' = timers r).
Proof.
  repeat apply conj.
  - intros Hk. unfold handleAuthSuccess. rewrite Hk.
    destruct (get_prop data "session"); eexists; reflexivity.
  - intros s. unfold handleAuthSuccess.
    destruct (get_prop data "session") as [x|e]; [|discriminate].
    destruct (keys c) as [k|]; [|discriminate].
    intros _. repeat split_match; fields; intros [= <-]; split; reflexivity.
  - intros s0. vm_compute. repeat apply conj; reflexivity.
Qed.

(** X26.  For a handshake-success message [data] (an object) arriving at a
    client that holds keys, [handleAuthSuccess] stores a session whose
    [serverToken] is [data.session], whose [clientToken] and identity are
    [data.clientToken], [data.wid], [data.pushname] and [data.phone],
    whose client id is the one [generateKeys] drew and whose [encKey] and
    [macKey] are [undefined]; it sets the state to [AUTHENTICATED] and
    emits [state_change] and [authenticated] at once, resets
    [reconnectCount] and [qrRetryCount] to zero, cancels the QR expiry
    timer and arms the settle-delay timer of 1000 ms.  When that timer
    fires the state becomes [READY], with [state_change] and [ready]
    emitted, if the state is [AUTHENTICATED] at that moment, and nothing
    happens otherwise. *)
Theorem handleAuthSuccess_materializes_session
    (props : list (string * json)) (k : Keys) (c : Client) :
  keys c = Some k ->
  let who := {| me_id := props_get "wid" props;
                me_name := props_get "pushname" props;
                me_phone := props_get "phone" props |} in
  let s := {| session_clientId := clientId c;
              serverToken := props_get "session" props;
              clientToken := props_get "clientToken" props;
              encKey := None;
              macKey := None;
              me := who |} in
  let c' := snd (handleAuthSuccess (JObj props) c) in
  fst (handleAuthSuccess (JObj props) c) = Normal tt
  /\ session c' = Some s
  /\ user c' = Some who
  /\ state c' = AUTHENTICATED
  /\ emitted c'
     = (emitted c ++ [Ev_state_change (state c) AUTHENTICATED;
                      Ev_authenticated who s])%list
  /\ reconnectCount c' = 0
  /\ qrRetryCount c' = 0
  /\ qrRefreshTimer c' = None
  /\ timers c'
     = <[nextTimer c := {| t_delay := settle_delay; t_action := T_ready |}]>
         (cancel (qrRefreshTimer c) (timers c))
  /\ Qeq settle_delay (inject_Z 1000)
  /\ (forall (id : nat) (t : Timer) (d : Client),
        timers d !! id = Some t -> t_action t = T_ready ->
        fire id d = ready_callback (with_timers (delete id (timers d)) d))
  /\ (forall d : Client,
        state d = AUTHENTICATED ->
        state (ready_callback d) = READY
        /\ emitted (ready_callback d)
           = (emitted d ++ [Ev_state_change AUTHENTICATED READY; Ev_ready])%list)
  /\ (forall d : Client, state d <> AUTHENTICATED -> ready_callback d = d).
Proof.
  intros Hk who s c'. subst c'.
  unfold handleAuthSuccess. cbn [get_prop]. rewrite Hk.
  repeat apply conj.
  1-9: repeat split_match; fields; unfold cancel;
       repeat match goal with H : _ = _ |- _ => rewrite H end;
       try rewrite <- app_assoc; reflexivity.
  - reflexivity.
  - apply fire_ready.
  - apply ready_callback_ready.
  - apply ready_callback_idle.
Qed.

(** Scenario C through the socket: the success message arrives in a frame,
    and the settle-delay timer fires afterwards. *)
Example success_frame_then_ready :
  state (run fresh_client
           [I_connect; I_open; I_message (inbound_frame msg_success)])
  = AUTHENTICATED
  /\ state (run fresh_client
              [ I_connect; I_open; I_message (inbound_frame msg_success);
                I_fire 0%nat ])
     = READY
  /\ state (run fresh_client
              [ I_connect; I_open; I_message (inbound_frame msg_success);
                I_close 1006 "gone"; I_fire 0%nat ])
     = DISCONNECTED.
Proof. vm_compute. auto. Qed.

Lemma handleAuthSuccess_materializes_session_witness :
  keys (connect fresh_client)
  = Some {| private := map sample_entropy (seq 16 32);
            public := sample_curve (map sample_entropy (seq 16 32)) |}
  /\ (exists s : Session,
        session (snd (handleAuthSuccess msg_success (connect fresh_client)))
        = Some s
        /\ serverToken s = Some (JStr "S1"))
  /\ state (snd (handleAuthSuccess msg_success (connect fresh_client)))
     = AUTHENTICATED.
Proof.
  assert (keys (connect fresh_client)
          = Some {| private := map sample_entropy (seq 16 32);
                    public := sample_curve (map sample_entropy (seq 16 32)) |})
    as Hk by reflexivity.
  split; [exact Hk|].
  pose proof (handleAuthSuccess_materializes_session
                [ ("type", JStr "success"); ("session", JStr "S1");
                  ("clientToken", JStr "C1"); ("wid", JStr "123@s") ]
                _ (connect fresh_client) Hk) as T.
  cbv zeta in T. destruct T as (_ & Hs & _ & Hst & _).
  split; [|exact Hst].
  eexists. split; [exact Hs|reflexivity].
Defined.

(** *** The pairing-code variant *)

Lemma digits_only_all_digits (s : string) :
  all_digits s = true -> digits_only s = s.
Proof.
  induction s as [|a s IH]; cbn; [reflexivity|].
  destruct (is_digit a); cbn; [|discriminate].
  intros H. rewrite (IH H). reflexivity.
Qed.

Lemma includes_at_all_digits (s : string) :
  all_digits s = true -> includes_at s = false.
Proof.
  induction s as [|a s IH]; cbn; [reflexivity|].
  destruct (is_digit a) eqn:Hd; cbn; [|discriminate].
  intros H. destruct (Ascii.eqb a "@") eqn:E; [|exact (IH H)].
  apply Ascii.eqb_eq in E. subst a. discriminate.
Qed.

Lemma formatPhone_digits (phone : string) :
  all_digits phone = true -> formatPhone phone = phone +:+ "@s.whatsapp.net".
Proof.
  intros H. unfold formatPhone.
  rewrite (includes_at_all_digits phone H), (digits_only_all_digits phone H).
  reflexivity.
Qed.

Lemma ensure_pairing_keys_frame (c : Client) :
  wire (ensure_pairing_keys c) = wire c
  /\ emitted (ensure_pairing_keys c) = emitted c
  /\ ws (ensure_pairing_keys c) = ws c
  /\ timers (ensure_pairing_keys c) = timers c
  /\ entropy (ensure_pairing_keys c) = entropy c
  /\ exists k, pairing_keys (ensure_pairing_keys c) = Some k.
Proof.
  unfold ensure_pairing_keys, Pairing_generateKeys.
  repeat split_match; fields; repeat apply conj; eauto.
Qed.

Lemma handlePairingCodeResponse_quiet (data : json) (d : Client) :
  wire (snd (handlePairingCodeResponse data d)) = wire d
  /\ timers (snd (handlePairingCodeResponse data d)) = timers d
  /\ sends (snd (handlePairingCodeResponse data d)) = sends d.
Proof.
  unfold handlePairingCodeResponse.
  repeat split_match; fields; auto.
Qed.

(** C9.  On an open socket one call of [requestPairingCode] writes exactly
    one frame to the wire: the structured request with the formatted phone
    (for a phone made of digits, the phone followed by [@s.whatsapp.net])
    and a reference that is the upper-case hexadecimal text of eight bytes
    drawn from the random source in this call; it emits
    [pairing_code_request] and arms no timer.  The reply
    [{type:"pair_error", reason:"missing"}] makes
    [handlePairingCodeResponse] emit one [pairing_code_error] with reason
    ["missing"].  Neither a reply nor the completion of the write sends
    anything or arms a timer: there is no retry. *)
Theorem requestPairingCode_sends_once (phone : string) (c : Client) :
  ws c = Some WS_OPEN ->
  let c1 := ensure_pairing_keys c in
  let ref := toUpperCase (hex_of_bytes (map (entropy c) (seq (drawn c1) 8))) in
  (exists publicKey : string,
     wire (requestPairingCode phone c)
     = (wire c ++ [json_frame (pairing_request ref publicKey (formatPhone phone))])%list)
  /\ drawn (requestPairingCode phone c) = (drawn c1 + 8)%nat
  /\ emitted (requestPairingCode phone c)
     = (emitted c ++ [Ev_pairing_code_request (formatPhone phone)])%list
  /\ timers (requestPairingCode phone c) = timers c
  /\ (all_digits phone = true ->
      formatPhone phone = phone +:+ "@s.whatsapp.net")
  /\ (forall d : Client,
        handlePairingCodeResponse msg_pair_error d
        = (Normal tt,
           emit (Ev_pairing_code_error (PE_reason (JStr "missing")))
             (log "Error generating pairing code:" d)))
  /\ (forall (data : json) (d : Client),
        wire (snd (handlePairingCodeResponse data d)) = wire d
        /\ timers (snd (handlePairingCodeResponse data d)) = timers d
        /\ sends (snd (handlePairingCodeResponse data d)) = sends d)
  /\ (forall (ph : string) (error : option string) (d : Client),
        wire (requestPairingCode_sent ph error d) = wire d
        /\ timers (requestPairingCode_sent ph error d) = timers d).
Proof.
  intros Hopen c1 ref.
  destruct (ensure_pairing_keys_frame c) as (Hw & He & Hws & Ht & Hent & k & Hk).
  fold c1 in Hw, He, Hws, Ht, Hent, Hk.
  assert (requestPairingCode phone c
          = ws_send
              (json_frame (pairing_request ref (base64_of_bytes (public k))
                             (formatPhone phone)))
              (K_json (After_pairing (formatPhone phone)))
              (emit (Ev_pairing_code_request (formatPhone phone))
                 (with_drawn (drawn c1 + 8)%nat c1))) as Heq.
  { unfold requestPairingCode. fold c1. fields. rewrite Hk.
    unfold sendJSON, ws_not_open. fields. rewrite Hws, Hopen.
    subst ref. rewrite Hent. reflexivity. }
  rewrite Heq. repeat apply conj.
  - eexists. fields. rewrite Hw. reflexivity.
  - reflexivity.
  - fields. rewrite He. reflexivity.
  - fields. exact Ht.
  - apply formatPhone_digits.
  - reflexivity.
  - apply handlePairingCodeResponse_quiet.
  - intros ph error d. unfold requestPairingCode_sent.
    destruct error; split; reflexivity.
Qed.

Lemma requestPairingCode_sends_once_witness :
  ws (socket_becomes WS_OPEN (connect fresh_client)) = Some WS_OPEN
  /\ (exists frame : Buffer,
        wire (requestPairingCode "40712345678"
                (socket_becomes WS_OPEN (connect fresh_client)))
        = [frame])
  /\ formatPhone "40712345678" = "40712345678@s.whatsapp.net".
Proof.
  assert (ws (socket_becomes WS_OPEN (connect fresh_client)) = Some WS_OPEN)
    as Hopen by reflexivity.
  split; [exact Hopen|].
  pose proof (requestPairingCode_sends_once "40712345678"
                (socket_becomes WS_OPEN (connect fresh_client)) Hopen) as T.
  cbv zeta in T. destruct T as ((pk & Hwire) & _ & _ & _ & Hphone & _).
  split.
  - eexists. rewrite Hwire. reflexivity.
  - apply Hphone. reflexivity.
Defined.

(** *** The invariant and the evolution of a client *)

Lemma evolves_refl (keep : Settlement -> Prop) (c : Client) : evolves keep c c.
Proof.
  unfold evolves. repeat apply conj; auto; try lia.
Qed.

Lemma evolves_trans (keep : Settlement -> Prop) (c1 c2 c3 : Client) :
  evolves keep c1 c2 -> evolves keep c2 c3 -> evolves keep c1 c3.
Proof.
  intros (Ho & Hm & Hw & Hp & Ht) (Ho' & Hm' & Hw' & Hp' & Ht').
  unfold evolves. repeat apply conj.
  - congruence.
  - lia.
  - auto.
  - intros p s Hwf Hs Hk. apply Hp'; auto.
  - intros Hbound tag Htag.
    destruct (Ht' Hbound tag Htag) as [Hold|(t & k & -> & Hk)].
    + destruct (Ht ltac:(lia) tag Hold) as [Hold'|(t & k & -> & Hk)];
        [left; assumption|].
      right. exists t, k. split; [reflexivity|lia].
    + right. exists t, k. split; [reflexivity|lia].
Qed.

Lemma quiet_steady (c c' : Client) : quiet c c' -> steady c c'.
Proof.
  intros (Ho & Hm & Hw & Hp & Ht).
  unfold steady, evolves. repeat apply conj; auto.
Qed.

Lemma wf_tracked (c c' : Client) : tracked c' = tracked c -> wf c -> wf c'.
Proof.
  unfold tracked. intros Heq [Ht Hr Hq Hc Hs Hp Hn Hk Hrc].
  injection Heq as Ho Hrc' Hk' Hc' Ht' Hn' Hp' Hnp' Hs' Hr' Hq'.
  constructor; unfold cap in *;
    rewrite ?Ho, ?Hrc', ?Hk', ?Hc', ?Ht', ?Hn', ?Hp', ?Hnp', ?Hs', ?Hr', ?Hq';
    assumption.
Qed.

Lemma quiet_tracked (c c' : Client) : tracked c' = tracked c -> quiet c c'.
Proof.
  intros Heq. pose proof (wf_tracked c c' Heq) as Hwf.
  unfold tracked in Heq.
  injection Heq as Ho Hrc' Hk' Hc' Ht' Hn' Hp' Hnp' Hs' Hr' Hq'.
  unfold quiet, evolves. repeat apply conj.
  - assumption.
  - lia.
  - assumption.
  - intros p s _ Hs _. rewrite Hp'. assumption.
  - intros _ tag Htag. left. rewrite <- Hc'. assumption.
Qed.

(** A turn that keeps the options, the tag counter, the registry and the
    promises is quiet as soon as it keeps the invariant. *)
Lemma quiet_intro (c c' : Client) :
  options c' = options c ->
  messageTagCounter c' = messageTagCounter c ->
  callbacks c' = callbacks c ->
  promises c' = promises c ->
  (wf c -> wf c') ->
  quiet c c'.
Proof.
  intros Ho Hk Hc Hp Hwf. unfold quiet, evolves. repeat apply conj.
  - assumption.
  - lia.
  - assumption.
  - intros p s _ Hs _. rewrite Hp. assumption.
  - intros _ tag Htag. left. rewrite <- Hc. assumption.
Qed.

Lemma wf_arm (a : TimerAction) (d : Q) (c : Client) :
  wf c -> wf (snd (setTimeout a d c)).
Proof.
  intros [Ht Hr Hq Hc Hs Hp Hn Hk Hrc]. constructor; fields; try assumption.
  - intros id t Hl. destruct (decide (nextTimer c = id)) as [<-|Hne]; [lia|].
    rewrite lookup_insert_ne in Hl by assumption. apply Ht in Hl. lia.
  - intros r Hrr. destruct (Hr r Hrr) as [Hlt Hact]. split; [lia|].
    intros t Hl. rewrite lookup_insert_ne in Hl by lia. auto.
  - intros r Hrr. destruct (Hq r Hrr) as [Hlt Hact]. split; [lia|].
    intros t Hl. rewrite lookup_insert_ne in Hl by lia. auto.
  - intros tag timeout p Hl. destruct (Hc tag timeout p Hl) as [Hlt Hact].
    split; [lia|]. intros t Hl'. rewrite lookup_insert_ne in Hl' by lia. auto.
  - intros id timeout tag p Hl. destruct (Hs id timeout tag p Hl) as [Hlt Hact].
    split; [lia|]. intros t Hl'. rewrite lookup_insert_ne in Hl' by lia. auto.
  - intros p Hl. destruct (Hp p Hl) as (id & d' & tag & Hid).
    exists id, d', tag. rewrite lookup_insert_ne; [assumption|].
    apply Ht in Hid. lia.
Qed.

Lemma wf_clear (id : nat) (c : Client) :
  wf c ->
  (forall (t : Timer) (tag : string) (p : nat),
     timers c !! id = Some t -> t_action t = T_responseTimeout tag p ->
     promises c !! p <> Some Pending) ->
  wf (clearTimeout id c).
Proof.
  intros [Ht Hr Hq Hc Hs Hp Hn Hk Hrc] Hfree. constructor; fields;
    try assumption.
  - intros id' t Hl. apply lookup_delete_Some in Hl as [_ Hl]. eauto.
  - intros r Hrr. destruct (Hr r Hrr) as [Hlt Hact]. split; [lia|].
    intros t Hl. apply lookup_delete_Some in Hl as [_ Hl]. auto.
  - intros r Hrr. destruct (Hq r Hrr) as [Hlt Hact]. split; [lia|].
    intros t Hl. apply lookup_delete_Some in Hl as [_ Hl]. auto.
  - intros tag timeout p Hl. destruct (Hc tag timeout p Hl) as [Hlt Hact].
    split; [lia|]. intros t Hl'. apply lookup_delete_Some in Hl' as [_ Hl'].
    auto.
  - intros i timeout tag p Hl. destruct (Hs i timeout tag p Hl) as [Hlt Hact].
    split; [lia|]. intros t Hl'. apply lookup_delete_Some in Hl' as [_ Hl'].
    auto.
  - intros p Hl. destruct (Hp p Hl) as (id' & d' & tag & Hid).
    exists id', d', tag. rewrite lookup_delete_ne; [assumption|].
    intros ->. exact (Hfree _ tag p Hid eq_refl Hl).
Qed.

Lemma wf_settle (p : nat) (r : Settlement) (c : Client) :
  r <> Pending -> wf c -> wf (settle p r c).
Proof.
  intros Hr' [Ht Hr Hq Hc Hs Hp Hn Hk Hrc]. constructor; fields;
    try assumption.
  - intros q Hl. apply Hp.
    destruct (promises c !! p) as [[| |]|] eqn:E; try assumption.
    destruct (decide (p = q)) as [->|Hne].
    + rewrite lookup_insert_eq in Hl. congruence.
    + rewrite lookup_insert_ne in Hl by assumption. assumption.
  - intros q s Hl.
    destruct (promises c !! p) as [[| |]|] eqn:E; eauto.
    destruct (decide (p = q)) as [->|Hne]; [eauto|].
    rewrite lookup_insert_ne in Hl by assumption. eauto.
Qed.

Lemma wf_unregister (tag : string) (c : Client) :
  wf c -> wf (with_callbacks (delete tag (callbacks c)) c).
Proof.
  intros [Ht Hr Hq Hc Hs Hp Hn Hk Hrc]. constructor; fields; try assumption.
  intros tag' timeout p Hl. apply lookup_delete_Some in Hl as [_ Hl]. auto.
Qed.

Lemma wf_sent (id : nat) (c : Client) :
  wf c -> wf (with_sends (delete id (sends c)) c).
Proof.
  intros [Ht Hr Hq Hc Hs Hp Hn Hk Hrc]. constructor; fields; try assumption.
  intros i timeout tag p Hl. apply lookup_delete_Some in Hl as [_ Hl]. eauto.
Qed.

Lemma wf_send_json (buffer : Buffer) (after : JsonAfter) (c : Client) :
  wf c -> wf (ws_send buffer (K_json after) c).
Proof.
  intros [Ht Hr Hq Hc Hs Hp Hn Hk Hrc]. constructor; fields; try assumption.
  intros i timeout tag p Hl.
  destruct (decide (nextSend c = i)) as [<-|Hne].
  - rewrite lookup_insert_eq in Hl. discriminate.
  - rewrite lookup_insert_ne in Hl by assumption. eauto.
Qed.

Lemma wf_same (c c' : Client) : wf c -> tracked c' = tracked c -> wf c'.
Proof. intros Hwf Heq. exact (wf_tracked c c' Heq Hwf). Qed.

Lemma wf_clear_reconnect (t : nat) (c : Client) :
  wf c -> reconnectTimer c = Some t -> wf (clearTimeout t c).
Proof.
  intros Hwf Hr. apply wf_clear; [assumption|].
  intros tm tag p Hl Ha.
  destruct (wf_reconnect c Hwf t Hr) as [_ Hact].
  rewrite (Hact tm Hl) in Ha. discriminate.
Qed.

Lemma wf_clear_qr (t : nat) (c : Client) :
  wf c -> qrRefreshTimer c = Some t -> wf (clearTimeout t c).
Proof.
  intros Hwf Hr. apply wf_clear; [assumption|].
  intros tm tag p Hl Ha.
  destruct (wf_qr c Hwf t Hr) as [_ Hact].
  rewrite (Hact tm Hl) in Ha. discriminate.
Qed.

Lemma wf_forget_reconnect (c : Client) :
  wf c -> wf (with_reconnectTimer None c).
Proof.
  intros [Ht Hr Hq Hc Hs Hp Hn Hk Hrc]. constructor; fields; try assumption.
  discriminate.
Qed.

Lemma wf_forget_qr (c : Client) : wf c -> wf (with_qrRefreshTimer None c).
Proof.
  intros [Ht Hr Hq Hc Hs Hp Hn Hk Hrc]. constructor; fields; try assumption.
  discriminate.
Qed.

Lemma wf_rearm_reconnect (d : Q) (c : Client) :
  wf c ->
  wf (with_reconnectTimer (Some (nextTimer c)) (snd (setTimeout T_reconnect d c))).
Proof.
  intros Hwf. destruct (wf_arm T_reconnect d c Hwf) as [Ht Hr Hq Hc Hs Hp Hn Hk Hrc].
  constructor; fields; try assumption.
  intros r [= <-]. split; [lia|].
  intros t Hl. rewrite lookup_insert_eq in Hl. injection Hl as <-. reflexivity.
Qed.

Lemma wf_rearm_qr (d : Q) (c : Client) :
  wf c ->
  wf (with_qrRefreshTimer (Some (nextTimer c)) (snd (setTimeout T_qrExpiry d c))).
Proof.
  intros Hwf. destruct (wf_arm T_qrExpiry d c Hwf) as [Ht Hr Hq Hc Hs Hp Hn Hk Hrc].
  constructor; fields; try assumption.
  intros r [= <-]. split; [lia|].
  intros t Hl. rewrite lookup_insert_eq in Hl. injection Hl as <-. reflexivity.
Qed.

Lemma wf_count_set (n : Z) (c : Client) :
  wf c -> 0 <= n <= cap c -> wf (with_reconnectCount n c).
Proof.
  intros [Ht Hr Hq Hc Hs Hp Hn Hk Hrc] Hn'. constructor; fields;
    assumption.
Qed.

Lemma js_incr_le (n : Z) : n <= js_incr n.
Proof. unfold js_incr. destruct (n <? 2 ^ 53); lia. Qed.

Lemma js_incr_small (n : Z) : js_incr n < 2 ^ 53 -> js_incr n = n + 1.
Proof.
  unfold js_incr. destruct (n <? 2 ^ 53) eqn:E; [reflexivity|].
  apply Z.ltb_ge in E. lia.
Qed.

Lemma wf_tag (c : Client) : wf c -> wf (snd (_generateMessageTag c)).
Proof.
  intros [Ht Hr Hq Hc Hs Hp Hn Hk Hrc]. constructor; fields; try assumption.
  pose proof (js_incr_le (messageTagCounter c)). lia.
Qed.

(** [same] proves that a client after operations that touch no field of
    the invariant evolved quietly. *)
Ltac same :=
  apply quiet_tracked; unfold tracked;
  unfold _onWebSocketError, ready_callback, handleQRCode,
    requestPairingCode_sent, handlePairingCodeResponse,
    ensure_pairing_keys, Pairing_generateKeys, generateKeys,
    _processNotification, socket_becomes;
  repeat split_match; reflexivity.

Lemma scheduleReconnect_quiet (c : Client) : quiet c (_scheduleReconnect c).
Proof.
  unfold _scheduleReconnect.
  destruct (maxReconnects (options c) <=? reconnectCount c) eqn:Hmax; [same|].
  apply Z.leb_gt in Hmax.
  repeat split_match.
  - apply quiet_intro; try reflexivity. intros Hwf.
    apply (wf_rearm_reconnect _ (clearTimeout _ _)).
    apply wf_clear_reconnect; [|assumption].
    apply (wf_same (with_reconnectCount (reconnectCount c + 1) c));
      [|reflexivity].
    apply wf_count_set; [assumption|].
    pose proof (wf_count c Hwf). unfold cap in *. lia.
  - apply quiet_intro; try reflexivity. intros Hwf.
    apply (wf_rearm_reconnect _ (log _ _)).
    apply (wf_same (with_reconnectCount (reconnectCount c + 1) c));
      [|reflexivity].
    apply wf_count_set; [assumption|].
    pose proof (wf_count c Hwf). unfold cap in *. lia.
Qed.

(** [wf_chain] proves the invariant of a client after a chain of
    operations, one operation at a time, from the invariant before. *)
Ltac wf_layer :=
  match goal with
  | H : wf ?c |- wf ?c => exact H
  | |- wf (with_reconnectTimer (Some _) (snd (setTimeout T_reconnect ?d ?x))) =>
      apply (wf_rearm_reconnect d x)
  | |- wf (with_qrRefreshTimer (Some _) (snd (setTimeout T_qrExpiry ?d ?x))) =>
      apply (wf_rearm_qr d x)
  | |- wf (snd (setTimeout _ _ _)) => apply wf_arm
  | |- wf (snd (_generateMessageTag _)) => apply wf_tag
  | |- wf (with_qrRefreshTimer None _) => apply wf_forget_qr
  | |- wf (with_reconnectTimer None _) => apply wf_forget_reconnect
  | |- wf (clearTimeout _ _) =>
      first [ apply wf_clear_reconnect; [|eassumption]
            | apply wf_clear_qr; [|eassumption] ]
  | |- wf (with_reconnectCount _ _) => apply wf_count_set
  | |- wf (ws_send _ (K_json _) _) => apply wf_send_json
  | |- wf (with_callbacks (delete _ _) _) => apply wf_unregister
  | |- wf (with_sends (delete _ _) _) => apply wf_sent
  | |- wf (?f ?x) => apply (wf_same x); [|reflexivity]
  end.

Ltac wf_chain :=
  repeat wf_layer; try assumption; try (unfold cap in *; fields; lia).

Lemma handleAuthSuccess_quiet (data : json) (c : Client) :
  quiet c (snd (handleAuthSuccess data c)).
Proof.
  unfold handleAuthSuccess.
  destruct (get_prop data "session") as [tok|e]; [|apply evolves_refl].
  destruct (keys c) as [k|] eqn:Hk; [|apply evolves_refl].
  repeat split_match; cbn [snd];
    (apply quiet_intro; try reflexivity; intros Hwf); wf_chain.
Qed.

Lemma handleQRCode_rendered_quiet (err : option string) (c : Client) :
  quiet c (handleQRCode_rendered err c).
Proof.
  unfold handleQRCode_rendered.
  destruct (rendering c) as [|ref rest]; [apply evolves_refl|].
  destruct err as [e|]; [same|].
  repeat split_match;
    (apply quiet_intro; try reflexivity; intros Hwf); wf_chain.
Qed.

Lemma disconnect_quiet (c : Client) : quiet c (disconnect c).
Proof.
  unfold disconnect.
  repeat split_match; try apply evolves_refl;
    (apply quiet_intro; try reflexivity; intros Hwf); wf_chain.
Qed.

Lemma connect_quiet (c : Client) : quiet c (connect c).
Proof.
  unfold connect.
  repeat split_match; try same.
  all: (eapply evolves_trans; [|apply scheduleReconnect_quiet]); same.
Qed.

Lemma onWebSocketClose_quiet (code : Z) (reason : string) (c : Client) :
  quiet c (_onWebSocketClose code reason c).
Proof.
  unfold _onWebSocketClose.
  repeat split_match; try same.
  all: (eapply evolves_trans; [|apply scheduleReconnect_quiet]); same.
Qed.

Lemma reconnect_callback_quiet (c : Client) : quiet c (reconnect_callback c).
Proof.
  unfold reconnect_callback.
  eapply evolves_trans; [|apply connect_quiet]. same.
Qed.

Lemma qr_expiry_callback_quiet (c : Client) : quiet c (qr_expiry_callback c).
Proof.
  unfold qr_expiry_callback.
  repeat split_match; try same.
  all: (eapply evolves_trans; [|apply disconnect_quiet]); same.
Qed.

Lemma processJsonMessage_quiet (m : json) (c : Client) :
  quiet c (snd (_processJsonMessage m c)).
Proof.
  unfold _processJsonMessage.
  repeat split_match; cbn [snd]; try same.
  all: (eapply evolves_trans; [|apply handleAuthSuccess_quiet]); same.
Qed.

(** The registration [sendBinary] makes for a tag: a fresh promise, its
    timeout timer, the callback and the pending write. *)
Lemma wf_register (tag : string) (d : Q) (buffer : Buffer) (c : Client) :
  wf c ->
  wf (ws_send buffer (K_binary (nextTimer c) tag (nextPromise c))
        (with_callbacks
           (<[tag := (nextTimer c, nextPromise c)]> (callbacks c))
           (snd (setTimeout (T_responseTimeout tag (nextPromise c)) d
                   (snd (new_promise c)))))).
Proof.
  intros [Ht Hr Hq Hc Hs Hp Hn Hk Hrc]. constructor; fields; try assumption.
  - intros id t Hl. destruct (decide (nextTimer c = id)) as [<-|Hne]; [lia|].
    rewrite lookup_insert_ne in Hl by assumption. apply Ht in Hl. lia.
  - intros r Hrr. destruct (Hr r Hrr) as [Hlt Hact]. split; [lia|].
    intros t Hl. rewrite lookup_insert_ne in Hl by lia. auto.
  - intros r Hrr. destruct (Hq r Hrr) as [Hlt Hact]. split; [lia|].
    intros t Hl. rewrite lookup_insert_ne in Hl by lia. auto.
  - intros tag' timeout p Hl.
    destruct (decide (tag = tag')) as [<-|Hne].
    + rewrite lookup_insert_eq in Hl. injection Hl as <- <-. split; [lia|].
      intros t Hl. rewrite lookup_insert_eq in Hl. injection Hl as <-.
      reflexivity.
    + rewrite lookup_insert_ne in Hl by assumption.
      destruct (Hc tag' timeout p Hl) as [Hlt Hact]. split; [lia|].
      intros t Hl'. rewrite lookup_insert_ne in Hl' by lia. auto.
  - intros id timeout tag' p Hl.
    destruct (decide (nextSend c = id)) as [<-|Hne].
    + rewrite lookup_insert_eq in Hl. injection Hl as <- <- <-. split; [lia|].
      intros t Hl. rewrite lookup_insert_eq in Hl. injection Hl as <-.
      reflexivity.
    + rewrite lookup_insert_ne in Hl by assumption.
      destruct (Hs id timeout tag' p Hl) as [Hlt Hact]. split; [lia|].
      intros t Hl'. rewrite lookup_insert_ne in Hl' by lia. auto.
  - intros p Hl. destruct (decide (nextPromise c = p)) as [<-|Hne].
    + exists (nextTimer c), d, tag. apply lookup_insert_eq.
    + rewrite lookup_insert_ne in Hl by assumption.
      destruct (Hp p Hl) as (id & d' & tag' & Hid).
      exists id, d', tag'. rewrite lookup_insert_ne; [assumption|].
      apply Ht in Hid. lia.
  - intros p s Hl. destruct (decide (nextPromise c = p)) as [<-|Hne]; [lia|].
    rewrite lookup_insert_ne in Hl by assumption. apply Hn in Hl. lia.
Qed.

Lemma generateMessageTag_quiet (c : Client) :
  quiet c (snd (_generateMessageTag c)).
Proof.
  unfold quiet, evolves. repeat apply conj; try reflexivity.
  - fields. apply js_incr_le.
  - apply wf_tag.
  - intros p s _ Hl _. exact Hl.
  - intros _ tag Htag. left. exact Htag.
Qed.

Lemma sendBinary_quiet (node : json) (timeout : option Z) (c : Client) :
  quiet c (snd (sendBinary node None timeout c)).
Proof.
  unfold sendBinary.
  destruct (ws_not_open c); [apply evolves_refl|].
  repeat split_match; cbn [snd];
    try exact (generateMessageTag_quiet c).
  all: unfold quiet, evolves; repeat apply conj.
  all: try reflexivity.
  all: try (fields; apply js_incr_le).
  all: try (intros Hwf; apply (wf_register _ _ _ (snd (_generateMessageTag c)));
            apply wf_tag; assumption).
  all: try (intros p s Hwf Hl _; fields;
            rewrite lookup_insert_ne; [assumption|];
            apply (wf_promises c Hwf) in Hl; lia).
  all: fields; intros Hbound tag [v Hl];
    (destruct (decide (message_tag (now c) (messageTagCounter c) = tag))
        as [<-|Hne];
     [ right; exists (now c), (messageTagCounter c);
       split; [reflexivity|];
       rewrite (js_incr_small _ Hbound); lia
     | left; rewrite lookup_insert_ne in Hl by assumption; eauto ]).
Qed.

Lemma sendLogout_quiet (c : Client) : quiet c (sendLogout c).
Proof.
  unfold sendLogout. split_match.
  pose proof (sendBinary_quiet
                (JObj [ ("id", JStr (fst (_generateMessageTag c)));
                        ("type", JStr "action");
                        ("data", JObj [ ("type", JStr "set");
                                        ("xmlns", JStr "status");
                                        ("status", JStr "logout") ]) ])
                (Some 5000) (snd (_generateMessageTag c))) as Hsend.
  destruct (sendBinary _ None (Some 5000) _) as [[p|e] c'] eqn:E; cbn in Hsend.
  - eapply evolves_trans; [apply generateMessageTag_quiet|exact Hsend].
  - eapply evolves_trans; [apply generateMessageTag_quiet|].
    eapply evolves_trans; [exact Hsend|]. same.
Qed.

Lemma processMessage_quiet (buffer : Buffer) (c : Client) :
  quiet c (snd (processMessage buffer c)).
Proof.
  unfold processMessage.
  destruct (_ || _)%bool; [cbn [snd]; same|].
  cbn zeta.
  destruct (byte_is (Buffer_at buffer 2) WA_PREFIX_INFO_0) eqn:Hkind.
  - destruct (JSON_parse _) as [m|]; [|cbn [snd]; same].
    pose proof (processJsonMessage_quiet m (log "Received JSON message:" c))
      as Hm.
    destruct (_processJsonMessage m _) as [[u|e] c']; cbn [snd] in *.
    + eapply evolves_trans; [|exact Hm]. same.
    + eapply evolves_trans; [|eapply evolves_trans; [exact Hm|]]; same.
  - change WA_PREFIX_BINARY_0 with WA_PREFIX_INFO_0. rewrite Hkind.
    cbn [snd]. same.
Qed.

Lemma onWebSocketMessage_quiet (data : Buffer) (c : Client) :
  quiet c (snd (_onWebSocketMessage data c)).
Proof.
  unfold _onWebSocketMessage.
  pose proof (processMessage_quiet data c) as Hm.
  destruct (processMessage data c) as [[u|e] c']; cbn [snd] in *.
  - exact Hm.
  - eapply evolves_trans; [exact Hm|]. same.
Qed.

(** Settling a promise together with the cancellation of its timeout timer
    and the removal of its callback. *)
Lemma wf_timeout_settle (id : nat) (tag : string) (p : nat) (r : Settlement)
    (c : Client) :
  r <> Pending ->
  (forall t : Timer,
     timers c !! id = Some t -> t_action t = T_responseTimeout tag p) ->
  wf c -> wf (settle p r (clearTimeout id c)).
Proof.
  intros Hr' Hact [Ht Hr Hq Hc Hs Hp Hn Hk Hrc]. constructor; fields;
    try assumption.
  - intros id' t Hl. apply lookup_delete_Some in Hl as [_ Hl]. eauto.
  - intros x Hx. destruct (Hr x Hx) as [Hlt Ha]. split; [lia|].
    intros t Hl. apply lookup_delete_Some in Hl as [_ Hl]. auto.
  - intros x Hx. destruct (Hq x Hx) as [Hlt Ha]. split; [lia|].
    intros t Hl. apply lookup_delete_Some in Hl as [_ Hl]. auto.
  - intros tag' timeout q Hl. destruct (Hc tag' timeout q Hl) as [Hlt Ha].
    split; [lia|]. intros t Hl'. apply lookup_delete_Some in Hl' as [_ Hl'].
    auto.
  - intros i timeout tag' q Hl. destruct (Hs i timeout tag' q Hl) as [Hlt Ha].
    split; [lia|]. intros t Hl'. apply lookup_delete_Some in Hl' as [_ Hl'].
    auto.
  - intros q Hl.
    assert (promises c !! q = Some Pending /\ q <> p) as [Hq' Hne].
    { destruct (promises c !! p) as [[| |]|] eqn:E;
        try (split; [assumption|intros ->; congruence]).
      destruct (decide (p = q)) as [->|Hne].
      - rewrite lookup_insert_eq in Hl. congruence.
      - rewrite lookup_insert_ne in Hl by assumption. auto. }
    destruct (Hp q Hq') as (id' & d' & tag' & Hid).
    exists id', d', tag'. rewrite lookup_delete_ne; [assumption|].
    intros ->. apply Hact in Hid. cbn in Hid. congruence.
  - intros q s Hl.
    destruct (promises c !! p) as [[| |]|] eqn:E; eauto.
    destruct (decide (p = q)) as [->|Hne]; [eauto|].
    rewrite lookup_insert_ne in Hl by assumption. eauto.
Qed.

Lemma settle_steady (id : nat) (tag : string) (p : nat) (r : Settlement)
    (c : Client) :
  r <> Pending ->
  (wf c ->
   forall t : Timer,
     timers c !! id = Some t -> t_action t = T_responseTimeout tag p) ->
  steady c (with_callbacks (delete tag (callbacks c))
              (settle p r (clearTimeout id c))).
Proof.
  intros Hr Hact. unfold steady, evolves. repeat apply conj.
  - reflexivity.
  - reflexivity.
  - intros Hwf. apply (wf_unregister tag (settle p r (clearTimeout id c))).
    apply wf_timeout_settle with (tag := tag); auto.
  - intros q s _ Hl Hs. fields.
    destruct (promises c !! p) as [[| |]|] eqn:E; try assumption.
    rewrite lookup_insert_ne; [assumption|]. intros ->. congruence.
  - intros _ tag' [v Hl]. left. fields_in Hl.
    apply lookup_delete_Some in Hl as [_ Hl]. eauto.
Qed.

Lemma delete_timer_quiet (id : nat) (t : Timer) (c : Client) :
  timers c !! id = Some t ->
  (forall (tag : string) (p : nat), t_action t <> T_responseTimeout tag p) ->
  quiet c (with_timers (delete id (timers c)) c).
Proof.
  intros Hl Hact. apply quiet_intro; try reflexivity.
  intros Hwf. apply (wf_clear id c Hwf).
  intros t' tag p Hl' Ha. rewrite Hl in Hl'. injection Hl' as <-.
  exfalso. exact (Hact tag p Ha).
Qed.

Lemma fire_steady (id : nat) (c : Client) : steady c (fire id c).
Proof.
  unfold fire. destruct (timers c !! id) as [t|] eqn:Hl; [|apply evolves_refl].
  cbn zeta.
  destruct (t_action t) as [| | |tag p] eqn:Ha.
  - apply quiet_steady.
    eapply evolves_trans; [|apply reconnect_callback_quiet].
    apply (delete_timer_quiet id t c Hl). intros tag p. congruence.
  - apply quiet_steady.
    eapply evolves_trans; [|apply qr_expiry_callback_quiet].
    apply (delete_timer_quiet id t c Hl). intros tag p. congruence.
  - apply quiet_steady.
    eapply evolves_trans; [apply (delete_timer_quiet id t c Hl)|same].
    intros tag p. congruence.
  - exact (settle_steady id tag p (Rejected "Response timeout") c
             ltac:(discriminate)
             ltac:(intros _ t' Hl'; rewrite Hl in Hl'; injection Hl' as <-;
                   exact Ha)).
Qed.

Lemma sent_steady (id : nat) (error : option string) (c : Client) :
  steady c (sent id error c).
Proof.
  unfold sent. destruct (sends c !! id) as [k|] eqn:Hl; [|apply evolves_refl].
  cbn zeta.
  assert (forall d : Client, quiet d (with_sends (delete id (sends d)) d))
    as Hdel.
  { intros d. apply quiet_intro; try reflexivity. apply wf_sent. }
  destruct k as [[|phone]|timeout tag p].
  - apply quiet_steady, Hdel.
  - apply quiet_steady. eapply evolves_trans; [apply Hdel|]. same.
  - unfold binary_send_done. destruct error as [e|];
      [|apply quiet_steady, Hdel].
    (* the callback is settled first and the write forgotten last: the two
       updates are of different fields *)
    apply (evolves_trans _ c
             (with_callbacks (delete tag (callbacks c))
                (settle p (Rejected e) (clearTimeout timeout c)))).
    + apply settle_steady; [discriminate|].
      intros Hwf. exact (proj2 (wf_sends c Hwf id timeout tag p Hl)).
    + apply quiet_steady.
      exact (Hdel (with_callbacks (delete tag (callbacks c))
                     (settle p (Rejected e) (clearTimeout timeout c)))).
Qed.

Lemma deliver_steady (m : json) (tag : option json) (c : Client) :
  steady c (deliver m tag c).
Proof.
  unfold deliver.
  destruct tag as [[| | |t| |]|]; try apply evolves_refl.
  destruct (callbacks c !! t) as [[timeout p]|] eqn:Hl; [|apply evolves_refl].
  unfold reply_callback.
  apply (settle_steady timeout t p (Resolved m) c); [discriminate|].
  intros Hwf. exact (proj2 (wf_callbacks c Hwf t timeout p Hl)).
Qed.

(** What [_processBinaryMessage] does after the registry part touches no
    field of the invariant and raises nothing. *)
Lemma processBinaryMessage_tail (m : json) (tag : option json) (c : Client) :
  get_prop m "tag" = Normal tag -> truthy tag = true ->
  fst (_processBinaryMessage (D_json m) c) = Normal tt
  /\ tracked (snd (_processBinaryMessage (D_json m) c))
     = tracked (deliver m tag c)
  /\ callbacks (snd (_processBinaryMessage (D_json m) c))
     = callbacks (deliver m tag c)
  /\ promises (snd (_processBinaryMessage (D_json m) c))
     = promises (deliver m tag c)
  /\ timers (snd (_processBinaryMessage (D_json m) c))
     = timers (deliver m tag c).
Proof.
  intros Htag Htruthy. unfold _processBinaryMessage.
  rewrite Htag, Htruthy. cbn [negb]. cbn zeta.
  generalize (deliver m tag c). intros c'.
  destruct (get_prop m "data") as [[d|]|e];
    try (repeat apply conj; reflexivity).
  destruct d as [|[|]|n|str|items|props]; cbn [truthy get_prop];
    try (repeat apply conj; reflexivity).
  - destruct (negb (lexeme_is_zero n)); repeat apply conj; reflexivity.
  - destruct str; repeat apply conj; reflexivity.
  - unfold _processNotification.
    repeat split_match; cbn [fst snd]; repeat apply conj; reflexivity.
Qed.

Lemma processBinaryMessage_steady (message : Decoded) (c : Client) :
  steady c (snd (_processBinaryMessage message c)).
Proof.
  destruct message as [m|raw];
    [|apply quiet_steady; unfold _processBinaryMessage; cbn [snd]; same].
  destruct (get_prop m "tag") as [tag|e] eqn:Htag;
    [|unfold _processBinaryMessage; rewrite Htag; apply evolves_refl].
  destruct (truthy tag) eqn:Htruthy.
  - destruct (processBinaryMessage_tail m tag c Htag Htruthy)
      as (_ & Htail & _).
    eapply evolves_trans; [apply deliver_steady|].
    apply quiet_steady, quiet_tracked, Htail.
  - unfold _processBinaryMessage. rewrite Htag, Htruthy.
    apply quiet_steady. cbn [negb snd]. same.
Qed.

Lemma sendJSON_quiet (data : json) (after : JsonAfter) (c : Client) :
  quiet c (snd (sendJSON data after c)).
Proof.
  unfold sendJSON. destruct (ws_not_open c); [apply evolves_refl|].
  cbn [snd]. apply quiet_intro; try reflexivity. apply wf_send_json.
Qed.

Lemma onWebSocketOpen_quiet (c : Client) : quiet c (_onWebSocketOpen c).
Proof.
  unfold _onWebSocketOpen, sendInitialMessage.
  eapply evolves_trans; [|apply sendJSON_quiet]. same.
Qed.

Lemma requestPairingCode_quiet (phone : string) (c : Client) :
  quiet c (requestPairingCode phone c).
Proof.
  unfold requestPairingCode. split_match.
  match goal with
  | |- context [sendJSON ?m ?a ?d] =>
      pose proof (sendJSON_quiet m a d) as Hsend;
      assert (quiet c d) as Hpre by same;
      destruct (sendJSON m a d) as [[u|e] c']; cbn [snd] in Hsend
  end.
  - eapply evolves_trans; [exact Hpre|exact Hsend].
  - eapply evolves_trans; [exact Hpre|].
    eapply evolves_trans; [exact Hsend|]. same.
Qed.

Lemma restoreSession_quiet (s : Session) (c : Client) :
  quiet c (restoreSession s c).
Proof.
  unfold restoreSession.
  eapply evolves_trans; [|apply connect_quiet].
  destruct (negb (ConnectionState_eqb (state c) DISCONNECTED)).
  - eapply evolves_trans; [apply disconnect_quiet|]. same.
  - same.
Qed.

Lemma step_quiet (i : Input) (c : Client) :
  settling i = false -> quiet c (step i c).
Proof.
  destruct i; cbn [step settling]; try discriminate; intros _.
  - apply connect_quiet.
  - apply disconnect_quiet.
  - apply restoreSession_quiet.
  - apply sendBinary_quiet.
  - apply requestPairingCode_quiet.
  - same.
  - eapply evolves_trans; [|apply onWebSocketOpen_quiet]. same.
  - apply onWebSocketMessage_quiet.
  - eapply evolves_trans; [|apply onWebSocketClose_quiet]. same.
  - same.
  - apply handleQRCode_rendered_quiet.
  - same.
Qed.

Lemma step_steady (i : Input) (c : Client) : steady c (step i c).
Proof.
  destruct (settling i) eqn:Hi; [|apply quiet_steady, step_quiet, Hi].
  destruct i; try discriminate; cbn [step].
  - apply processBinaryMessage_steady.
  - apply fire_steady.
  - apply sent_steady.
Qed.

Lemma run_snoc (c : Client) (l : list Input) (i : Input) :
  run c (l ++ [i]) = step i (run c l).
Proof. unfold run. rewrite foldl_app. reflexivity. Qed.

Lemma run_steady (l : list Input) (c : Client) : steady c (run c l).
Proof.
  revert c. induction l as [|i l IH]; intros c; [apply evolves_refl|].
  cbn [run foldl]. eapply evolves_trans; [apply step_steady|apply IH].
Qed.

Lemma wf_new (o : RawOptions) (rand : nat -> byte) (curve : Buffer -> Buffer)
    (err : option string) (clock : Z) :
  wf (new_WhatsApp o rand curve err clock).
Proof.
  constructor; cbn; try (intros; discriminate); try lia.
  all: try (intros *; rewrite lookup_empty; discriminate).
  unfold cap. cbn. lia.
Qed.

(** *** Message tags *)

Lemma string_of_uint_digits (d : Decimal.uint) :
  all_digits (NilEmpty.string_of_uint d) = true.
Proof. induction d; cbn; auto. Qed.

Lemma decimal_digits (n : Z) : all_digits (decimal n) = true.
Proof. apply string_of_uint_digits. Qed.

Lemma string_of_uint_inj (d d' : Decimal.uint) :
  NilEmpty.string_of_uint d = NilEmpty.string_of_uint d' -> d = d'.
Proof.
  intros H. apply (f_equal NilEmpty.uint_of_string) in H.
  rewrite !NilEmpty.usu in H. congruence.
Qed.

Lemma decimal_inj (k k' : Z) :
  0 <= k -> 0 <= k' -> decimal k = decimal k' -> k = k'.
Proof.
  intros Hk Hk' H. unfold decimal in H.
  apply string_of_uint_inj, DecimalN.Unsigned.to_uint_inj in H.
  apply Z2N.inj; assumption.
Qed.

(** Two texts made of digits that are followed by a dot split the same
    way. *)
Lemma split_at_dot (a a' b b' : string) :
  all_digits a = true -> all_digits a' = true ->
  a +:+ String "." b = a' +:+ String "." b' -> a = a' /\ b = b'.
Proof.
  revert a'. induction a as [|x a IH]; intros [|x' a'] Ha Ha' H; cbn in *.
  - injection H as ->. auto.
  - injection H as <- _. cbn in Ha'. discriminate.
  - injection H as -> _. cbn in Ha. discriminate.
  - injection H as -> H. apply andb_prop in Ha as [_ Ha].
    apply andb_prop in Ha' as [_ Ha'].
    destruct (IH a' Ha Ha' H) as [-> ->]. auto.
Qed.

Lemma message_tag_inj (t t' k k' : Z) :
  0 <= k -> 0 <= k' -> message_tag t k = message_tag t' k' -> k = k'.
Proof.
  intros Hk Hk' H. unfold message_tag in H.
  change (".--" +:+ decimal k) with (String "." ("--" +:+ decimal k)) in H.
  change (".--" +:+ decimal k') with (String "." ("--" +:+ decimal k')) in H.
  apply split_at_dot in H as [_ H]; try apply decimal_digits.
  cbn in H. injection H as H. apply decimal_inj; assumption.
Qed.

(** *** Numbers *)

(** The double nearest to a rational depends on its value only. *)
Lemma round_double_proper (x y : Q) :
  Qeq x y -> round_double x = round_double y.
Proof.
  intros H. unfold round_double. rewrite (Qred_complete x y H). reflexivity.
Qed.

(** A value with a significand below [2^53] is a double. *)
Lemma round_double_exact (x : Q) (N k : Z) :
  0 <= k -> 0 < N < 2 ^ 53 -> 2 ^ k <= N ->
  Qeq x (N # Z.to_pos (2 ^ k)) ->
  Qeq (round_double x) x.
Proof.
  intros Hk HN Hone Hx.
  assert (Hp : 0 < 2 ^ k) by (apply Z.pow_pos_nonneg; lia).
  unfold round_double.
  pose proof (Qred_correct x) as Hred.
  destruct (Qred x) as [n d] eqn:Ered. cbn [Qnum Qden].
  assert (Hnd : n * 2 ^ k = N * Zpos d).
  { rewrite Hx in Hred. unfold Qeq in Hred. cbn [Qnum Qden] in Hred.
    rewrite Z2Pos.id in Hred by lia. exact Hred. }
  assert (Hn : 0 < n) by nia.
  rewrite Z.abs_eq by lia.
  destruct (n =? 0) eqn:En; [apply Z.eqb_eq in En; lia|].
  assert (Hge : Zpos d <= n) by nia.
  unfold binade. apply Z.leb_le in Hge as Hge'. rewrite Hge'.
  set (L := Z.log2 (n / Zpos d)).
  assert (Hq : 0 < n / Zpos d) by (apply Z.div_str_pos; lia).
  assert (HL : 0 <= L) by apply Z.log2_nonneg.
  pose proof (Z.log2_spec _ Hq) as [Hlo _]. fold L in Hlo.
  assert (Hlo' : 2 ^ L * Zpos d <= n).
  { pose proof (Z.mul_div_le n (Zpos d) ltac:(lia)). nia. }
  assert (HLk : L + k <= 52).
  { destruct (Z_le_gt_dec (L + k) 52) as [|Hgt]; [assumption|exfalso].
    assert (H53 : 2 ^ 53 <= 2 ^ (L + k)) by (apply Z.pow_le_mono_r; lia).
    rewrite Z.pow_add_r in H53 by lia.
    assert (2 ^ L * 2 ^ k * Zpos d <= N * Zpos d) by nia.
    nia. }
  rewrite Z.max_l by lia.
  rewrite Z.sgn_pos by lia. rewrite Z.mul_1_l.
  set (t := 52 - L - k).
  assert (Ht : 0 <= t) by (unfold t; lia).
  rewrite <- Hred.
  destruct (L - 52 <? 0) eqn:Ee.
  - assert (Ha : n * 2 ^ (- (L - 52)) = N * 2 ^ t * Zpos d).
    { replace (- (L - 52)) with (k + t) by (unfold t; lia).
      rewrite Z.pow_add_r by lia. nia. }
    rewrite Ha, Z.div_mul, Z.mod_mul by lia.
    replace (Zpos d <? 2 * 0) with false by (symmetry; apply Z.ltb_ge; lia).
    replace (2 * 0 =? Zpos d) with false by (symmetry; apply Z.eqb_neq; lia).
    cbn [orb andb].
    rewrite Qred_correct. unfold Qeq. cbn [Qnum Qden].
    assert (Hpt : 0 < 2 ^ t) by (apply Z.pow_pos_nonneg; lia).
    rewrite Z2Pos.id by (apply Z.pow_pos_nonneg; lia).
    replace (- (L - 52)) with (k + t) by (unfold t; lia).
    rewrite Z.pow_add_r by lia. nia.
  - apply Z.ltb_ge in Ee.
    assert (L = 52) by lia. assert (k = 0) by lia. subst k.
    replace (L - 52) with 0 by lia.
    rewrite Z.pow_0_r in *. rewrite !Z.mul_1_r in *.
    subst n. rewrite Z.div_mul, Z.mod_mul by lia.
    replace (Zpos d <? 2 * 0) with false by (symmetry; apply Z.ltb_ge; lia).
    replace (2 * 0 =? Zpos d) with false by (symmetry; apply Z.eqb_neq; lia).
    cbn [orb andb].
    unfold Qeq, inject_Z. cbn [Qnum Qden]. lia.
Qed.

(** Rounding a quotient to the nearest integer moves it by at most a
    half. *)
Lemma nearest_integer (a b : Z) :
  0 < b -> 0 <= a ->
  let m := a / b in
  let r := a mod b in
  let m' := if ((b <? 2 * r) || ((2 * r =? b) && Z.odd m))%bool
            then m + 1 else m in
  0 <= m' /\ 2 * Z.abs (m' * b - a) <= b.
Proof.
  intros Hb Ha m r m'.
  pose proof (Z.div_mod a b ltac:(lia)) as Hdm.
  pose proof (Z.mod_pos_bound a b Hb) as Hr.
  pose proof (Z.div_pos a b Ha Hb) as Hm.
  fold m in Hdm, Hm. fold r in Hdm, Hr. subst m'.
  destruct (b <? 2 * r) eqn:E1; cbn [orb].
  - apply Z.ltb_lt in E1. split; [lia|]. nia.
  - apply Z.ltb_ge in E1.
    destruct (2 * r =? b) eqn:E2; cbn [andb].
    + apply Z.eqb_eq in E2. destruct (Z.odd m); split; try lia; nia.
    + split; [lia|]. nia.
Qed.

Lemma round_double_near (x : Q) :
  Qle 1 x ->
  Qle (x - x * (1 # 2 ^ 53)) (round_double x)
  /\ Qle (round_double x) (x + x * (1 # 2 ^ 53)).
Proof.
  intros H1.
  assert (Hgoal : forall y : Q,
            Qeq y (round_double x) ->
            Qle (x - x * (1 # 2 ^ 53)) y /\ Qle y (x + x * (1 # 2 ^ 53))).
  2: { apply Hgoal. reflexivity. }
  intros y Hy. revert Hy. unfold round_double.
  pose proof (Qred_correct x) as Hred.
  destruct (Qred x) as [n d] eqn:Ered. cbn [Qnum Qden].
  assert (Hge : Zpos d <= n).
  { rewrite <- Hred in H1. unfold Qle in H1. cbn [Qnum Qden] in H1. lia. }
  rewrite Z.abs_eq by lia.
  destruct (n =? 0) eqn:En; [apply Z.eqb_eq in En; lia|].
  unfold binade. apply Z.leb_le in Hge as Hge'. rewrite Hge'.
  set (L := Z.log2 (n / Zpos d)).
  assert (Hq : 0 < n / Zpos d) by (apply Z.div_str_pos; lia).
  assert (HL : 0 <= L) by apply Z.log2_nonneg.
  pose proof (Z.log2_spec _ Hq) as [Hlo _]. fold L in Hlo.
  assert (Hlo' : 2 ^ L * Zpos d <= n).
  { pose proof (Z.mul_div_le n (Zpos d) ltac:(lia)). nia. }
  rewrite Z.max_l by lia.
  rewrite Z.sgn_pos by lia. rewrite Z.mul_1_l.
  rewrite <- Hred.
  destruct (L - 52 <? 0) eqn:Ee.
  - apply Z.ltb_lt in Ee.
    set (E := - (L - 52)).
    assert (HE : 0 < 2 ^ E) by (apply Z.pow_pos_nonneg; unfold E; lia).
    assert (H52 : 2 ^ L * 2 ^ E = 2 ^ 52).
    { rewrite <- Z.pow_add_r by (unfold E; lia). f_equal. unfold E. lia. }
    destruct (nearest_integer (n * 2 ^ E) (Zpos d) ltac:(lia) ltac:(nia))
      as [Hm0 Hm].
    cbv zeta in Hm0, Hm.
    set (m' := if ((Zpos d <? 2 * ((n * 2 ^ E) mod Zpos d))
                   || ((2 * ((n * 2 ^ E) mod Zpos d) =? Zpos d)
                       && Z.odd (n * 2 ^ E / Zpos d)))%bool
               then n * 2 ^ E / Zpos d + 1 else n * 2 ^ E / Zpos d) in *.
    intros Hy. rewrite Qred_correct in Hy. rewrite Hy.
    unfold Qle, Qminus, Qplus, Qmult, Qopp. cbn [Qnum Qden].
    rewrite Z2Pos.id by lia.
    rewrite !Pos2Z.inj_mul.
    change (Z.pos (2 ^ 53)) with (2 ^ 53).
    assert (Hd52 : Zpos d * 2 ^ 52 <= n * 2 ^ E) by nia.
    split; nia.
  - apply Z.ltb_ge in Ee.
    set (e := L - 52) in *.
    assert (HE : 0 < 2 ^ e) by (apply Z.pow_pos_nonneg; lia).
    assert (H52 : 2 ^ 52 * 2 ^ e = 2 ^ L).
    { rewrite <- Z.pow_add_r by lia. f_equal. unfold e. lia. }
    destruct (nearest_integer n (Zpos d * 2 ^ e) ltac:(nia) ltac:(lia))
      as [Hm0 Hm].
    cbv zeta in Hm0, Hm.
    set (m' := if ((Zpos d * 2 ^ e <? 2 * (n mod (Zpos d * 2 ^ e)))
                   || ((2 * (n mod (Zpos d * 2 ^ e)) =? Zpos d * 2 ^ e)
                       && Z.odd (n / (Zpos d * 2 ^ e))))%bool
               then n / (Zpos d * 2 ^ e) + 1 else n / (Zpos d * 2 ^ e)) in *.
    intros Hy. rewrite Hy.
    unfold Qle, Qminus, Qplus, Qmult, Qopp, inject_Z. cbn [Qnum Qden].
    rewrite !Pos2Z.inj_mul.
    change (Z.pos (2 ^ 53)) with (2 ^ 53).
    assert (Hd52 : Zpos d * 2 ^ e * 2 ^ 52 <= n) by nia.
    split; nia.
Qed.

(** [1.5^k] as a fraction. *)
Lemma pow15_fraction (k : Z) :
  0 <= k -> Qeq (Qpower (3 # 2) k) (3 ^ k # Z.to_pos (2 ^ k)).
Proof.
  intros Hk. destruct k as [|p|p]; [reflexivity| |lia].
  rewrite Qpower_decomp_pos.
  unfold Qeq. cbn [Qnum Qden].
  rewrite Z2Pos.id by (apply Z.pow_pos_nonneg; lia).
  rewrite Pos2Z.inj_pow. reflexivity.
Qed.

Lemma pow_2_le_3 (k : Z) : 0 <= k -> 2 ^ k <= 3 ^ k.
Proof. intros Hk. apply Z.pow_le_mono_l. lia. Qed.

Lemma Math_pow15_exact (k : Z) :
  0 <= k -> 3 ^ k < 2 ^ 53 -> Qeq (Math_pow (3 # 2) k) (Qpower (3 # 2) k).
Proof.
  intros Hk Hb. unfold Math_pow.
  apply (round_double_exact _ (3 ^ k) k); try assumption.
  - split; [apply Z.pow_pos_nonneg; lia|assumption].
  - apply pow_2_le_3, Hk.
  - apply pow15_fraction, Hk.
Qed.

Lemma pow3_small (k : Z) : 0 <= k <= 33 -> 3 ^ k < 2 ^ 53.
Proof.
  intros Hk.
  apply Z.le_lt_trans with (3 ^ 33); [apply Z.pow_le_mono_r; lia|reflexivity].
Qed.

(** The delay of an attempt: one rounding of the exact product while the
    power is exact. *)
Lemma delay_rounded_once (d k : Z) :
  0 <= k <= 33 ->
  Number_mul (inject_Z d) (Math_pow (3 # 2) k)
  = round_double (inject_Z d * Qpower (3 # 2) k).
Proof.
  intros Hk. unfold Number_mul. apply round_double_proper.
  rewrite (Math_pow15_exact k) by (try apply pow3_small; lia). reflexivity.
Qed.

Lemma delay_exact (d k : Z) :
  0 < d -> 0 <= k -> d * 3 ^ k < 2 ^ 53 ->
  Qeq (Number_mul (inject_Z d) (Math_pow (3 # 2) k))
      (inject_Z d * Qpower (3 # 2) k).
Proof.
  intros Hd Hk Hb.
  assert (H3 : 0 < 3 ^ k) by (apply Z.pow_pos_nonneg; lia).
  assert (H2 : 0 < 2 ^ k) by (apply Z.pow_pos_nonneg; lia).
  assert (Hpow : Qeq (Math_pow (3 # 2) k) (Qpower (3 # 2) k))
    by (apply Math_pow15_exact; [assumption|nia]).
  unfold Number_mul.
  rewrite (round_double_proper _ (inject_Z d * Qpower (3 # 2) k))
    by (rewrite Hpow; reflexivity).
  apply (round_double_exact _ (d * 3 ^ k) k); try assumption.
  - split; [nia|assumption].
  - pose proof (pow_2_le_3 k Hk). nia.
  - rewrite (pow15_fraction k Hk). unfold Qeq, inject_Z, Qmult.
    cbn [Qnum Qden]. lia.
Qed.

Lemma delay_near (d k : Z) :
  0 < d -> 0 <= k <= 33 ->
  let exact := (inject_Z d * Qpower (3 # 2) k)%Q in
  Qle (exact - exact * (1 # 2 ^ 53))
      (Number_mul (inject_Z d) (Math_pow (3 # 2) k))
  /\ Qle (Number_mul (inject_Z d) (Math_pow (3 # 2) k))
         (exact + exact * (1 # 2 ^ 53)).
Proof.
  intros Hd Hk exact. rewrite delay_rounded_once by assumption.
  apply round_double_near. unfold exact.
  rewrite (pow15_fraction k) by lia.
  assert (H2 : 0 < 2 ^ k) by (apply Z.pow_pos_nonneg; lia).
  pose proof (pow_2_le_3 k ltac:(lia)).
  unfold Qle, inject_Z, Qmult. cbn [Qnum Qden].
  rewrite Pos.mul_1_l, Z2Pos.id by lia. nia.
Qed.

Lemma policy_delay_holds (base n : Z) :
  policy_delay base n
    (Number_mul (inject_Z base) (Math_pow (3 # 2) (n - 1))).
Proof.
  unfold policy_delay. cbv zeta. split.
  - intros Hb Hn. split; [apply delay_rounded_once; lia|].
    apply delay_near; lia.
  - intros Hb Hn Hs. apply delay_exact; [assumption|lia|assumption].
Qed.

(** *** The reconnection policy *)

Lemma reachable_wf (o : RawOptions) (rand : nat -> byte)
    (curve : Buffer -> Buffer) (err : option string) (clock : Z)
    (l : list Input) :
  wf (run (new_WhatsApp o rand curve err clock) l).
Proof.
  destruct (run_steady l (new_WhatsApp o rand curve err clock))
    as (_ & _ & Hwf & _).
  apply Hwf, wf_new.
Qed.

Lemma scheduleReconnect_exhausted (c : Client) :
  maxReconnects (options c) <= reconnectCount c ->
  _scheduleReconnect c
  = emit Ev_reconnect_failed (log "Maximum reconnect attempts reached" c).
Proof.
  intros Hmax. unfold _scheduleReconnect.
  apply Z.leb_le in Hmax. rewrite Hmax. reflexivity.
Qed.

Lemma scheduleReconnect_attempt (c : Client) :
  reconnectCount c < maxReconnects (options c) ->
  reconnectCount (_scheduleReconnect c) = reconnectCount c + 1
  /\ emitted (_scheduleReconnect c) = emitted c
  /\ reconnectTimer (_scheduleReconnect c) = Some (nextTimer c)
  /\ timers (_scheduleReconnect c) !! nextTimer c
     = Some {| t_delay :=
                 Number_mul (inject_Z (reconnectDelay (options c)))
                   (Math_pow (3 # 2) (reconnectCount c + 1 - 1));
               t_action := T_reconnect |}.
Proof.
  intros Hlt. unfold _scheduleReconnect.
  apply Z.leb_gt in Hlt. rewrite Hlt.
  repeat split_match; fields; repeat apply conj; try reflexivity;
    apply lookup_insert_eq.
Qed.






(** *** The tag registry *)

Lemma settle_lookup (p q : nat) (r : Settlement) (c : Client) :
  promises (settle p r c) !! q
  = if decide (p = q)
    then match promises c !! p with
         | Some Pending => Some r
         | other => other
         end
    else promises c !! q.
Proof.
  fields. destruct (decide (p = q)) as [->|Hne].
  - destruct (promises c !! q) as [[| |]|] eqn:E; try assumption.
    apply lookup_insert_eq.
  - destruct (promises c !! p) as [[| |]|]; try reflexivity.
    apply lookup_insert_ne. assumption.
Qed.



Lemma unmatched_reply_dropped (m : json) (tag : string) (c : Client) :
  get_prop m "tag" = Normal (Some (JStr tag)) ->
  callbacks c !! tag = None ->
  fst (_processBinaryMessage (D_json m) c) = Normal tt
  /\ callbacks (snd (_processBinaryMessage (D_json m) c)) = callbacks c
  /\ promises (snd (_processBinaryMessage (D_json m) c)) = promises c
  /\ timers (snd (_processBinaryMessage (D_json m) c)) = timers c.
Proof.
  intros Htag Hnone.
  destruct (truthy (Some (JStr tag))) eqn:Htruthy.
  - destruct (processBinaryMessage_tail m _ c Htag Htruthy)
      as (Hok & _ & Hc & Hp & Ht).
    unfold deliver in Hc, Hp, Ht. rewrite Hnone in Hc, Hp, Ht. auto.
  - unfold _processBinaryMessage. rewrite Htag, Htruthy. cbn. auto.
Qed.



(** *** What the turns keep *)

Lemma last_state_snoc (l : list Event) (e : Event) :
  last_state (l ++ [e])
  = match e with Ev_state_change _ to => to | _ => last_state l end.
Proof. unfold last_state. rewrite foldl_snoc. reflexivity. Qed.

Lemma coherent_observed (c c' : Client) :
  observed c' = observed c -> coherent c -> coherent c'.
Proof.
  unfold observed. intros Heq [Hs Ha Hr Hq].
  injection Heq as Hst He Hse Hu Ht Hrt Hqt.
  constructor; unfold authenticated; rewrite ?Hst, ?He, ?Hse, ?Hu, ?Ht, ?Hrt, ?Hqt;
    assumption.
Qed.

Ltac timers_solve H :=
  let id := fresh "id" in
  let t := fresh "t" in
  let Hl := fresh "Hl" in
  let Ha := fresh "Ha" in
  intros id t Hl Ha;
  repeat first
    [ apply lookup_delete_Some in Hl as [? Hl]
    | apply lookup_insert_Some in Hl as [[<- <-]|[? Hl]] ];
  try (cbn in Ha; discriminate); try reflexivity;
  try (pose proof (H _ _ Hl Ha); congruence).

Ltac co_direct Hs Ha Hr Hq :=
  constructor; unfold authenticated; fields;
  [ repeat (rewrite last_state_snoc; cbn beta iota); try assumption; try reflexivity
  | let Hau := fresh "Hau" in
    intros Hau; try (destruct Hau; discriminate);
    try (split;
         first [ eexists; reflexivity
               | exact (proj1 (Ha Hau))
               | exact (proj2 (Ha Hau)) ])
  | timers_solve Hr
  | timers_solve Hq ].

Lemma disconnect_coherent (c : Client) : coherent c -> coherent (disconnect c).
Proof.
  intros [Hs Ha Hr Hq]. unfold disconnect.
  repeat split_match; try (constructor; assumption); co_direct Hs Ha Hr Hq.
Qed.

Lemma scheduleReconnect_coherent (c : Client) :
  coherent c -> coherent (_scheduleReconnect c).
Proof.
  intros [Hs Ha Hr Hq]. unfold _scheduleReconnect.
  repeat split_match; co_direct Hs Ha Hr Hq.
Qed.

Ltac co_same :=
  match goal with
  | |- coherent (?f ?x) => apply (coherent_observed x); [reflexivity|]
  end.

Ltac co_unchanged c :=
  apply (coherent_observed c); [|assumption]; unfold observed;
  unfold _onWebSocketError, handleQRCode,
    requestPairingCode_sent, handlePairingCodeResponse,
    ensure_pairing_keys, Pairing_generateKeys, generateKeys,
    _processNotification, socket_becomes, sendJSON, sendInitialMessage,
    requestPairingCode;
  repeat split_match; reflexivity.

Lemma generateKeys_coherent (c : Client) : coherent c -> coherent (generateKeys c).
Proof. intros H. co_unchanged c. Qed.

Lemma connect_coherent (c : Client) : coherent c -> coherent (connect c).
Proof.
  intros [Hs Ha Hr Hq]. unfold connect, generateKeys.
  repeat split_match;
    try (apply scheduleReconnect_coherent); co_direct Hs Ha Hr Hq.
Qed.

Lemma restoreSession_coherent (s : Session) (c : Client) :
  coherent c -> coherent (restoreSession s c).
Proof.
  intros H. unfold restoreSession. apply connect_coherent.
  split_match.
  - apply disconnect_coherent in H. destruct H as [Hs Ha Hr Hq].
    co_direct Hs Ha Hr Hq.
  - destruct H as [Hs Ha Hr Hq]. co_direct Hs Ha Hr Hq.
Qed.

Lemma sendBinary_coherent (node : json) (tag : option string)
    (timeout : option Z) (c : Client) :
  coherent c -> coherent (snd (sendBinary node tag timeout c)).
Proof.
  intros [Hs Ha Hr Hq]. unfold sendBinary.
  repeat split_match; cbn [snd]; try (constructor; assumption);
    co_direct Hs Ha Hr Hq.
Qed.

Lemma requestPairingCode_coherent (phone : string) (c : Client) :
  coherent c -> coherent (requestPairingCode phone c).
Proof.
  intros [Hs Ha Hr Hq]. unfold requestPairingCode, ensure_pairing_keys, Pairing_generateKeys, sendJSON.
  repeat split_match; co_direct Hs Ha Hr Hq.
Qed.

Lemma handlePairingCodeResponse_coherent (data : json) (c : Client) :
  coherent c -> coherent (snd (handlePairingCodeResponse data c)).
Proof.
  intros [Hs Ha Hr Hq]. unfold handlePairingCodeResponse.
  repeat split_match; cbn [snd]; try (constructor; assumption);
    co_direct Hs Ha Hr Hq.
Qed.

Lemma onWebSocketOpen_coherent (c : Client) :
  coherent c -> coherent (_onWebSocketOpen (socket_becomes WS_OPEN c)).
Proof.
  intros [Hs Ha Hr Hq]. unfold _onWebSocketOpen, sendInitialMessage, sendJSON, socket_becomes.
  repeat split_match; cbn [snd]; co_direct Hs Ha Hr Hq.
Qed.

Lemma onWebSocketClose_coherent (code : Z) (reason : string) (c : Client) :
  coherent c ->
  coherent (_onWebSocketClose code reason (socket_becomes WS_CLOSED c)).
Proof.
  intros [Hs Ha Hr Hq]. unfold _onWebSocketClose, socket_becomes.
  repeat split_match; try (apply scheduleReconnect_coherent);
    co_direct Hs Ha Hr Hq.
Qed.

Lemma handleAuthSuccess_coherent (data : json) (c : Client) :
  coherent c -> coherent (snd (handleAuthSuccess data c)).
Proof.
  intros [Hs Ha Hr Hq]. unfold handleAuthSuccess.
  repeat split_match; cbn [snd]; try (constructor; assumption);
    co_direct Hs Ha Hr Hq.
Qed.

Lemma processJsonMessage_coherent (m : json) (c : Client) :
  coherent c -> coherent (snd (_processJsonMessage m c)).
Proof.
  intros H. unfold _processJsonMessage.
  destruct (get_prop m "status") as [status|e]; [|assumption].
  repeat split_match; cbn [snd];
    try (apply handleAuthSuccess_coherent);
    try (destruct H as [Hs Ha Hr Hq]; unfold handleQRCode, generateKeys;
         repeat split_match; co_direct Hs Ha Hr Hq).
Qed.

Lemma log_coherent (msg : string) (c : Client) : coherent c -> coherent (log msg c).
Proof. intros H. co_same. assumption. Qed.

Lemma processBinaryMessage_coherent (d : Decoded) (c : Client) :
  coherent c -> coherent (snd (_processBinaryMessage d c)).
Proof.
  intros [Hs Ha Hr Hq].
  unfold _processBinaryMessage, deliver, reply_callback, _processNotification.
  repeat split_match; cbn [snd]; try (constructor; assumption);
    co_direct Hs Ha Hr Hq.
Qed.

Lemma processMessage_coherent (buffer : Buffer) (c : Client) :
  coherent c -> coherent (snd (processMessage buffer c)).
Proof.
  intros H. unfold processMessage.
  destruct (_ || _ || _)%bool; [apply log_coherent; assumption|].
  cbn zeta.
  destruct (byte_is _ WA_PREFIX_INFO_0).
  - destruct (JSON_parse _) as [m|]; [|apply log_coherent; assumption].
    pose proof (processJsonMessage_coherent m _
                  (log_coherent "Received JSON message:" c H)) as H'.
    destruct (_processJsonMessage m _) as [[u|e] c']; cbn [snd] in *;
      [assumption|apply log_coherent; assumption].
  - destruct (byte_is _ WA_PREFIX_BINARY_0); [|apply log_coherent; assumption].
    pose proof (processBinaryMessage_coherent
                  (BinaryDecoder_decode (Buffer_slice 4 buffer)) _
                  (log_coherent "Received binary message:" c H)) as H'.
    destruct (_processBinaryMessage _ _) as [[u|e] c']; cbn [snd] in *;
      [assumption|apply log_coherent; assumption].
Qed.

Lemma onWebSocketMessage_coherent (data : Buffer) (c : Client) :
  coherent c -> coherent (snd (_onWebSocketMessage data c)).
Proof.
  intros H. unfold _onWebSocketMessage.
  pose proof (processMessage_coherent data c H) as H'.
  destruct (processMessage data c) as [[u|e] c']; cbn [snd] in *;
    [assumption|apply log_coherent; assumption].
Qed.

Lemma handleQRCode_rendered_coherent (err : option string) (c : Client) :
  coherent c -> coherent (handleQRCode_rendered err c).
Proof.
  intros [Hs Ha Hr Hq]. unfold handleQRCode_rendered.
  repeat split_match; try (constructor; assumption); co_direct Hs Ha Hr Hq.
Qed.

Lemma fire_coherent (id : nat) (c : Client) : coherent c -> coherent (fire id c).
Proof.
  intros H. unfold fire.
  destruct (timers c !! id) as [t|] eqn:Ht; [|assumption].
  assert (H' : coherent (with_timers (delete id (timers c)) c)).
  { destruct H as [Hs Ha Hr Hq]. co_direct Hs Ha Hr Hq. }
  cbn zeta. destruct (t_action t) as [| | |tag p].
  - unfold reconnect_callback. apply connect_coherent, log_coherent, H'.
  - clear H'. destruct H as [Hs Ha Hr Hq]. unfold qr_expiry_callback.
    split_match; [|apply disconnect_coherent]; co_direct Hs Ha Hr Hq.
  - unfold ready_callback. split_match; [|exact H'].
    assert (Hau : authenticated c).
    { left. destruct (state c); try discriminate. reflexivity. }
    destruct H as [Hs Ha Hr Hq]. pose proof (Ha Hau) as [Hse Hu].
    constructor; unfold authenticated; fields.
    + repeat (rewrite last_state_snoc; cbn beta iota). reflexivity.
    + intros _. split; assumption.
    + timers_solve Hr.
    + timers_solve Hq.
  - clear H'. unfold response_timeout.
    destruct H as [Hs Ha Hr Hq]. co_direct Hs Ha Hr Hq.
Qed.

Lemma sent_coherent (id : nat) (error : option string) (c : Client) :
  coherent c -> coherent (sent id error c).
Proof.
  intros [Hs Ha Hr Hq].
  unfold sent, requestPairingCode_sent, binary_send_done.
  repeat split_match; try (constructor; assumption); co_direct Hs Ha Hr Hq.
Qed.

Lemma step_coherent (i : Input) (c : Client) : coherent c -> coherent (step i c).
Proof.
  intros H. destruct i; cbn [step].
  - apply connect_coherent, H.
  - apply disconnect_coherent, H.
  - apply restoreSession_coherent, H.
  - apply sendBinary_coherent, H.
  - apply requestPairingCode_coherent, H.
  - apply handlePairingCodeResponse_coherent, H.
  - apply onWebSocketOpen_coherent, H.
  - apply onWebSocketMessage_coherent, H.
  - apply processBinaryMessage_coherent, H.
  - apply onWebSocketClose_coherent, H.
  - unfold _onWebSocketError. destruct H as [Hs Ha Hr Hq]. co_direct Hs Ha Hr Hq.
  - apply fire_coherent, H.
  - apply sent_coherent, H.
  - apply handleQRCode_rendered_coherent, H.
  - co_same. assumption.
Qed.

Lemma run_coherent (l : list Input) (c : Client) : coherent c -> coherent (run c l).
Proof.
  revert c. induction l as [|i l IH]; intros c H; [assumption|].
  cbn. apply IH, step_coherent, H.
Qed.

Lemma new_coherent (o : RawOptions) (rand : nat -> byte)
    (curve : Buffer -> Buffer) (ctor_error : option string) (clock : Z) :
  coherent (new_WhatsApp o rand curve ctor_error clock).
Proof.
  constructor; cbn.
  - reflexivity.
  - intros [H|H]; discriminate.
  - intros id t H. rewrite lookup_empty in H. discriminate.
  - intros id t H. rewrite lookup_empty in H. discriminate.
Qed.

(** *** The state a listener knows *)

(** X1.  A listener of the [state_change] events knows the state: in
    every client the constructor built, after any turns of the event loop,
    the state is the target of the last [state_change] event emitted, and
    [DISCONNECTED] if there was none. *)
Theorem state_change_tracks_state (o : RawOptions) (rand : nat -> byte)
    (curve : Buffer -> Buffer) (err : option string) (clock : Z)
    (l : list Input) :
  let c := run (new_WhatsApp o rand curve err clock) l in
  last_state (emitted c) = state c.
Proof.
  cbn zeta. apply co_state, run_coherent, new_coherent.
Qed.

(** X2.  Whenever the guard [_assertConnected] passes, [getSession()]
    returns a session and the client has a user: the states
    [AUTHENTICATED] and [READY] are entered through [handleAuthSuccess]
    only, and nothing clears the session or the user afterwards. *)
Theorem guard_passes_with_session (o : RawOptions) (rand : nat -> byte)
    (curve : Buffer -> Buffer) (err : option string) (clock : Z)
    (l : list Input) :
  let c := run (new_WhatsApp o rand curve err clock) l in
  _assertConnected c = Normal tt ->
  is_Some (getSession c) /\ is_Some (user c).
Proof.
  cbn zeta. intros Hg. apply co_session; [apply run_coherent, new_coherent|].
  unfold _assertConnected in Hg. unfold authenticated.
  destruct (state _); try discriminate; auto.
Qed.

Lemma guard_passes_with_session_witness :
  _assertConnected
    (run fresh_client
       [I_connect; I_open; I_message (inbound_frame msg_success)])
  = Normal tt
  /\ is_Some (getSession
                (run fresh_client
                   [I_connect; I_open; I_message (inbound_frame msg_success)])).
Proof.
  assert (H : _assertConnected
                (run fresh_client
                   [I_connect; I_open; I_message (inbound_frame msg_success)])
              = Normal tt) by (vm_compute; reflexivity).
  split; [exact H|].
  exact (proj1 (guard_passes_with_session no_options sample_entropy
                  sample_curve None 1700000000000
                  [I_connect; I_open; I_message (inbound_frame msg_success)] H)).
Defined.

(** X3.  At most one reconnect timer and at most one QR expiry timer are
    armed at any time: two armed timers with the same of these two actions
    are one timer. *)
Theorem one_timer_per_purpose (o : RawOptions) (rand : nat -> byte)
    (curve : Buffer -> Buffer) (err : option string) (clock : Z)
    (l : list Input) (id id' : nat) (t t' : Timer) :
  let c := run (new_WhatsApp o rand curve err clock) l in
  timers c !! id = Some t -> timers c !! id' = Some t' ->
  t_action t = t_action t' ->
  t_action t = T_reconnect \/ t_action t = T_qrExpiry ->
  id = id'.
Proof.
  cbn zeta. intros Hl Hl' Hsame Hact.
  pose proof (run_coherent l _ (new_coherent o rand curve err clock)) as Hco.
  destruct Hact as [Ha|Ha].
  - pose proof (co_reconnect _ Hco id t Hl Ha) as H1.
    rewrite Hsame in Ha.
    pose proof (co_reconnect _ Hco id' t' Hl' Ha) as H2. congruence.
  - pose proof (co_qr _ Hco id t Hl Ha) as H1.
    rewrite Hsame in Ha.
    pose proof (co_qr _ Hco id' t' Hl' Ha) as H2. congruence.
Qed.

Lemma one_timer_per_purpose_witness :
  timers (run fresh_client [I_connect; I_close 1006 "gone"]) !! 0%nat
  = Some {| t_delay := (inject_Z 3000 * Qpower (3 # 2) 0)%Q;
            t_action := T_reconnect |}
  /\ 0%nat = 0%nat.
Proof.
  assert (H : timers (run fresh_client [I_connect; I_close 1006 "gone"]) !! 0%nat
              = Some {| t_delay := (inject_Z 3000 * Qpower (3 # 2) 0)%Q;
                        t_action := T_reconnect |})
    by (vm_compute; reflexivity).
  split; [exact H|].
  exact (one_timer_per_purpose no_options sample_entropy sample_curve None
           1700000000000 [I_connect; I_close 1006 "gone"] 0%nat 0%nat _ _
           H H eq_refl (or_introl eq_refl)).
Defined.

(** X4.  After [disconnect()] on a client that was not disconnected, no
    armed timer is a reconnect timer or a QR expiry timer. *)
Theorem disconnect_cancels_reconnect_and_qr (o : RawOptions)
    (rand : nat -> byte) (curve : Buffer -> Buffer) (err : option string)
    (clock : Z) (l : list Input) (id : nat) (t : Timer) :
  let c := run (new_WhatsApp o rand curve err clock) l in
  state c <> DISCONNECTED ->
  timers (disconnect c) !! id = Some t ->
  t_action t <> T_reconnect /\ t_action t <> T_qrExpiry.
Proof.
  cbn zeta. intros Hst Hl.
  set (c := run _ l) in *.
  assert (Hco : coherent (disconnect c))
    by apply disconnect_coherent, run_coherent, new_coherent.
  assert (Hr : reconnectTimer (disconnect c) = None
               /\ qrRefreshTimer (disconnect c) = None).
  { unfold disconnect. destruct (ConnectionState_eqb (state c) DISCONNECTED) eqn:E.
    - apply ConnectionState_eqb_eq in E. contradiction.
    - repeat split_match; split; fields; congruence. }
  destruct Hr as [Hr Hq]. split; intros Ha.
  - pose proof (co_reconnect _ Hco id t Hl Ha). congruence.
  - pose proof (co_qr _ Hco id t Hl Ha). congruence.
Qed.

Lemma disconnect_cancels_reconnect_and_qr_witness :
  state (run fresh_client
           [I_connect; I_open; I_message (inbound_frame msg_success)])
  <> DISCONNECTED
  /\ T_ready <> T_reconnect /\ T_ready <> T_qrExpiry.
Proof.
  assert (Hs : state (run fresh_client
                        [I_connect; I_open; I_message (inbound_frame msg_success)])
               <> DISCONNECTED) by (vm_compute; discriminate).
  split; [exact Hs|].
  refine (disconnect_cancels_reconnect_and_qr no_options sample_entropy
            sample_curve None 1700000000000
            [I_connect; I_open; I_message (inbound_frame msg_success)]
            0%nat {| t_delay := settle_delay; t_action := T_ready |} Hs _).
  vm_compute. reflexivity.
Defined.

(** *** The expiry of a QR code *)

(** X5.  When the expiry timer of a QR code fires, the retry counter goes
    up by one, nothing is written to the socket and no timer is armed.
    Below the retry limit the state, the socket and the other timers stay
    and [qr_expired] is the one event; from the limit on the client ends
    [DISCONNECTED], with [qr_max_retries] followed by the events of
    [disconnect()] if it was not disconnected already. *)
Theorem qr_expiry_fires (id : nat) (t : Timer) (c : Client) :
  timers c !! id = Some t -> t_action t = T_qrExpiry ->
  let c' := fire id c in
  qrRetryCount c' = qrRetryCount c + 1
  /\ wire c' = wire c
  /\ (forall (i : nat) (x : Timer),
        timers c' !! i = Some x -> i <> id /\ timers c !! i = Some x)
  /\ (qrRetryCount c + 1 < qrMaxRetries (options c) ->
      state c' = state c
      /\ ws c' = ws c
      /\ timers c' = delete id (timers c)
      /\ emitted c' = (emitted c ++ [Ev_qr_expired])%list)
  /\ (qrMaxRetries (options c) <= qrRetryCount c + 1 ->
      state c' = DISCONNECTED
      /\ (state c <> DISCONNECTED -> ws c' = None)
      /\ emitted c'
         = (emitted c ++ Ev_qr_max_retries ::
              (if ConnectionState_eqb (state c) DISCONNECTED then []
               else [Ev_state_change (state c) DISCONNECTED;
                     Ev_disconnected None]))%list).
Proof.
  intros Hl Ha. cbn zeta. unfold fire. rewrite Hl. cbn zeta. rewrite Ha.
  unfold qr_expiry_callback, disconnect.
  repeat apply conj.
  - repeat split_match; fields; reflexivity.
  - repeat split_match; fields; reflexivity.
  - intros i x. repeat split_match; fields; intros Hi;
      repeat (apply lookup_delete_Some in Hi as [? Hi]); auto.
  - intros Hlt. apply Z.ltb_lt in Hlt.
    repeat split_match; try (fields_in Hlt; congruence);
      repeat apply conj; fields; reflexivity.
  - intros Hge. apply Z.ltb_ge in Hge.
    repeat split_match; try (fields_in Hge; congruence);
      repeat apply conj; fields; try reflexivity;
      try (rewrite <- !app_assoc; reflexivity);
      try (apply ConnectionState_eqb_eq; assumption);
      try (intros Hne; apply ConnectionState_eqb_eq in Heqb0; contradiction);
      try (intros _; assumption).
Qed.

Lemma qr_expiry_fires_witness :
  timers qr_shown !! 0%nat
  = Some {| t_delay := inject_Z 60000; t_action := T_qrExpiry |}
  /\ qrRetryCount (fire 0 qr_shown) = 1
  /\ wire (fire 0 qr_shown) = wire qr_shown.
Proof.
  assert (H : timers qr_shown !! 0%nat
              = Some {| t_delay := inject_Z 60000; t_action := T_qrExpiry |})
    by (vm_compute; reflexivity).
  split; [exact H|].
  pose proof (qr_expiry_fires 0 _ qr_shown H eq_refl) as (Hn & Hw & _).
  split; [exact Hn|exact Hw].
Defined.

(** *** Inbound frames *)

Lemma handleAuthSuccess_passive (m : json) (c : Client) :
  let c' := snd (handleAuthSuccess m c) in
  wire c' = wire c /\ sends c' = sends c /\ ws c' = ws c
  /\ messageTagCounter c' = messageTagCounter c
  /\ (state c' = state c \/ state c' = TIMEOUT \/ state c' = AUTHENTICATED).
Proof.
  cbn zeta. unfold handleAuthSuccess.
  repeat split_match; cbn [snd]; fields; repeat apply conj;
    try reflexivity; auto.
Qed.

Lemma processJsonMessage_passive (m : json) (c : Client) :
  let c' := snd (_processJsonMessage m c) in
  wire c' = wire c /\ sends c' = sends c /\ ws c' = ws c
  /\ messageTagCounter c' = messageTagCounter c
  /\ (state c' = state c \/ state c' = TIMEOUT \/ state c' = AUTHENTICATED).
Proof.
  cbn zeta. unfold _processJsonMessage.
  destruct (get_prop m "status") as [status|e]; [|cbn; auto 10].
  destruct (is_str status "connected"); [cbn; auto 10|].
  destruct (is_str status "connecting"); [cbn; auto 10|].
  destruct (is_str status "timeout"); [cbn; auto 10|].
  cbn zeta.
  destruct (is_str _ "qr").
  - unfold handleQRCode, generateKeys.
    repeat split_match; cbn [snd]; fields; repeat apply conj;
      try reflexivity; auto.
  - destruct (is_str _ "success"); [|cbn; auto 10].
    exact (handleAuthSuccess_passive m (log "Authentication successful" c)).
Qed.

Lemma processBinaryMessage_passive (d : Decoded) (c : Client) :
  let c' := snd (_processBinaryMessage d c) in
  wire c' = wire c /\ sends c' = sends c /\ ws c' = ws c
  /\ messageTagCounter c' = messageTagCounter c
  /\ state c' = state c.
Proof.
  cbn zeta. unfold _processBinaryMessage, deliver, reply_callback, _processNotification.
  repeat split_match; cbn [snd]; fields; auto 10.
Qed.

(** X6.  Handling an inbound buffer is passive: [_onWebSocketMessage]
    writes no frame, starts no write, leaves the socket and the tag
    counter alone, and leaves the state as it was or moves it to [TIMEOUT]
    or to [AUTHENTICATED]. *)
Theorem inbound_frames_are_passive (buffer : Buffer) (c : Client) :
  let c' := snd (_onWebSocketMessage buffer c) in
  wire c' = wire c /\ sends c' = sends c /\ ws c' = ws c
  /\ messageTagCounter c' = messageTagCounter c
  /\ (state c' = state c \/ state c' = TIMEOUT \/ state c' = AUTHENTICATED).
Proof.
  cbn zeta. unfold _onWebSocketMessage, processMessage.
  destruct (_ || _ || _)%bool; [cbn; auto 10|].
  cbn zeta.
  destruct (byte_is _ WA_PREFIX_INFO_0).
  - destruct (JSON_parse _) as [m|]; [|cbn; auto 10].
    pose proof (processJsonMessage_passive m (log "Received JSON message:" c)) as H.
    cbn zeta in H.
    destruct (_processJsonMessage m _) as [[u|e] c']; cbn [snd] in *; exact H.
  - destruct (byte_is _ WA_PREFIX_BINARY_0); [|cbn; auto 10].
    pose proof (processBinaryMessage_passive
                  (BinaryDecoder_decode (Buffer_slice 4 buffer))
                  (log "Received binary message:" c)) as H.
    cbn zeta in H.
    destruct (_processBinaryMessage _ _) as [[u|e] c']; cbn [snd] in *;
      destruct H as (? & ? & ? & ? & ?); auto 10.
Qed.

(** *** The pairing-code variant of the authentication *)

(** X7.  [handleAuthSuccess] of [PairingCodeAuth] stores the session with
    the client id of [PairingCodeAuth], enters [AUTHENTICATED], resets the
    reconnect counter and arms the settle timer; unlike [AuthHandler]'s it
    leaves the QR retry counter and the QR expiry timer as they are, so a
    QR timer armed before stays armed. *)
Theorem Pairing_handleAuthSuccess_keeps_qr (data : json) (tok : option json)
    (k : Keys) (c : Client) :
  get_prop data "session" = Normal tok ->
  pairing_keys c = Some k ->
  let c' := snd (Pairing_handleAuthSuccess data c) in
  fst (Pairing_handleAuthSuccess data c) = Normal tt
  /\ state c' = AUTHENTICATED
  /\ (exists s : Session,
        session c' = Some s
        /\ session_clientId s = pairing_clientId c
        /\ serverToken s = tok
        /\ user c' = Some (me s))
  /\ reconnectCount c' = 0
  /\ qrRetryCount c' = qrRetryCount c
  /\ qrRefreshTimer c' = qrRefreshTimer c
  /\ timers c'
     = <[nextTimer c := {| t_delay := settle_delay; t_action := T_ready |}]>
         (timers c)
  /\ (forall (id : nat) (t : Timer),
        (id < nextTimer c)%nat -> timers c !! id = Some t ->
        timers c' !! id = Some t).
Proof.
  intros Htok Hk. cbn zeta. unfold Pairing_handleAuthSuccess.
  rewrite Htok, Hk.
  repeat split_match; cbn [fst snd]; fields; repeat apply conj;
    try reflexivity;
    try (eexists; repeat apply conj; reflexivity);
    intros id t Hlt Hl; rewrite lookup_insert_ne by lia; assumption.
Qed.

(** *** Addresses *)

Lemma includes_at_app (a b : string) :
  includes_at (a +:+ b) = (includes_at a || includes_at b)%bool.
Proof.
  induction a as [|x a IH]; [reflexivity|].
  change (String x a +:+ b) with (String x (a +:+ b)). cbn [includes_at].
  destruct (Ascii.eqb x "@"); [reflexivity|exact IH].
Qed.

Lemma digits_only_digits (s : string) : all_digits (digits_only s) = true.
Proof.
  induction s as [|x s IH]; [reflexivity|].
  cbn. destruct (is_digit x) eqn:E; [|exact IH].
  cbn. rewrite E, IH. reflexivity.
Qed.

(** X8.  The address formatting of [requestPairingCode] (and of the
    message senders) gives an address with an [@], and formatting an
    address again changes nothing; the result is the input, or the digits
    of the input followed by [@s.whatsapp.net]. *)
Theorem formatPhone_idempotent (phoneNumber : string) :
  includes_at (formatPhone phoneNumber) = true
  /\ formatPhone (formatPhone phoneNumber) = formatPhone phoneNumber
  /\ (formatPhone phoneNumber = phoneNumber
      \/ formatPhone phoneNumber
         = digits_only phoneNumber +:+ "@s.whatsapp.net"
         /\ all_digits (digits_only phoneNumber) = true).
Proof.
  assert (H : includes_at (formatPhone phoneNumber) = true).
  { unfold formatPhone. destruct (includes_at phoneNumber) eqn:E; [exact E|].
    rewrite includes_at_app. apply orb_true_r. }
  repeat apply conj.
  - exact H.
  - unfold formatPhone at 1. rewrite H. reflexivity.
  - unfold formatPhone. destruct (includes_at phoneNumber); [left; reflexivity|].
    right. split; [reflexivity|apply digits_only_digits].
Qed.

(** *** The connection guard *)

(** X9.  In a state other than [AUTHENTICATED] and [READY] the guard
    throws, and [setPresence] and [isRegisteredUser] are rejected with its
    error before anything happens: the client is unchanged, so no tag is
    issued and nothing is written. *)
Theorem guard_rejects (c : Client) :
  state c <> AUTHENTICATED -> state c <> READY ->
  _assertConnected c = Throw "Not connected or authenticated to WhatsApp"
  /\ (forall chatId presence : json,
        setPresence chatId presence c
        = (Throw "Not connected or authenticated to WhatsApp", c))
  /\ (forall number : string,
        WhatsApp_isRegisteredUser number c
        = (Throw "Not connected or authenticated to WhatsApp", c)).
Proof.
  intros Ha Hr.
  assert (H : _assertConnected c
              = Throw "Not connected or authenticated to WhatsApp").
  { unfold _assertConnected. destruct (state c); try reflexivity; contradiction. }
  unfold setPresence, WhatsApp_isRegisteredUser. rewrite H. auto.
Qed.

Lemma guard_rejects_witness :
  state (connect fresh_client) <> AUTHENTICATED
  /\ state (connect fresh_client) <> READY
  /\ setPresence (JStr "123@s.whatsapp.net") (JStr "typing") (connect fresh_client)
     = (Throw "Not connected or authenticated to WhatsApp", connect fresh_client).
Proof.
  assert (H1 : state (connect fresh_client) <> AUTHENTICATED)
    by (vm_compute; discriminate).
  assert (H2 : state (connect fresh_client) <> READY)
    by (vm_compute; discriminate).
  split; [exact H1|]. split; [exact H2|].
  exact (proj1 (proj2 (guard_rejects (connect fresh_client) H1 H2)) _ _).
Defined.

(** X10.  After [disconnect()] and after the close of the socket the
    client is [DISCONNECTED], and [setPresence] and [isRegisteredUser] are
    rejected without any effect. *)
Theorem guard_closed_by_teardown (code : Z) (reason : string) (c : Client)
    (chatId presence : json) (number : string) :
  let refused d :=
    state d = DISCONNECTED
    /\ setPresence chatId presence d
       = (Throw "Not connected or authenticated to WhatsApp", d)
    /\ WhatsApp_isRegisteredUser number d
       = (Throw "Not connected or authenticated to WhatsApp", d) in
  refused (disconnect c) /\ refused (_onWebSocketClose code reason c).
Proof.
  cbn zeta.
  assert (H : forall d, state d = DISCONNECTED ->
            state d = DISCONNECTED
            /\ setPresence chatId presence d
               = (Throw "Not connected or authenticated to WhatsApp", d)
            /\ WhatsApp_isRegisteredUser number d
               = (Throw "Not connected or authenticated to WhatsApp", d)).
  { intros d Hs. split; [exact Hs|].
    unfold setPresence, WhatsApp_isRegisteredUser, _assertConnected.
    rewrite Hs. cbn. auto. }
  split; apply H.
  - unfold disconnect. repeat split_match; fields; try reflexivity.
    all: apply ConnectionState_eqb_eq; assumption.
  - unfold _onWebSocketClose, _scheduleReconnect.
    repeat split_match; fields; reflexivity.
Qed.

Lemma Pairing_handleAuthSuccess_keeps_qr_witness :
  get_prop msg_success "session" = Normal (Some (JStr "S1"))
  /\ pairing_keys (ensure_pairing_keys fresh_client)
     = Some {| private := map sample_entropy (seq 16 32);
               public := sample_curve (map sample_entropy (seq 16 32)) |}
  /\ state (snd (Pairing_handleAuthSuccess msg_success
                   (ensure_pairing_keys fresh_client)))
     = AUTHENTICATED.
Proof.
  assert (H1 : get_prop msg_success "session" = Normal (Some (JStr "S1")))
    by reflexivity.
  assert (H2 : pairing_keys (ensure_pairing_keys fresh_client)
               = Some {| private := map sample_entropy (seq 16 32);
                         public := sample_curve (map sample_entropy (seq 16 32)) |})
    by (vm_compute; reflexivity).
  split; [exact H1|]. split; [exact H2|].
  exact (proj1 (proj2 (Pairing_handleAuthSuccess_keeps_qr msg_success _ _
                         (ensure_pairing_keys fresh_client) H1 H2))).
Defined.

(** *** Presence updates and the registration check *)

Lemma message_tag_next (t k : Z) :
  0 <= k -> message_tag t k <> message_tag t (k + 1).
Proof.
  intros Hk Heq. apply message_tag_inj in Heq; lia.
Qed.

(** X11.  [sendPresence] checks the presence type first: an invalid type
    is rejected with nothing changed.  With a valid type and a socket that
    is not open the request is rejected, nothing is written or registered,
    and one tag is used up.  With a valid type and an open socket one frame
    is written for the node; the node's [id] and the [tag] it is
    registered under are two different tags, and nothing is registered
    under the [id]. *)
Theorem sendPresence_checks_then_sends (to type : json) (c : Client) :
  let id := message_tag (now c) (messageTagCounter c) in
  let tag := message_tag (now c) (messageTagCounter c + 1) in
  let c' := snd (sendPresence to type c) in
  (valid_presence type = false ->
   sendPresence to type c = (Throw "Invalid presence type", c))
  /\ (valid_presence type = true -> ws c <> Some WS_OPEN ->
      fst (sendPresence to type c) = Throw "WebSocket is not connected"
      /\ wire c' = wire c /\ callbacks c' = callbacks c
      /\ promises c' = promises c
      /\ messageTagCounter c' = js_incr (messageTagCounter c))
  /\ (valid_presence type = true -> ws c = Some WS_OPEN ->
      0 <= messageTagCounter c < 2 ^ 53 ->
      fst (sendPresence to type c) = Normal (nextPromise c)
      /\ wire c'
         = (wire c
            ++ [binary_frame
                  (JObj [ ("id", JStr id); ("type", JStr "action");
                          ("data", JObj [ ("type", JStr "set");
                                          ("xmlns", JStr "presence");
                                          ("to", to); ("presence", type) ]);
                          ("tag", JStr tag) ])])%list
      /\ id <> tag
      /\ callbacks c' = <[tag := (nextTimer c, nextPromise c)]> (callbacks c)
      /\ callbacks c' !! id = callbacks c !! id
      /\ promises c' = <[nextPromise c := Pending]> (promises c)
      /\ timers c'
         = <[nextTimer c := {| t_delay := inject_Z 60000;
                               t_action := T_responseTimeout tag (nextPromise c) |}]>
             (timers c)).
Proof.
  cbn zeta. unfold sendPresence. repeat apply conj.
  - intros ->. reflexivity.
  - intros -> Hws. cbn [negb]. unfold sendBinary, presence_node, set_tag.
    assert (Hn : ws_not_open (snd (_generateMessageTag c)) = true).
    { unfold ws_not_open. fields. destruct (ws c) as [[]|]; congruence. }
    repeat split_match; try congruence.
    cbn [fst snd]. fields. auto.
  - intros -> Hws Hk. cbn [negb]. unfold sendBinary, presence_node, set_tag.
    assert (Hn : ws_not_open (snd (_generateMessageTag c)) = false).
    { unfold ws_not_open. fields. rewrite Hws. reflexivity. }
    assert (Hi : js_incr (messageTagCounter c) = messageTagCounter c + 1).
    { unfold js_incr. destruct (Z.ltb_spec (messageTagCounter c) (2 ^ 53)); lia. }
    assert (Hne : message_tag (now c) (messageTagCounter c)
                  <> message_tag (now c) (messageTagCounter c + 1))
      by (apply message_tag_next; lia).
    repeat split_match; try congruence.
    cbn [fst snd]. fields. rewrite Hi.
    repeat apply conj; try reflexivity; try assumption.
    rewrite lookup_insert_ne by congruence. reflexivity.
Qed.

Lemma sendPresence_checks_then_sends_witness :
  valid_presence (JStr "online") = false
  /\ sendPresence (JStr "123@s.whatsapp.net") (JStr "online") busy_client
     = (Throw "Invalid presence type", busy_client).
Proof.
  assert (H : valid_presence (JStr "online") = false) by reflexivity.
  split; [exact H|].
  exact (proj1 (sendPresence_checks_then_sends (JStr "123@s.whatsapp.net")
                  (JStr "online") busy_client) H).
Defined.

(** X12.  [AuthHandler.isRegisteredUser] asks about the digits of the
    number followed by [@s.whatsapp.net].  On a socket that is not open it
    does not fail: it answers [false], having written nothing and used up
    one tag.  On an open socket it writes one frame and waits for the
    reply. *)
Theorem isRegisteredUser_answers_false_when_closed (number : string)
    (c : Client) :
  let id := message_tag (now c) (messageTagCounter c) in
  let jid := digits_only number +:+ "@s.whatsapp.net" in
  all_digits (digits_only number) = true
  /\ (ws c <> Some WS_OPEN ->
      fst (isRegisteredUser number c) = Returned false
      /\ wire (snd (isRegisteredUser number c)) = wire c
      /\ promises (snd (isRegisteredUser number c)) = promises c
      /\ messageTagCounter (snd (isRegisteredUser number c))
         = js_incr (messageTagCounter c))
  /\ (ws c = Some WS_OPEN ->
      fst (isRegisteredUser number c) = Awaiting (nextPromise c)
      /\ exists tag : string,
           wire (snd (isRegisteredUser number c))
           = (wire c
              ++ [binary_frame
                    (JObj [ ("id", JStr id); ("type", JStr "action");
                            ("data", JObj [ ("type", JStr "get");
                                            ("xmlns", JStr "contact");
                                            ("jid", JStr jid) ]);
                            ("tag", JStr tag) ])])%list).
Proof.
  cbn zeta. split; [apply digits_only_digits|].
  unfold isRegisteredUser, sendBinary, contact_node, set_tag. split.
  - intros Hws.
    assert (Hn : ws_not_open (snd (_generateMessageTag c)) = true).
    { unfold ws_not_open. fields. destruct (ws c) as [[]|]; congruence. }
    repeat split_match; try congruence. cbn [fst snd]. fields. auto.
  - intros Hws.
    assert (Hn : ws_not_open (snd (_generateMessageTag c)) = false).
    { unfold ws_not_open. fields. rewrite Hws. reflexivity. }
    repeat split_match; try congruence. cbn [fst snd]. fields.
    split; [reflexivity|]. eexists. reflexivity.
Qed.

(** *** Reading back what [JSON.stringify] wrote *)

Lemma stringify_array (l : list json) :
  JSON_stringify (JArr l) = "[" +:+ stringify_items l +:+ "]".
Proof. reflexivity. Qed.

Lemma stringify_object (ps : list (string * json)) :
  JSON_stringify (JObj ps) = "{" +:+ stringify_props ps +:+ "}".
Proof. reflexivity. Qed.

Lemma json_induction (P : json -> Prop) :
  P JNull -> (forall b, P (JBool b)) -> (forall n, P (JNum n)) ->
  (forall s, P (JStr s)) ->
  (forall l, Forall P l -> P (JArr l)) ->
  (forall ps, Forall (fun kv => P (snd kv)) ps -> P (JObj ps)) ->
  forall v, P v.
Proof.
  intros Hn Hb Hnum Hs Ha Ho. fix IH 1. intros [ |b|n|s|l|ps].
  - exact Hn.
  - apply Hb.
  - apply Hnum.
  - apply Hs.
  - apply Ha. induction l as [|x l IHl]; constructor; [apply IH|exact IHl].
  - apply Ho. induction ps as [|[k x] ps IHps]; constructor;
      [apply IH|exact IHps].
Qed.

Lemma append_assoc (a b c : string) : (a +:+ b) +:+ c = a +:+ (b +:+ c).
Proof.
  induction a as [|x a IH]; [reflexivity|].
  change (String x a +:+ b) with (String x (a +:+ b)).
  change (String x (a +:+ b) +:+ c) with (String x ((a +:+ b) +:+ c)).
  rewrite IH. reflexivity.
Qed.

Lemma append_nil (a : string) : a +:+ "" = a.
Proof.
  induction a as [|x a IH]; [reflexivity|].
  change (String x a +:+ "") with (String x (a +:+ "")). rewrite IH. reflexivity.
Qed.

Lemma parse_chars_escape1 (c : ascii) (r tail : string) :
  parse_chars (escape (String c r) +:+ tail)
  = match parse_chars (escape r +:+ tail) with
    | Some (t, rest) => Some (String c t, rest)
    | None => None
    end.
Proof.
  destruct c as [[] [] [] [] [] [] [] []]; reflexivity.
Qed.

Lemma parse_chars_escape (s rest : string) :
  parse_chars (escape s +:+ String dquote rest) = Some (s, rest).
Proof.
  induction s as [|c s IH]; [reflexivity|].
  rewrite parse_chars_escape1, IH. reflexivity.
Qed.

Lemma parse_chars_quote (s rest : string) :
  exists tail, quote s +:+ rest = String dquote tail
               /\ parse_chars tail = Some (s, rest).
Proof.
  exists (escape s +:+ String dquote rest). split.
  - unfold quote.
    change (String dquote (escape s +:+ String dquote "") +:+ rest)
      with (String dquote ((escape s +:+ String dquote "") +:+ rest)).
    rewrite append_assoc. reflexivity.
  - apply parse_chars_escape.
Qed.

(** The cases of a text that closes a value. *)
Lemma closes_cases (rest : string) :
  closes rest = true ->
  rest = "" \/ exists r, rest = String "," r \/ rest = String "]" r
                         \/ rest = String "}" r.
Proof.
  destruct rest as [|c r]; [auto|]. cbn. intros H. right. exists r.
  destruct (Ascii.eqb_spec c ","); [subst; auto|].
  destruct (Ascii.eqb_spec c "]"); [subst; auto|].
  destruct (Ascii.eqb_spec c "}"); [subst; auto|]. discriminate.
Qed.

Lemma span_digits_app (s rest : string) :
  closes rest = true ->
  span_digits (s +:+ rest)
  = (fst (span_digits s), snd (span_digits s) +:+ rest).
Proof.
  intros Hc. induction s as [|c s IH].
  - apply closes_cases in Hc as [->|(r & [->|[->| ->]])]; reflexivity.
  - change (String c s +:+ rest) with (String c (s +:+ rest)).
    cbn [span_digits]. rewrite IH.
    destruct (is_digit c); [|reflexivity].
    destruct (span_digits s) as [d t]. reflexivity.
Qed.

Lemma parse_number_app (s rest : string) :
  closes rest = true ->
  parse_number (s +:+ rest)
  = match parse_number s with
    | Some (m, t) => Some (m, t +:+ rest)
    | None => None
    end.
Proof.
  intros Hc.
  pose proof (fun x => span_digits_app x rest Hc) as Hspan.
  assert (Hrest : rest = "" \/ exists r, rest = String "," r
                    \/ rest = String "]" r \/ rest = String "}" r)
    by (apply closes_cases; exact Hc).
  assert (Hexp : forall (sign int f s3 : string),
    match
      match s3 +:+ rest with
      | String c r =>
          if (Ascii.eqb c "e" || Ascii.eqb c "E")%bool then
            let '(sg, r') :=
              match r with
              | String c' r'' =>
                  if (Ascii.eqb c' "+" || Ascii.eqb c' "-")%bool
                  then (String c' "", r'') else ("", r)
              | EmptyString => ("", r)
              end in
            let '(e, t) := span_digits r' in
            if String.eqb e "" then None
            else Some (String c "" +:+ sg +:+ e, t)
          else Some ("", s3 +:+ rest)
      | EmptyString => Some ("", s3 +:+ rest)
      end
    with
    | None => None
    | Some (e, s4) => Some (sign +:+ int +:+ f +:+ e, s4)
    end
    = match
        match
          match s3 with
          | String c r =>
              if (Ascii.eqb c "e" || Ascii.eqb c "E")%bool then
                let '(sg, r') :=
                  match r with
                  | String c' r'' =>
                      if (Ascii.eqb c' "+" || Ascii.eqb c' "-")%bool
                      then (String c' "", r'') else ("", r)
                  | EmptyString => ("", r)
                  end in
                let '(e, t) := span_digits r' in
                if String.eqb e "" then None
                else Some (String c "" +:+ sg +:+ e, t)
              else Some ("", s3)
          | EmptyString => Some ("", s3)
          end
        with
        | None => None
        | Some (e, s4) => Some (sign +:+ int +:+ f +:+ e, s4)
        end
      with
      | Some (m, t) => Some (m, t +:+ rest)
      | None => None
      end).
  { intros sign int f s3. destruct s3 as [|c3 r3].
    - change ("" +:+ rest) with rest.
      destruct Hrest as [->|(r & [->|[->| ->]])]; reflexivity.
    - change (String c3 r3 +:+ rest) with (String c3 (r3 +:+ rest)). lazy beta iota.
      destruct (Ascii.eqb c3 "e" || Ascii.eqb c3 "E")%bool; [|reflexivity].
      destruct r3 as [|c4 r4].
      + change ("" +:+ rest) with rest.
        destruct Hrest as [->|(r & [->|[->| ->]])]; reflexivity.
      + change (String c4 r4 +:+ rest) with (String c4 (r4 +:+ rest)). lazy beta iota.
        destruct (Ascii.eqb c4 "+" || Ascii.eqb c4 "-")%bool.
        * rewrite Hspan. destruct (span_digits r4) as [e t]. cbn [fst snd].
          destruct (String.eqb e ""); reflexivity.
        * change (String c4 (r4 +:+ rest)) with (String c4 r4 +:+ rest).
          rewrite Hspan. destruct (span_digits (String c4 r4)) as [e t].
          cbn [fst snd]. destruct (String.eqb e ""); reflexivity. }
  unfold parse_number.
  assert (Hbody : forall sign s1 : string,
    (let '(int, s2) := span_digits (s1 +:+ rest) in
     match int with
     | EmptyString => None
     | String d more =>
         if (Ascii.eqb d "0" && negb (String.eqb more ""))%bool then None else
         let frac :=
           match s2 with
           | String c r =>
               if Ascii.eqb c "." then
                 let '(f, t) := span_digits r in
                 if String.eqb f "" then None else Some ("." +:+ f, t)
               else Some ("", s2)
           | EmptyString => Some ("", s2)
           end in
         match frac with
         | None => None
         | Some (f, s3) =>
             let exp :=
               match s3 with
               | String c r =>
                   if (Ascii.eqb c "e" || Ascii.eqb c "E")%bool then
                     let '(sg, r') :=
                       match r with
                       | String c' r'' =>
                           if (Ascii.eqb c' "+" || Ascii.eqb c' "-")%bool
                           then (String c' "", r'') else ("", r)
                       | EmptyString => ("", r)
                       end in
                     let '(e, t) := span_digits r' in
                     if String.eqb e "" then None
                     else Some (String c "" +:+ sg +:+ e, t)
                   else Some ("", s3)
               | EmptyString => Some ("", s3)
               end in
             match exp with
             | None => None
             | Some (e, s4) => Some (sign +:+ int +:+ f +:+ e, s4)
             end
         end
     end)
    = match
        (let '(int, s2) := span_digits s1 in
         match int with
         | EmptyString => None
         | String d more =>
             if (Ascii.eqb d "0" && negb (String.eqb more ""))%bool then None else
             let frac :=
               match s2 with
               | String c r =>
                   if Ascii.eqb c "." then
                     let '(f, t) := span_digits r in
                     if String.eqb f "" then None else Some ("." +:+ f, t)
                   else Some ("", s2)
               | EmptyString => Some ("", s2)
               end in
             match frac with
             | None => None
             | Some (f, s3) =>
                 let exp :=
                   match s3 with
                   | String c r =>
                       if (Ascii.eqb c "e" || Ascii.eqb c "E")%bool then
                         let '(sg, r') :=
                           match r with
                           | String c' r'' =>
                               if (Ascii.eqb c' "+" || Ascii.eqb c' "-")%bool
                               then (String c' "", r'') else ("", r)
                           | EmptyString => ("", r)
                           end in
                         let '(e, t) := span_digits r' in
                         if String.eqb e "" then None
                         else Some (String c "" +:+ sg +:+ e, t)
                       else Some ("", s3)
                   | EmptyString => Some ("", s3)
                   end in
                 match exp with
                 | None => None
                 | Some (e, s4) => Some (sign +:+ int +:+ f +:+ e, s4)
                 end
             end
         end)
      with
      | Some (m, t) => Some (m, t +:+ rest)
      | None => None
      end).
  { intros sign s1. rewrite Hspan. destruct (span_digits s1) as [int s2].
    cbn [fst snd]. destruct int as [|d more]; [reflexivity|].
    destruct (Ascii.eqb d "0" && negb (String.eqb more ""))%bool; [reflexivity|].
    cbn zeta. destruct s2 as [|c2 r2].
    - change ("" +:+ rest) with rest.
      destruct Hrest as [->|(r & [->|[->| ->]])]; reflexivity.
    - change (String c2 r2 +:+ rest) with (String c2 (r2 +:+ rest)). lazy beta iota.
      destruct (Ascii.eqb c2 ".").
      + rewrite Hspan. destruct (span_digits r2) as [f t]. cbn [fst snd].
        destruct (String.eqb f ""); [reflexivity|].
        exact (Hexp sign (String d more) ("." +:+ f) t).
      + exact (Hexp sign (String d more) "" (String c2 r2)). }
  destruct s as [|c r].
  - change ("" +:+ rest) with rest.
    destruct Hrest as [->|(r & [->|[->| ->]])]; reflexivity.
  - change (String c r +:+ rest) with (String c (r +:+ rest)). lazy beta iota.
    destruct (Ascii.eqb c "-").
    + exact (Hbody "-" r).
    + exact (Hbody "" (String c r)).
Qed.

Lemma length_append (a b : string) :
  String.length (a +:+ b) = (String.length a + String.length b)%nat.
Proof.
  induction a as [|x a IH]; [reflexivity|].
  change (String x a +:+ b) with (String x (a +:+ b)). cbn [String.length].
  rewrite IH. reflexivity.
Qed.

Lemma parse_value_S (f : nat) (s : string) :
  parse_value (S f) s
  = match skip_ws s with
    | EmptyString => None
    | String c r =>
        if Ascii.eqb c "{" then
          match skip_ws r with
          | String c' r' =>
              if Ascii.eqb c' "}" then Some (JObj [], r')
              else parse_members f (skip_ws r) []
          | EmptyString => None
          end
        else if Ascii.eqb c "[" then
          match skip_ws r with
          | String c' r' =>
              if Ascii.eqb c' "]" then Some (JArr [], r')
              else parse_items f r []
          | EmptyString => None
          end
        else if Ascii.eqb c dquote then
          match parse_chars r with
          | Some (t, rest) => Some (JStr t, rest)
          | None => None
          end
        else if (Ascii.eqb c "-" || is_digit c)%bool then
          match parse_number (String c r) with
          | Some (n, rest) => Some (JNum n, rest)
          | None => None
          end
        else
          match strip "true" (String c r), strip "false" (String c r),
                strip "null" (String c r) with
          | Some rest, _, _ => Some (JBool true, rest)
          | _, Some rest, _ => Some (JBool false, rest)
          | _, _, Some rest => Some (JNull, rest)
          | _, _, _ => None
          end
    end.
Proof. reflexivity. Qed.

Lemma parse_items_S (f : nat) (s : string) (acc : list json) :
  parse_items (S f) s acc
  = match parse_value f s with
    | Some (v, r) =>
        match skip_ws r with
        | String c r' =>
            if Ascii.eqb c "," then parse_items f r' (acc ++ [v])
            else if Ascii.eqb c "]" then Some (JArr (acc ++ [v]), r')
            else None
        | EmptyString => None
        end
    | None => None
    end.
Proof. reflexivity. Qed.

Lemma parse_members_S (f : nat) (s : string) (acc : list (string * json)) :
  parse_members (S f) s acc
  = match s with
    | String q r =>
        if Ascii.eqb q dquote then
          match parse_chars r with
          | Some (k, r1) =>
              match skip_ws r1 with
              | String c r2 =>
                  if Ascii.eqb c ":" then
                    match parse_value f r2 with
                    | Some (v, r3) =>
                        match skip_ws r3 with
                        | String c' r4 =>
                            if Ascii.eqb c' "," then
                              parse_members f (skip_ws r4) (props_set k v acc)
                            else if Ascii.eqb c' "}" then
                              Some (JObj (props_set k v acc), r4)
                            else None
                        | EmptyString => None
                        end
                    | None => None
                    end
                  else None
              | EmptyString => None
              end
          | None => None
          end
        else None
    | EmptyString => None
    end.
Proof. reflexivity. Qed.

Lemma number_head (c : ascii) :
  (Ascii.eqb c "-" || is_digit c)%bool = true ->
  is_ws c = false /\ Ascii.eqb c "{" = false /\ Ascii.eqb c "[" = false
  /\ Ascii.eqb c dquote = false /\ Ascii.eqb c "]" = false.
Proof.
  destruct c as [[] [] [] [] [] [] [] []]; cbn; intros H;
    try discriminate; auto.
Qed.

Lemma written_number_head (n : string) :
  written_number n = true ->
  parse_number n = Some (n, "")
  /\ exists c r, n = String c r /\ (Ascii.eqb c "-" || is_digit c)%bool = true.
Proof.
  unfold written_number. intros H.
  destruct (parse_number n) as [[m rest]|] eqn:E; [|discriminate].
  apply andb_true_iff in H as [H _]. apply andb_true_iff in H as [H1 H2].
  apply String.eqb_eq in H1, H2. subst m rest. split; [reflexivity|].
  destruct n as [|c r]; [discriminate|]. exists c, r. split; [reflexivity|].
  unfold parse_number in E.
  destruct (Ascii.eqb c "-"); [reflexivity|].
  cbn [span_digits] in E. destruct (is_digit c); [reflexivity|discriminate].
Qed.

(** A document is written with a first character that is neither white
    space nor a closing bracket. *)
Lemma stringify_head (v : json) :
  document v = true ->
  exists c r, JSON_stringify v = String c r
              /\ is_ws c = false /\ Ascii.eqb c "]" = false.
Proof.
  destruct v as [ |[]|n|s|l|ps]; intros Hd;
    try (eexists _, _; repeat apply conj; reflexivity).
  apply written_number_head in Hd as (_ & c & r & -> & Hc).
  apply number_head in Hc as (? & ? & ? & ? & ?).
  exists c, r. auto.
Qed.

Lemma skip_ws_head (c : ascii) (r : string) :
  is_ws c = false -> skip_ws (String c r) = String c r.
Proof. intros H. cbn [skip_ws]. rewrite H. reflexivity. Qed.

Lemma props_set_fresh (k : string) (v : json) (acc : list (string * json)) :
  existsb (String.eqb k) (map fst acc) = false ->
  props_set k v acc = (acc ++ [(k, v)])%list.
Proof.
  induction acc as [|[k' v'] acc IH]; [reflexivity|].
  cbn. intros H. apply orb_false_iff in H as [H1 H2].
  rewrite H1, IH by assumption. reflexivity.
Qed.

Lemma parse_items_stringify (l : list json) :
  l <> [] ->
  Forall (fun v =>
            forall (fuel : nat) (rest : string),
              closes rest = true ->
              (2 * String.length (JSON_stringify v) <= fuel)%nat ->
              parse_value fuel (JSON_stringify v +:+ rest) = Some (v, rest)) l ->
  forall (acc : list json) (fuel : nat) (rest : string),
    (2 * String.length (stringify_items l) + 1 <= fuel)%nat ->
    parse_items fuel (stringify_items l +:+ String "]" rest) acc
    = Some (JArr (acc ++ l)%list, rest).
Proof.
  intros Hne Hall. induction Hall as [|x l Hx Hall IH]; [contradiction|].
  intros acc fuel rest Hfuel. destruct fuel as [|f]; [lia|].
  rewrite parse_items_S. destruct l as [|y l'].
  - cbn [stringify_items] in *.
    rewrite Hx by (try reflexivity; lia). reflexivity.
  - change (stringify_items (x :: y :: l'))
      with (JSON_stringify x +:+ "," +:+ stringify_items (y :: l')) in *.
    rewrite !length_append in Hfuel. cbn [String.length] in Hfuel.
    rewrite !append_assoc.
    change ("," +:+ stringify_items (y :: l') +:+ String "]" rest)
      with (String "," (stringify_items (y :: l') +:+ String "]" rest)).
    rewrite Hx by (try reflexivity; lia).
    rewrite skip_ws_head by reflexivity. lazy beta iota.
    change (Ascii.eqb "," ",") with true. lazy beta iota.
    rewrite IH by (try discriminate; lia).
    rewrite <- app_assoc. reflexivity.
Qed.

Lemma distinct_NoDup (l : list string) : distinct l = true -> NoDup l.
Proof.
  induction l as [|k l IH]; [constructor|].
  cbn. intros H. apply andb_true_iff in H as [H1 H2].
  constructor; [|apply IH, H2].
  intros Hin. apply negb_true_iff in H1.
  assert (existsb (String.eqb k) l = true); [|congruence].
  apply existsb_exists. exists k. split; [|apply String.eqb_refl].
  apply list_elem_of_In. exact Hin.
Qed.

Lemma existsb_fresh (k : string) (l : list string) :
  k ∉ l -> existsb (String.eqb k) l = false.
Proof.
  intros Hk. destruct (existsb (String.eqb k) l) eqn:E; [|reflexivity].
  apply existsb_exists in E as (x & Hin & Heq).
  apply String.eqb_eq in Heq. subst x. apply list_elem_of_In in Hin.
  contradiction.
Qed.

Lemma skip_ws_props (ps : list (string * json)) (tail : string) :
  ps <> [] ->
  skip_ws (stringify_props ps +:+ tail) = stringify_props ps +:+ tail.
Proof.
  destruct ps as [|[k x] [|kv ps]]; [contradiction| |]; reflexivity.
Qed.

Lemma parse_members_stringify (ps : list (string * json)) :
  ps <> [] ->
  Forall (fun kv =>
            forall (fuel : nat) (rest : string),
              closes rest = true ->
              (2 * String.length (JSON_stringify (snd kv)) <= fuel)%nat ->
              parse_value fuel (JSON_stringify (snd kv) +:+ rest)
              = Some (snd kv, rest)) ps ->
  forall (acc : list (string * json)) (fuel : nat) (rest : string),
    NoDup (map fst acc ++ map fst ps) ->
    (2 * String.length (stringify_props ps) + 1 <= fuel)%nat ->
    parse_members fuel (stringify_props ps +:+ String "}" rest) acc
    = Some (JObj (acc ++ ps)%list, rest).
Proof.
  intros Hne Hall. induction Hall as [|[k x] l Hx Hall IH]; [contradiction|].
  intros acc fuel rest Hnd Hfuel. destruct fuel as [|f]; [lia|].
  rewrite parse_members_S. cbn [snd] in Hx.
  assert (Hk : props_set k x acc = (acc ++ [(k, x)])%list).
  { apply props_set_fresh, existsb_fresh. intros Hin.
    apply NoDup_app in Hnd as (_ & Hd & _). apply (Hd k Hin). cbn. left. }
  destruct l as [|y l'].
  - change (stringify_props [(k, x)])
      with (quote k +:+ ":" +:+ JSON_stringify x) in *.
    rewrite !length_append in Hfuel. cbn [String.length] in Hfuel.
    rewrite !append_assoc.
    destruct (parse_chars_quote k (":" +:+ JSON_stringify x +:+ String "}" rest))
      as (tail & -> & ->).
    change (Ascii.eqb dquote dquote) with true. lazy beta iota.
    change (":" +:+ JSON_stringify x +:+ String "}" rest)
      with (String ":" (JSON_stringify x +:+ String "}" rest)).
    rewrite skip_ws_head by reflexivity. lazy beta iota.
    change (Ascii.eqb ":" ":") with true. lazy beta iota.
    rewrite Hx by (try reflexivity; lia).
    rewrite skip_ws_head by reflexivity. lazy beta iota.
    change (Ascii.eqb "}" ",") with false.
    change (Ascii.eqb "}" "}") with true. lazy beta iota.
    rewrite Hk. reflexivity.
  - change (stringify_props ((k, x) :: y :: l'))
      with (quote k +:+ ":" +:+ JSON_stringify x +:+ ","
            +:+ stringify_props (y :: l')) in *.
    rewrite !length_append in Hfuel. cbn [String.length] in Hfuel.
    rewrite !append_assoc.
    destruct (parse_chars_quote k
                (":" +:+ JSON_stringify x +:+ ","
                 +:+ stringify_props (y :: l') +:+ String "}" rest))
      as (tail & -> & ->).
    change (Ascii.eqb dquote dquote) with true. lazy beta iota.
    change (":" +:+ JSON_stringify x +:+ ","
            +:+ stringify_props (y :: l') +:+ String "}" rest)
      with (String ":" (JSON_stringify x
                        +:+ String "," (stringify_props (y :: l')
                                        +:+ String "}" rest))).
    rewrite skip_ws_head by reflexivity. lazy beta iota.
    change (Ascii.eqb ":" ":") with true. lazy beta iota.
    rewrite Hx by (try reflexivity; lia).
    rewrite skip_ws_head by reflexivity. lazy beta iota.
    change (Ascii.eqb "," ",") with true. lazy beta iota.
    rewrite skip_ws_props by discriminate.
    rewrite Hk, IH.
    + rewrite <- app_assoc. reflexivity.
    + discriminate.
    + rewrite map_app, <- app_assoc. exact Hnd.
    + lia.
Qed.

Lemma parse_value_stringify (v : json) :
  document v = true ->
  forall (fuel : nat) (rest : string),
    closes rest = true ->
    (2 * String.length (JSON_stringify v) <= fuel)%nat ->
    parse_value fuel (JSON_stringify v +:+ rest) = Some (v, rest).
Proof.
  induction v as [ |b|n|s|l IH|ps IH] using json_induction;
    intros Hd fuel rest Hc Hfuel.
  - destruct fuel as [|f]; [cbn in Hfuel; lia|]. reflexivity.
  - destruct fuel as [|f]; [destruct b; cbn in Hfuel; lia|].
    destruct b; reflexivity.
  - cbn [document] in Hd.
    apply written_number_head in Hd as (Hp & c & r & -> & Hh).
    destruct fuel as [|f]; [cbn in Hfuel; lia|].
    pose proof (number_head c Hh) as (Hws & H1 & H2 & H3 & _).
    rewrite parse_value_S. cbn [JSON_stringify].
    change (String c r +:+ rest) with (String c (r +:+ rest)).
    rewrite skip_ws_head by assumption. lazy beta iota.
    rewrite H1, H2, H3, Hh.
    change (String c (r +:+ rest)) with (String c r +:+ rest).
    rewrite parse_number_app, Hp by assumption. reflexivity.
  - destruct fuel as [|f]; [cbn in Hfuel; lia|].
    rewrite parse_value_S. cbn [JSON_stringify].
    destruct (parse_chars_quote s rest) as (tail & -> & Ht).
    rewrite skip_ws_head by reflexivity. lazy beta iota.
    change (Ascii.eqb dquote "{") with false.
    change (Ascii.eqb dquote "[") with false.
    change (Ascii.eqb dquote dquote) with true. lazy beta iota.
    rewrite Ht. reflexivity.
  - rewrite stringify_array in *. cbn [document] in Hd.
    rewrite !length_append in Hfuel. cbn [String.length] in Hfuel.
    destruct fuel as [|f]; [lia|].
    rewrite parse_value_S, !append_assoc.
    change ("[" +:+ stringify_items l +:+ "]" +:+ rest)
      with (String "[" (stringify_items l +:+ String "]" rest)).
    rewrite skip_ws_head by reflexivity. lazy beta iota.
    change (Ascii.eqb "[" "{") with false.
    change (Ascii.eqb "[" "[") with true. lazy beta iota.
    destruct l as [|x l]; [reflexivity|].
    assert (Hall : Forall (fun v =>
              forall (fuel : nat) (rest : string),
                closes rest = true ->
                (2 * String.length (JSON_stringify v) <= fuel)%nat ->
                parse_value fuel (JSON_stringify v +:+ rest) = Some (v, rest))
              (x :: l)).
    { apply Forall_forall. intros y Hy. rewrite Forall_forall in IH.
      apply IH; [exact Hy|].
      rewrite forallb_forall in Hd. apply Hd, list_elem_of_In, Hy. }
    assert (Hx : document x = true).
    { cbn [forallb] in Hd. apply andb_true_iff in Hd as [Hd _]. exact Hd. }
    destruct (stringify_head x Hx) as (c & r & Hs & Hws & Hb).
    assert (Hhead : exists r', stringify_items (x :: l) +:+ String "]" rest
                               = String c r').
    { destruct l as [|y l'].
      - cbn [stringify_items]. rewrite Hs. eexists. reflexivity.
      - change (stringify_items (x :: y :: l'))
          with (JSON_stringify x +:+ "," +:+ stringify_items (y :: l')).
        rewrite Hs. eexists. reflexivity. }
    destruct Hhead as (r' & Hr'). rewrite Hr'.
    rewrite skip_ws_head by assumption. lazy beta iota. rewrite Hb.
    rewrite <- Hr'.
    rewrite (parse_items_stringify (x :: l)) by (try discriminate; auto; lia).
    reflexivity.
  - rewrite stringify_object in *. cbn [document] in Hd.
    apply andb_true_iff in Hd as [Hnd Hd].
    rewrite !length_append in Hfuel. cbn [String.length] in Hfuel.
    destruct fuel as [|f]; [lia|].
    rewrite parse_value_S, !append_assoc.
    change ("{" +:+ stringify_props ps +:+ "}" +:+ rest)
      with (String "{" (stringify_props ps +:+ String "}" rest)).
    rewrite skip_ws_head by reflexivity. lazy beta iota.
    change (Ascii.eqb "{" "{") with true. lazy beta iota.
    destruct ps as [|[k x] ps]; [reflexivity|].
    assert (Hall : Forall (fun kv =>
              forall (fuel : nat) (rest : string),
                closes rest = true ->
                (2 * String.length (JSON_stringify (snd kv)) <= fuel)%nat ->
                parse_value fuel (JSON_stringify (snd kv) +:+ rest)
                = Some (snd kv, rest))
              ((k, x) :: ps)).
    { apply Forall_forall. intros y Hy. rewrite Forall_forall in IH.
      apply IH; [exact Hy|].
      rewrite forallb_forall in Hd. apply Hd, list_elem_of_In, Hy. }
    rewrite skip_ws_props by discriminate.
    assert (Hhead : exists r', stringify_props ((k, x) :: ps) +:+ String "}" rest
                               = String dquote r').
    { destruct ps as [|y l']; eexists; reflexivity. }
    destruct Hhead as (r' & Hr'). rewrite Hr'.
    change (Ascii.eqb dquote "}") with false. lazy beta iota.
    rewrite <- Hr'.
    rewrite (parse_members_stringify ((k, x) :: ps));
      try discriminate; auto; try lia.
    apply distinct_NoDup. exact Hnd.
Qed.

Lemma JSON_parse_stringify (v : json) :
  document v = true -> JSON_parse (JSON_stringify v) = Some v.
Proof.
  intros Hd. unfold JSON_parse.
  pose proof (parse_value_stringify v Hd
                (2 * String.length (JSON_stringify v) + 2) "" eq_refl
                ltac:(lia)) as H.
  rewrite append_nil in H. rewrite H. reflexivity.
Qed.

Lemma toString_from (s : string) : Buffer_toString (Buffer_from s) = s.
Proof. apply string_of_list_byte_of_string. Qed.

Lemma decode_encode (node : json) :
  document node = true ->
  BinaryDecoder_decode (BinaryEncoder_encode node) = D_json node.
Proof.
  intros Hd. unfold BinaryDecoder_decode, BinaryEncoder_encode.
  rewrite toString_from, JSON_parse_stringify by assumption. reflexivity.
Qed.

(** *** The codec round trip *)

(** X13.  The codec round trip: for every document (numbers written as
    [JSON.stringify] writes them, no object with two properties of one
    name), [BinaryDecoder.decode(BinaryEncoder.encode(node))] is [node],
    and [JSON.parse(JSON.stringify(node))] is [node]. *)
Theorem decode_encode_round_trip (node : json) :
  document node = true ->
  BinaryDecoder_decode (BinaryEncoder_encode node) = D_json node
  /\ JSON_parse (JSON_stringify node) = Some node.
Proof.
  intros Hd. split; [apply decode_encode|apply JSON_parse_stringify]; exact Hd.
Qed.

Lemma decode_encode_round_trip_witness :
  document msg_success = true
  /\ BinaryDecoder_decode (BinaryEncoder_encode msg_success) = D_json msg_success.
Proof.
  assert (H : document msg_success = true) by reflexivity.
  split; [exact H|]. exact (proj1 (decode_encode_round_trip msg_success H)).
Defined.

Lemma props_set_keys (k : string) (v : json) (ps : list (string * json)) :
  map fst (props_set k v ps)
  = if existsb (String.eqb k) (map fst ps) then map fst ps
    else (map fst ps ++ [k])%list.
Proof.
  induction ps as [|[k' v'] ps IH]; [reflexivity|].
  cbn. destruct (String.eqb_spec k k') as [->|Hne]; cbn.
  - reflexivity.
  - rewrite IH. destruct (existsb _ _); reflexivity.
Qed.

Lemma distinct_snoc (l : list string) (k : string) :
  distinct l = true -> existsb (String.eqb k) l = false ->
  distinct (l ++ [k]) = true.
Proof.
  induction l as [|x l IH]; [reflexivity|].
  cbn. intros H Hk. apply andb_true_iff in H as [H1 H2].
  apply orb_false_iff in Hk as [Hk1 Hk2].
  rewrite IH by assumption. rewrite andb_true_r.
  rewrite existsb_app. cbn. rewrite orb_false_r.
  apply negb_true_iff in H1. rewrite H1. cbn.
  rewrite String.eqb_sym, Hk1. reflexivity.
Qed.

Lemma props_set_values (k : string) (v : json) (ps : list (string * json)) :
  document v = true ->
  forallb (fun kv => document (snd kv)) ps = true ->
  forallb (fun kv => document (snd kv)) (props_set k v ps) = true.
Proof.
  intros Hv. induction ps as [|[k' v'] ps IH]; cbn.
  - intros _. rewrite Hv. reflexivity.
  - intros H. apply andb_true_iff in H as [H1 H2].
    destruct (String.eqb k k'); cbn.
    + rewrite Hv, H2. reflexivity.
    + rewrite H1, IH by assumption. reflexivity.
Qed.

Lemma set_tag_document (ps : list (string * json)) (tag : string) :
  document (JObj ps) = true ->
  document (JObj (props_set "tag" (JStr tag) ps)) = true.
Proof.
  cbn [document]. intros H. apply andb_true_iff in H as [H1 H2].
  rewrite props_set_values by (try reflexivity; assumption).
  rewrite props_set_keys.
  destruct (existsb _ _) eqn:E; [rewrite H1; reflexivity|].
  rewrite distinct_snoc by assumption. reflexivity.
Qed.

Lemma props_get_set (k : string) (v : json) (ps : list (string * json)) :
  props_get k (props_set k v ps) = Some v.
Proof.
  induction ps as [|[k' v'] ps IH]; cbn.
  - rewrite String.eqb_refl. reflexivity.
  - destruct (String.eqb k k') eqn:E; cbn.
    + rewrite String.eqb_refl. reflexivity.
    + rewrite E. exact IH.
Qed.

(** *** Frames on the wire *)

(** X14.  What [sendBinary] writes is what it registered.  For a node
    that is an object, on an open socket, the frame it writes, read from
    offset 6, decodes to the node with its tag, the tag of the decoded
    node is the key under which the new pending promise is registered,
    and that promise is the one [sendBinary] returns.  A node that is
    [null], a string, a number or a boolean cannot take the tag:
    [sendBinary] is rejected with the [TypeError] of the assignment after
    the tag was generated, and nothing is written or registered. *)
Theorem sendBinary_frame_decodes (props : list (string * json))
    (timeout : option Z) (c : Client) :
  ws c = Some WS_OPEN ->
  document (JObj props) = true ->
  let tag := message_tag (now c) (messageTagCounter c) in
  let node := JObj (props_set "tag" (JStr tag) props) in
  let c' := snd (sendBinary (JObj props) None timeout c) in
  fst (sendBinary (JObj props) None timeout c) = Normal (nextPromise c)
  /\ wire c' = (wire c ++ [binary_frame node])%list
  /\ BinaryDecoder_decode (Buffer_slice 6 (binary_frame node)) = D_json node
  /\ get_prop node "tag" = Normal (Some (JStr tag))
  /\ callbacks c' !! tag = Some (nextTimer c, nextPromise c)
  /\ promises c' !! nextPromise c = Some Pending
  /\ (forall primitive : json,
        match primitive with
        | JObj _ | JArr _ => False
        | _ => True
        end ->
        exists e : string,
          sendBinary primitive None timeout c
          = (Throw e,
             with_messageTagCounter (js_incr (messageTagCounter c)) c)).
Proof.
  intros Hws Hd. cbn zeta.
  assert (Hdec : forall x : json,
            document x = true ->
            BinaryDecoder_decode (Buffer_slice 6 (binary_frame x)) = D_json x).
  { intros x Hx.
    change (Buffer_slice 6 (binary_frame x))
      with (BinaryEncoder_encode x ++ [])%list.
    rewrite app_nil_r. exact (decode_encode x Hx). }
  unfold sendBinary, ws_not_open. rewrite Hws.
  repeat apply conj.
  1-6: unfold set_tag; repeat split_match; cbn [fst snd]; fields;
    try reflexivity;
    try (apply Hdec, set_tag_document, Hd);
    try apply lookup_insert_eq;
    cbn; rewrite props_get_set; reflexivity.
  intros [ |b|n|s|l|ps] Hp; try contradiction;
    eexists; reflexivity.
Qed.

(** X15.  An inbound frame with the four-byte header [processMessage]
    reads (magic, kind byte 6, one more byte) followed by a serialized
    document is decoded to that document and handed to
    [_processJsonMessage]; an error it throws is logged. *)
Theorem inbound_document_is_dispatched (m : json) (c : Client) :
  document m = true ->
  BinaryDecoder_decode (Buffer_slice 4 (inbound_frame m)) = D_json m
  /\ processMessage (inbound_frame m) c
     = (Normal tt,
        match _processJsonMessage m (log "Received JSON message:" c) with
        | (Normal _, c') => c'
        | (Throw _, c') => log "Error parsing JSON message:" c'
        end).
Proof.
  intros Hd.
  assert (Hs : Buffer_slice 4 (inbound_frame m) = BinaryEncoder_encode m).
  { change (Buffer_slice 4 (inbound_frame m))
      with (BinaryEncoder_encode m ++ [])%list. apply app_nil_r. }
  split; [rewrite Hs; apply decode_encode, Hd|].
  unfold processMessage. rewrite Hs.
  change (length (inbound_frame m))
    with (S (S (S (S (length (Buffer_from (JSON_stringify m) ++ [])%list))))).
  change (Buffer_at (inbound_frame m) 0) with (Some x57).
  change (Buffer_at (inbound_frame m) 1) with (Some x41).
  change (Buffer_at (inbound_frame m) 2) with (Some x06).
  cbn -[JSON_parse _processJsonMessage log JSON_stringify].
  unfold BinaryEncoder_encode. rewrite toString_from, JSON_parse_stringify by exact Hd.
  destruct (_processJsonMessage m _) as [[u|e] c']; reflexivity.
Qed.

Lemma inbound_document_is_dispatched_witness :
  document msg_success = true
  /\ BinaryDecoder_decode (Buffer_slice 4 (inbound_frame msg_success))
     = D_json msg_success.
Proof.
  assert (H : document msg_success = true) by reflexivity.
  split; [exact H|].
  exact (proj1 (inbound_document_is_dispatched msg_success fresh_client H)).
Defined.

Lemma sendBinary_frame_decodes_witness :
  ws busy_client = Some WS_OPEN
  /\ document (JObj [("id", JStr "y")]) = true
  /\ fst (sendBinary (JObj [("id", JStr "y")]) None None busy_client)
     = Normal 1%nat.
Proof.
  assert (H1 : ws busy_client = Some WS_OPEN) by (vm_compute; reflexivity).
  assert (H2 : document (JObj [("id", JStr "y")]) = true) by reflexivity.
  split; [exact H1|]. split; [exact H2|].
  exact (proj1 (sendBinary_frame_decodes [("id", JStr "y")] None
                  busy_client H1 H2)).
Defined.

(** *** The registry and the promises *)

Lemma calm_refl (c : Client) : calm c c.
Proof. intros Hwf. repeat apply conj; auto. Qed.

Lemma calm_trans (c1 c2 c3 : Client) :
  quiet c1 c2 -> calm c1 c2 -> calm c2 c3 -> calm c1 c3.
Proof.
  intros (_ & _ & Hq & _) H12 H23 Hwf.
  destruct (H12 Hwf) as (Hc & Hp & Hn & Hs & Ht).
  destruct (H23 (Hq Hwf)) as (Hc' & Hp' & Hn' & Hs' & Ht').
  repeat apply conj; try congruence; auto.
  intros id x tag p Ha. rewrite (Ht' id x tag p Ha). exact (Ht id x tag p Ha).
Qed.

Lemma calm_registered (c c' : Client) :
  calm c c' -> wf c -> registered c -> registered c'.
Proof.
  intros Hcalm Hwf [Hp Ht Hu Hts Hs].
  destruct (Hcalm Hwf) as (Hc & Hpr & Hn & Hsd & Htm).
  constructor; rewrite ?Hc, ?Hpr, ?Hn.
  - exact Hp.
  - intros tag t p Hl. destruct (Ht tag t p Hl) as [x Hx].
    exists x. apply (Htm t x tag p); [|exact Hx].
    destruct (wf_callbacks c Hwf tag t p Hl) as [_ Hact]. apply Hact, Hx.
  - exact Hu.
  - intros id x tag p Hl Ha. apply (Hts id x tag p); [|exact Ha].
    apply (Htm id x tag p Ha), Hl.
  - intros i timeout tag p Hl. apply (Hs i timeout tag p), Hsd, Hl.
Qed.

(** [calm_direct] proves that a client after field updates and runtime
    services that arm and clear no timeout of a request is calm. *)
Ltac other_timer Hwf Hl Ha :=
  first
    [ lia
    | intros <-;
      match goal with
      | H : reconnectTimer _ = Some _ |- _ =>
          pose proof (proj2 (wf_reconnect _ Hwf _ H) _ Hl); congruence
      | H : qrRefreshTimer _ = Some _ |- _ =>
          pose proof (proj2 (wf_qr _ Hwf _ H) _ Hl); congruence
      | H : timers _ !! _ = Some _ |- _ =>
          rewrite H in Hl; injection Hl as <-; congruence
      end ].

Ltac calm_clause Hwf :=
  lazymatch goal with
  | |- forall (i t : nat) (tag : string) (p : nat), _ !! i = Some _ -> _ =>
      let Hl := fresh "Hl" in
      intros ? ? ? ? Hl;
      repeat first
        [ apply lookup_delete_Some in Hl as [? Hl]
        | apply lookup_insert_Some in Hl as [[? Hl]|[? Hl]]; [discriminate Hl|] ];
      exact Hl
  | |- forall (id : nat) (x : Timer) (tag : string) (p : nat), _ -> _ <-> _ =>
      let Hl := fresh "Hl" in
      let Ha := fresh "Ha" in
      intros ? ? ? ? Ha; split; intros Hl;
      [ repeat first
          [ apply lookup_delete_Some in Hl as [? Hl]
          | apply lookup_insert_Some in Hl as [[? <-]|[? Hl]];
            [cbn in Ha; discriminate Ha|] ];
        exact Hl
      | pose proof (wf_timers _ Hwf _ _ Hl);
        repeat first
          [ rewrite lookup_insert_ne by other_timer Hwf Hl Ha
          | rewrite lookup_delete_ne by other_timer Hwf Hl Ha ];
        exact Hl ]
  end.

Ltac calm_direct Hwf :=
  fields; repeat apply conj; try reflexivity; calm_clause Hwf.

Lemma scheduleReconnect_calm (c : Client) : calm c (_scheduleReconnect c).
Proof.
  intros Hwf. unfold _scheduleReconnect. repeat split_match; calm_direct Hwf.
Qed.

Lemma disconnect_calm (c : Client) : calm c (disconnect c).
Proof.
  intros Hwf. unfold disconnect. repeat split_match; calm_direct Hwf.
Qed.

Lemma connect_calm (c : Client) : calm c (connect c).
Proof.
  unfold connect, generateKeys.
  repeat split_match;
    try (eapply calm_trans; [| |apply scheduleReconnect_calm]; [same|]);
    intros Hwf; calm_direct Hwf.
Qed.

Lemma restoreSession_calm (s : Session) (c : Client) :
  calm c (restoreSession s c).
Proof.
  unfold restoreSession.
  eapply calm_trans; [| |apply connect_calm].
  - split_match; [eapply evolves_trans; [apply disconnect_quiet|]|]; same.
  - split_match.
    + eapply calm_trans; [apply disconnect_quiet|apply disconnect_calm|].
      intros Hwf; calm_direct Hwf.
    + intros Hwf; calm_direct Hwf.
Qed.

Lemma requestPairingCode_calm (phone : string) (c : Client) :
  calm c (requestPairingCode phone c).
Proof.
  intros Hwf.
  unfold requestPairingCode, ensure_pairing_keys, Pairing_generateKeys, sendJSON.
  repeat split_match; calm_direct Hwf.
Qed.

Lemma handlePairingCodeResponse_calm (data : json) (c : Client) :
  calm c (snd (handlePairingCodeResponse data c)).
Proof.
  intros Hwf. unfold handlePairingCodeResponse.
  repeat split_match; cbn [snd]; calm_direct Hwf.
Qed.

Lemma onWebSocketOpen_calm (c : Client) :
  calm c (_onWebSocketOpen (socket_becomes WS_OPEN c)).
Proof.
  intros Hwf.
  unfold _onWebSocketOpen, sendInitialMessage, sendJSON, socket_becomes.
  repeat split_match; cbn [snd]; calm_direct Hwf.
Qed.

Lemma onWebSocketClose_calm (code : Z) (reason : string) (c : Client) :
  calm c (_onWebSocketClose code reason (socket_becomes WS_CLOSED c)).
Proof.
  unfold _onWebSocketClose, socket_becomes.
  repeat split_match;
    try (eapply calm_trans; [| |apply scheduleReconnect_calm]; [same|]);
    intros Hwf; calm_direct Hwf.
Qed.

Lemma handleAuthSuccess_calm (data : json) (c : Client) :
  calm c (snd (handleAuthSuccess data c)).
Proof.
  intros Hwf. unfold handleAuthSuccess.
  repeat split_match; cbn [snd]; calm_direct Hwf.
Qed.

Lemma processJsonMessage_calm (m : json) (c : Client) :
  calm c (snd (_processJsonMessage m c)).
Proof.
  unfold _processJsonMessage.
  destruct (get_prop m "status") as [status|e]; [|apply calm_refl].
  repeat split_match; cbn [snd];
    try (eapply calm_trans; [| |apply handleAuthSuccess_calm]; [same|]);
    intros Hwf; unfold handleQRCode, generateKeys;
    repeat split_match; calm_direct Hwf.
Qed.

Lemma handleQRCode_rendered_calm (err : option string) (c : Client) :
  calm c (handleQRCode_rendered err c).
Proof.
  intros Hwf. unfold handleQRCode_rendered.
  repeat split_match; calm_direct Hwf.
Qed.

Lemma registered_tracked (c c' : Client) :
  tracked c' = tracked c -> registered c -> registered c'.
Proof.
  unfold tracked. intros Heq [Hp Ht Hu Hts Hs].
  injection Heq as Ho Hrc' Hk' Hc' Ht' Hn' Hp' Hnp' Hs' Hr' Hq'.
  constructor; rewrite ?Hc', ?Ht', ?Hp', ?Hnp', ?Hs'; assumption.
Qed.

Lemma sendBinary_registered (node : json) (timeout : option Z) (c : Client) :
  wf c -> registered c -> registered (snd (sendBinary node None timeout c)).
Proof.
  intros Hwf [Hp Ht Hu Hts Hs]. unfold sendBinary.
  destruct (ws_not_open c); [constructor; assumption|].
  assert (Hold : forall tag t p, callbacks c !! tag = Some (t, p) ->
                                 (p < nextPromise c)%nat /\ (t < nextTimer c)%nat).
  { intros tag t p Hl. split.
    - exact (wf_promises c Hwf p _ (Hp tag t p Hl)).
    - exact (proj1 (wf_callbacks c Hwf tag t p Hl)). }
  match goal with
  | |- context [inject_Z ?d] => generalize d; intros delay
  end.
  repeat split_match; cbn [snd]; [|constructor; fields; assumption].
  constructor; fields.
  - intros tag' t' p' Hl.
    apply lookup_insert_Some in Hl as [[<- [= <- <-]]|[Hne Hl]].
    + apply lookup_insert_eq.
    + destruct (Hold _ _ _ Hl).
      apply lookup_insert_Some. right. split; [lia|eauto].
  - intros tag' t' p' Hl.
    apply lookup_insert_Some in Hl as [[<- [= <- <-]]|[Hne Hl]].
    + eexists. apply lookup_insert_eq.
    + destruct (Hold _ _ _ Hl). destruct (Ht _ _ _ Hl) as [x Hx].
      exists x. apply lookup_insert_Some. right. split; [lia|exact Hx].
  - intros tag1 tag2 t1 t2 p' Hl1 Hl2.
    apply lookup_insert_Some in Hl1 as [[<- [= <- <-]]|[Hne1 Hl1]];
      apply lookup_insert_Some in Hl2 as [[<- Heq]|[Hne2 Hl2]];
      try reflexivity.
    + destruct (Hold _ _ _ Hl2). lia.
    + injection Heq as <- <-. destruct (Hold _ _ _ Hl1). lia.
    + eauto.
  - intros id x tag' p' Hl Ha.
    apply lookup_insert_Some in Hl as [[<- <-]|[Hne Hl]].
    + cbn in Ha. injection Ha as <- <-. split; [lia|].
      intros tag2 t2 Hl2.
      apply lookup_insert_Some in Hl2 as [[<- _]|[_ Hl2]]; [reflexivity|].
      destruct (Hold _ _ _ Hl2). lia.
    + destruct (Hts id x tag' p' Hl Ha) as [Hlt Hown]. split; [lia|].
      intros tag2 t2 Hl2.
      apply lookup_insert_Some in Hl2 as [[<- [= _ Hpn]]|[_ Hl2]]; [lia|eauto].
  - intros i tm tag' p' Hl.
    apply lookup_insert_Some in Hl as [[<- [= <- <- <-]]|[Hne Hl]].
    + split; [lia|]. intros tag2 t2 Hl2.
      apply lookup_insert_Some in Hl2 as [[<- _]|[_ Hl2]]; [reflexivity|].
      destruct (Hold _ _ _ Hl2). lia.
    + destruct (Hs i tm tag' p' Hl) as [Hlt Hown]. split; [lia|].
      intros tag2 t2 Hl2.
      apply lookup_insert_Some in Hl2 as [[<- [= _ Hpn]]|[_ Hl2]]; [lia|eauto].
Qed.

(** A request leaves the registry: its tag is removed, its timeout is
    cleared and its promise is settled. *)
Lemma unregister_registered (tag : string) (tm p : nat) (r : Settlement)
    (c : Client) :
  wf c -> registered c ->
  (forall (tag' : string) (t' : nat),
     callbacks c !! tag' = Some (t', p) -> tag' = tag) ->
  (forall x : Timer,
     timers c !! tm = Some x -> t_action x = T_responseTimeout tag p) ->
  registered (settle p r (with_callbacks (delete tag (callbacks c))
                            (clearTimeout tm c))).
Proof.
  intros Hwf [Hp Ht Hu Hts Hs] Hown Htm. constructor.
  - intros tag' t' p' Hl. rewrite settle_lookup. fields_in Hl.
    apply lookup_delete_Some in Hl as [Hne Hl].
    destruct (decide (p = p')) as [<-|Hpp].
    + elim Hne. symmetry. exact (Hown _ _ Hl).
    + fields. exact (Hp _ _ _ Hl).
  - intros tag' t' p' Hl. fields_in Hl. fields.
    apply lookup_delete_Some in Hl as [Hne Hl].
    destruct (Ht _ _ _ Hl) as [x Hx]. exists x.
    apply lookup_delete_Some. split; [|exact Hx].
    intros <-. pose proof (Htm x Hx) as Ha.
    rewrite (proj2 (wf_callbacks c Hwf _ _ _ Hl) x Hx) in Ha.
    injection Ha as Ha _. congruence.
  - intros tag1 tag2 t1 t2 p' Hl1 Hl2. fields_in Hl1. fields_in Hl2.
    apply lookup_delete_Some in Hl1 as [_ Hl1].
    apply lookup_delete_Some in Hl2 as [_ Hl2]. eauto.
  - intros id x tag' p' Hl Ha. fields_in Hl. fields.
    apply lookup_delete_Some in Hl as [_ Hl].
    destruct (Hts id x tag' p' Hl Ha) as [Hlt Hown']. split; [exact Hlt|].
    intros tag2 t2 Hl2. apply lookup_delete_Some in Hl2 as [_ Hl2]. eauto.
  - intros i tm' tag' p' Hl. fields_in Hl. fields.
    destruct (Hs i tm' tag' p' Hl) as [Hlt Hown']. split; [exact Hlt|].
    intros tag2 t2 Hl2. apply lookup_delete_Some in Hl2 as [_ Hl2]. eauto.
Qed.

Lemma deliver_registered (m : json) (tag : option json) (c : Client) :
  wf c -> registered c -> registered (deliver m tag c).
Proof.
  intros Hwf Hr. unfold deliver, reply_callback.
  destruct tag as [[ | | |t| | ]|]; try exact Hr.
  destruct (callbacks c !! t) as [[timeout p]|] eqn:Hl; [|exact Hr].
  apply (registered_tracked
           (settle p (Resolved m)
              (with_callbacks (delete t (callbacks c)) (clearTimeout timeout c))));
    [reflexivity|].
  apply unregister_registered; try assumption.
  - intros tag' t' Hl'. exact (rg_unique c Hr _ _ _ _ _ Hl' Hl).
  - exact (proj2 (wf_callbacks c Hwf _ _ _ Hl)).
Qed.

Lemma processBinaryMessage_registered (d : Decoded) (c : Client) :
  wf c -> registered c -> registered (snd (_processBinaryMessage d c)).
Proof.
  intros Hwf Hr. destruct d as [m|raw].
  - destruct (get_prop m "tag") as [tag|e] eqn:Htag.
    + destruct (truthy tag) eqn:Htr.
      * destruct (processBinaryMessage_tail m tag c Htag Htr) as (_ & Heq & _).
        apply (registered_tracked _ _ Heq), deliver_registered; assumption.
      * unfold _processBinaryMessage. rewrite Htag, Htr. cbn [negb snd].
        apply (registered_tracked c); [reflexivity|exact Hr].
    + unfold _processBinaryMessage. rewrite Htag. exact Hr.
  - apply (registered_tracked c); [reflexivity|exact Hr].
Qed.

Lemma delete_timer_calm (id : nat) (t : Timer) (c : Client) :
  timers c !! id = Some t ->
  (forall (tag : string) (p : nat), t_action t <> T_responseTimeout tag p) ->
  calm c (with_timers (delete id (timers c)) c).
Proof.
  intros Hl Hother Hwf. fields. repeat apply conj; try reflexivity.
  - auto.
  - intros id' x tag p Ha. split; intros Hl'.
    + apply lookup_delete_Some in Hl' as [_ Hl']. exact Hl'.
    + apply lookup_delete_Some. split; [|exact Hl'].
      intros <-. rewrite Hl in Hl'. injection Hl' as <-.
      exact (Hother _ _ Ha).
Qed.

Lemma fire_registered (id : nat) (c : Client) :
  wf c -> registered c -> registered (fire id c).
Proof.
  intros Hwf Hr. unfold fire.
  destruct (timers c !! id) as [t|] eqn:Hl; [|exact Hr].
  cbn zeta. destruct (t_action t) as [| | |tag p] eqn:Ha.
  - refine (calm_registered c _ _ Hwf Hr).
    eapply calm_trans;
      [apply (delete_timer_quiet id t c Hl); intros; congruence
      |apply (delete_timer_calm id t c Hl); intros; congruence|].
    unfold reconnect_callback.
    eapply calm_trans; [| |apply connect_calm]; [same|].
    intros Hwf'. calm_direct Hwf'.
  - refine (calm_registered c _ _ Hwf Hr).
    eapply calm_trans;
      [apply (delete_timer_quiet id t c Hl); intros; congruence
      |apply (delete_timer_calm id t c Hl); intros; congruence|].
    unfold qr_expiry_callback. split_match.
    + intros Hwf'. calm_direct Hwf'.
    + eapply calm_trans; [| |apply disconnect_calm].
      * apply quiet_intro; try reflexivity. intros Hwf'. wf_chain.
      * intros Hwf'. calm_direct Hwf'.
  - refine (calm_registered c _ _ Hwf Hr).
    eapply calm_trans;
      [apply (delete_timer_quiet id t c Hl); intros; congruence
      |apply (delete_timer_calm id t c Hl); intros; congruence|].
    unfold ready_callback. split_match; intros Hwf'; calm_direct Hwf'.
  - unfold response_timeout.
    apply (registered_tracked
             (settle p (Rejected "Response timeout")
                (with_callbacks (delete tag (callbacks c)) (clearTimeout id c))));
      [reflexivity|].
    apply unregister_registered; try assumption.
    + exact (proj2 (rg_timers c Hr id t tag p Hl Ha)).
    + intros x Hx. congruence.
Qed.

Lemma sent_registered (id : nat) (error : option string) (c : Client) :
  wf c -> registered c -> registered (sent id error c).
Proof.
  intros Hwf Hr. unfold sent.
  destruct (sends c !! id) as [k|] eqn:Hl; [|exact Hr].
  assert (Hwf' : wf (with_sends (delete id (sends c)) c)) by (apply wf_sent, Hwf).
  assert (Hr' : registered (with_sends (delete id (sends c)) c)).
  { destruct Hr as [Hp Ht Hu Hts Hs]. constructor; fields; try assumption.
    intros i tm tag p Hl'. apply lookup_delete_Some in Hl' as [_ Hl']. eauto. }
  cbn zeta. destruct k as [[|phone]|timeout tag p].
  - exact Hr'.
  - apply (registered_tracked (with_sends (delete id (sends c)) c)); [|exact Hr'].
    unfold requestPairingCode_sent. destruct error; reflexivity.
  - unfold binary_send_done. destruct error as [e|]; [|exact Hr'].
    apply (registered_tracked
             (settle p (Rejected e)
                (with_callbacks
                   (delete tag (callbacks (with_sends (delete id (sends c)) c)))
                   (clearTimeout timeout (with_sends (delete id (sends c)) c)))));
      [reflexivity|].
    apply unregister_registered; try assumption.
    + exact (proj2 (rg_sends c Hr id timeout tag p Hl)).
    + exact (proj2 (wf_sends c Hwf id timeout tag p Hl)).
Qed.

Lemma log_registered (msg : string) (c : Client) :
  registered c -> registered (log msg c).
Proof. apply registered_tracked. reflexivity. Qed.

Lemma log_wf (msg : string) (c : Client) : wf c -> wf (log msg c).
Proof. intros H. apply (wf_same c); [exact H|reflexivity]. Qed.

Lemma onWebSocketMessage_registered (data : Buffer) (c : Client) :
  wf c -> registered c -> registered (snd (_onWebSocketMessage data c)).
Proof.
  intros Hwf Hr.
  assert (H : registered (snd (processMessage data c))).
  { unfold processMessage.
    destruct (_ || _ || _)%bool; [apply log_registered, Hr|].
    cbn zeta. destruct (byte_is _ WA_PREFIX_INFO_0).
    - destruct (JSON_parse _) as [m|]; [|apply log_registered, Hr].
      pose proof (calm_registered _ _
                    (processJsonMessage_calm m (log "Received JSON message:" c))
                    (log_wf _ c Hwf) (log_registered _ c Hr)) as H'.
      destruct (_processJsonMessage m _) as [[u|e] c']; cbn [snd] in *;
        [exact H'|apply log_registered, H'].
    - destruct (byte_is _ WA_PREFIX_BINARY_0); [|apply log_registered, Hr].
      pose proof (processBinaryMessage_registered
                    (BinaryDecoder_decode (Buffer_slice 4 data))
                    (log "Received binary message:" c)
                    (log_wf _ c Hwf) (log_registered _ c Hr)) as H'.
      destruct (_processBinaryMessage _ _) as [[u|e] c']; cbn [snd] in *;
        [exact H'|apply log_registered, H']. }
  unfold _onWebSocketMessage.
  destruct (processMessage data c) as [[u|e] c']; cbn [snd] in *;
    [exact H|apply log_registered, H].
Qed.

Lemma step_registered (i : Input) (c : Client) :
  wf c -> registered c -> registered (step i c).
Proof.
  intros Hwf Hr. destruct i; cbn [step].
  - exact (calm_registered c _ (connect_calm c) Hwf Hr).
  - exact (calm_registered c _ (disconnect_calm c) Hwf Hr).
  - exact (calm_registered c _ (restoreSession_calm s c) Hwf Hr).
  - apply sendBinary_registered; assumption.
  - exact (calm_registered c _ (requestPairingCode_calm phone c) Hwf Hr).
  - exact (calm_registered c _ (handlePairingCodeResponse_calm data c) Hwf Hr).
  - exact (calm_registered c _ (onWebSocketOpen_calm c) Hwf Hr).
  - apply onWebSocketMessage_registered; assumption.
  - apply processBinaryMessage_registered; assumption.
  - exact (calm_registered c _ (onWebSocketClose_calm code reason c) Hwf Hr).
  - apply (registered_tracked c); [reflexivity|exact Hr].
  - apply fire_registered; assumption.
  - apply sent_registered; assumption.
  - exact (calm_registered c _ (handleQRCode_rendered_calm error c) Hwf Hr).
  - apply (registered_tracked c); [reflexivity|exact Hr].
Qed.

Lemma run_registered (l : list Input) (c : Client) :
  wf c -> registered c -> registered (run c l).
Proof.
  induction l as [|i l IH] using rev_ind; intros Hwf Hr; [exact Hr|].
  rewrite run_snoc. apply step_registered; [|apply IH; assumption].
  destruct (run_steady l c) as (_ & _ & Hw & _). exact (Hw Hwf).
Qed.

Lemma new_registered (o : RawOptions) (rand : nat -> byte)
    (curve : Buffer -> Buffer) (err : option string) (clock : Z) :
  registered (new_WhatsApp o rand curve err clock).
Proof.
  constructor; cbn; intros; rewrite lookup_empty in *; discriminate.
Qed.

(** *** The registry holds live requests only *)

(** X16.  The registry holds live requests only: in every reachable
    state, a registered callback waits for a promise that is pending, its
    own timeout timer is armed for this tag and promise, no other tag
    waits for the same promise, and the firing of that timer rejects the
    promise with [Response timeout] and removes the callback. *)
Theorem registry_entries_are_live (o : RawOptions) (rand : nat -> byte)
    (curve : Buffer -> Buffer) (err : option string) (clock : Z)
    (l : list Input) (tag : string) (t p : nat) :
  let c := run (new_WhatsApp o rand curve err clock) l in
  callbacks c !! tag = Some (t, p) ->
  promises c !! p = Some Pending
  /\ (exists d : Q,
        timers c !! t
        = Some {| t_delay := d; t_action := T_responseTimeout tag p |})
  /\ (forall (tag' : string) (t' : nat),
        callbacks c !! tag' = Some (t', p) -> tag' = tag /\ t' = t)
  /\ promises (step (I_fire t) c) !! p = Some (Rejected "Response timeout")
  /\ callbacks (step (I_fire t) c) !! tag = None.
Proof.
  cbn zeta. intros Hl.
  set (c := run _ l) in *.
  assert (Hwf : wf c) by apply reachable_wf.
  assert (Hr : registered c)
    by (apply run_registered; [apply wf_new|apply new_registered]).
  pose proof (rg_pending c Hr tag t p Hl) as Hp.
  destruct (rg_timer c Hr tag t p Hl) as [[d a] Hx].
  pose proof (proj2 (wf_callbacks c Hwf tag t p Hl) _ Hx) as Ha.
  cbn in Ha. subst a.
  repeat apply conj.
  - exact Hp.
  - exists d. exact Hx.
  - intros tag' t' Hl'.
    pose proof (rg_unique c Hr _ _ _ _ _ Hl' Hl) as ->.
    split; [reflexivity|congruence].
  - cbn [step]. unfold fire. rewrite Hx. cbn.
    apply (proj2 (response_timeout_rejects tag p _)). exact Hp.
  - cbn [step]. unfold fire. rewrite Hx. cbn.
    apply (proj1 (response_timeout_rejects tag p _)).
Qed.

Lemma registry_entries_are_live_witness :
  callbacks busy_client !! "1700000000000.--0" = Some (1%nat, 0%nat)
  /\ promises busy_client !! 0%nat = Some Pending.
Proof.
  assert (H : callbacks busy_client !! "1700000000000.--0"
              = Some (1%nat, 0%nat)) by (vm_compute; reflexivity).
  split; [exact H|].
  exact (proj1 (registry_entries_are_live no_options sample_entropy
                  sample_curve None 1700000000000
                  [ I_connect; I_open; I_message (inbound_frame msg_success);
                    I_sendBinary (JObj [("id", JStr "x")]) None ]
                  "1700000000000.--0" 1%nat 0%nat H)).
Defined.

Lemma issued_mono (c c' : Client) (tag : string) :
  messageTagCounter c <= messageTagCounter c' -> issued c tag -> issued c' tag.
Proof.
  intros Hle (t & k & -> & Hk). exists t, k. split; [reflexivity|lia].
Qed.

Lemma calm_tight (c c' : Client) :
  calm c c' -> quiet c c' -> wf c -> tight c -> tight c'.
Proof.
  intros Hcalm (_ & Hk & _) Hwf [Hp Ht Hs Hi].
  destruct (Hcalm Hwf) as (Hc & Hpr & Hn & Hsd & Htm).
  constructor; rewrite ?Hc, ?Hpr.
  - exact Hp.
  - intros id x tag p Hl Ha. apply (Ht id x tag p); [|exact Ha].
    apply (Htm id x tag p Ha), Hl.
  - intros i timeout tag p Hl.
    destruct (Hs i timeout tag p (Hsd _ _ _ _ Hl)) as [Hiss Hown].
    split; [exact (issued_mono c c' tag Hk Hiss)|exact Hown].
  - intros tag t p Hl. exact (issued_mono c c' tag Hk (Hi tag t p Hl)).
Qed.

Lemma tight_tracked (c c' : Client) :
  tracked c' = tracked c -> tight c -> tight c'.
Proof.
  unfold tracked. intros Heq [Hp Ht Hs Hi].
  injection Heq as Ho Hrc' Hk' Hc' Ht' Hn' Hp' Hnp' Hs' Hr' Hq'.
  constructor; unfold issued in *;
    rewrite ?Hc', ?Ht', ?Hp', ?Hnp', ?Hs', ?Hk'; assumption.
Qed.

Lemma issued_fresh (c : Client) (tag : string) :
  wf c -> issued c tag -> message_tag (now c) (messageTagCounter c) <> tag.
Proof.
  intros Hwf (t & k & -> & Hk) Heq.
  apply message_tag_inj in Heq; [lia| |lia].
  exact (wf_counter c Hwf).
Qed.

Lemma sendBinary_tight (node : json) (timeout : option Z) (c : Client) :
  messageTagCounter c < 2 ^ 53 ->
  wf c -> tight c -> tight (snd (sendBinary node None timeout c)).
Proof.
  intros Hk Hwf [Hp Ht Hs Hi]. unfold sendBinary.
  destruct (ws_not_open c); [constructor; assumption|].
  assert (Hinc : js_incr (messageTagCounter c) = messageTagCounter c + 1).
  { unfold js_incr. destruct (Z.ltb_spec (messageTagCounter c) (2 ^ 53)); lia. }
  pose proof (wf_counter c Hwf) as H0.
  assert (Hnew : forall tag, issued c tag ->
            issued (with_messageTagCounter (js_incr (messageTagCounter c)) c) tag).
  { intros tag. apply issued_mono. fields. lia. }
  match goal with
  | |- context [inject_Z ?d] => generalize d; intros delay
  end.
  repeat split_match; cbn [snd];
    [|constructor; fields;
      [ assumption | assumption
      | intros i tm tag p Hl; destruct (Hs i tm tag p Hl);
        split; [apply Hnew; assumption|assumption]
      | intros tag t p Hl; apply Hnew; exact (Hi tag t p Hl) ]].
  constructor; unfold issued; fields.
  - intros p Hl. apply lookup_insert_Some in Hl as [[<- _]|[Hne Hl]].
    + eexists _, _. apply lookup_insert_eq.
    + destruct (Hp p Hl) as (tag & t & Hc). exists tag, t.
      apply lookup_insert_Some. right. split; [|exact Hc].
      apply issued_fresh; eauto.
  - intros id x tag p Hl Ha.
    apply lookup_insert_Some in Hl as [[<- <-]|[Hne Hl]].
    + cbn in Ha. injection Ha as <- <-. apply lookup_insert_eq.
    + pose proof (Ht id x tag p Hl Ha) as Hc.
      apply lookup_insert_Some. right. split; [|exact Hc].
      apply issued_fresh; eauto.
  - intros i tm tag p Hl.
    apply lookup_insert_Some in Hl as [[<- [= <- <- <-]]|[Hne Hl]].
    + split.
      * exists (now c), (messageTagCounter c). split; [reflexivity|lia].
      * intros t' p' Hc. rewrite lookup_insert_eq in Hc.
        injection Hc as <- <-. auto.
    + destruct (Hs i tm tag p Hl) as [Hiss Hown]. split.
      * exact (Hnew tag Hiss).
      * intros t' p' Hc.
        apply lookup_insert_Some in Hc as [[Heq _]|[_ Hc]]; [|eauto].
        elim (issued_fresh c tag Hwf Hiss Heq).
  - intros tag t p Hl.
    apply lookup_insert_Some in Hl as [[<- _]|[Hne Hl]].
    + exists (now c), (messageTagCounter c). split; [reflexivity|lia].
    + exact (Hnew tag (Hi tag t p Hl)).
Qed.

(** A request leaves the registry, as in [unregister_registered]. *)
Lemma unregister_tight (tag : string) (tm p : nat) (r : Settlement)
    (c : Client) :
  tight c -> r <> Pending ->
  (forall t' p' : nat, callbacks c !! tag = Some (t', p') -> t' = tm /\ p' = p) ->
  tight (settle p r (with_callbacks (delete tag (callbacks c))
                       (clearTimeout tm c))).
Proof.
  intros [Hp Ht Hs Hi] Hr Hown. constructor; unfold issued.
  - intros q Hl. rewrite settle_lookup in Hl. fields_in Hl. fields.
    destruct (decide (p = q)) as [<-|Hne].
    + destruct (promises c !! p) as [[| |]|]; congruence.
    + destruct (Hp q Hl) as (tag' & t' & Hc). exists tag', t'.
      apply lookup_delete_Some. split; [|exact Hc].
      intros <-. destruct (Hown _ _ Hc). congruence.
  - intros id x tag' p' Hl Ha. fields_in Hl. fields.
    apply lookup_delete_Some in Hl as [Hne Hl].
    pose proof (Ht id x tag' p' Hl Ha) as Hc.
    apply lookup_delete_Some. split; [|exact Hc].
    intros <-. destruct (Hown _ _ Hc). congruence.
  - intros i tm' tag' p' Hl. fields_in Hl. fields.
    destruct (Hs i tm' tag' p' Hl) as [Hiss Hown']. split; [exact Hiss|].
    intros t' q Hc. apply lookup_delete_Some in Hc as [_ Hc]. eauto.
  - intros tag' t' p' Hl. fields_in Hl. fields.
    apply lookup_delete_Some in Hl as [_ Hl]. exact (Hi tag' t' p' Hl).
Qed.

Lemma deliver_tight (m : json) (tag : option json) (c : Client) :
  tight c -> tight (deliver m tag c).
Proof.
  intros Hr. unfold deliver, reply_callback.
  destruct tag as [[ | | |t| | ]|]; try exact Hr.
  destruct (callbacks c !! t) as [[timeout p]|] eqn:Hl; [|exact Hr].
  apply (tight_tracked
           (settle p (Resolved m)
              (with_callbacks (delete t (callbacks c)) (clearTimeout timeout c))));
    [reflexivity|].
  apply unregister_tight; [exact Hr|discriminate|].
  intros t' p' Hl'. rewrite Hl in Hl'. injection Hl' as <- <-. auto.
Qed.

Lemma processBinaryMessage_tight (d : Decoded) (c : Client) :
  tight c -> tight (snd (_processBinaryMessage d c)).
Proof.
  intros Hr. destruct d as [m|raw].
  - destruct (get_prop m "tag") as [tag|e] eqn:Htag.
    + destruct (truthy tag) eqn:Htr.
      * destruct (processBinaryMessage_tail m tag c Htag Htr) as (_ & Heq & _).
        apply (tight_tracked _ _ Heq), deliver_tight; assumption.
      * unfold _processBinaryMessage. rewrite Htag, Htr. cbn [negb snd].
        apply (tight_tracked c); [reflexivity|exact Hr].
    + unfold _processBinaryMessage. rewrite Htag. exact Hr.
  - apply (tight_tracked c); [reflexivity|exact Hr].
Qed.

Lemma fire_tight (id : nat) (c : Client) : wf c -> tight c -> tight (fire id c).
Proof.
  intros Hwf Hr. unfold fire.
  destruct (timers c !! id) as [t|] eqn:Hl; [|exact Hr].
  cbn zeta. destruct (t_action t) as [| | |tag p] eqn:Ha.
  - assert (Hq : quiet c (with_timers (delete id (timers c)) c))
      by (apply (delete_timer_quiet id t c Hl); intros; congruence).
    refine (calm_tight c _ _ _ Hwf Hr).
    + eapply calm_trans;
        [exact Hq|apply (delete_timer_calm id t c Hl); intros; congruence|].
      unfold reconnect_callback.
      eapply calm_trans; [| |apply connect_calm]; [same|].
      intros Hwf'. calm_direct Hwf'.
    + eapply evolves_trans; [exact Hq|apply reconnect_callback_quiet].
  - assert (Hq : quiet c (with_timers (delete id (timers c)) c))
      by (apply (delete_timer_quiet id t c Hl); intros; congruence).
    refine (calm_tight c _ _ _ Hwf Hr).
    + eapply calm_trans;
        [exact Hq|apply (delete_timer_calm id t c Hl); intros; congruence|].
      unfold qr_expiry_callback. split_match.
      * intros Hwf'. calm_direct Hwf'.
      * eapply calm_trans; [| |apply disconnect_calm].
        -- apply quiet_intro; try reflexivity. intros Hwf'. wf_chain.
        -- intros Hwf'. calm_direct Hwf'.
    + eapply evolves_trans; [exact Hq|apply qr_expiry_callback_quiet].
  - assert (Hq : quiet c (with_timers (delete id (timers c)) c))
      by (apply (delete_timer_quiet id t c Hl); intros; congruence).
    refine (calm_tight c _ _ _ Hwf Hr).
    + eapply calm_trans;
        [exact Hq|apply (delete_timer_calm id t c Hl); intros; congruence|].
      unfold ready_callback. split_match; intros Hwf'; calm_direct Hwf'.
    + eapply evolves_trans; [exact Hq|]. same.
  - unfold response_timeout.
    apply (tight_tracked
             (settle p (Rejected "Response timeout")
                (with_callbacks (delete tag (callbacks c)) (clearTimeout id c))));
      [reflexivity|].
    apply unregister_tight; [exact Hr|discriminate|].
    intros t' p' Hc. rewrite (tg_timers c Hr id t tag p Hl Ha) in Hc.
    injection Hc as <- <-. auto.
Qed.

Lemma sent_tight (id : nat) (error : option string) (c : Client) :
  tight c -> tight (sent id error c).
Proof.
  intros Hr. unfold sent.
  destruct (sends c !! id) as [k|] eqn:Hl; [|exact Hr].
  assert (Hr' : tight (with_sends (delete id (sends c)) c)).
  { destruct Hr as [Hp Ht Hs Hi]. constructor; unfold issued in *; fields;
      try assumption.
    intros i tm tag p Hl'. apply lookup_delete_Some in Hl' as [_ Hl']. eauto. }
  cbn zeta. destruct k as [[|phone]|timeout tag p].
  - exact Hr'.
  - apply (tight_tracked (with_sends (delete id (sends c)) c)); [|exact Hr'].
    unfold requestPairingCode_sent. destruct error; reflexivity.
  - unfold binary_send_done. destruct error as [e|]; [|exact Hr'].
    apply (tight_tracked
             (settle p (Rejected e)
                (with_callbacks
                   (delete tag (callbacks (with_sends (delete id (sends c)) c)))
                   (clearTimeout timeout (with_sends (delete id (sends c)) c)))));
      [reflexivity|].
    apply unregister_tight; [exact Hr'|discriminate|].
    exact (proj2 (tg_sends c Hr id timeout tag p Hl)).
Qed.

Lemma log_tight (msg : string) (c : Client) : tight c -> tight (log msg c).
Proof. apply tight_tracked. reflexivity. Qed.

Lemma onWebSocketMessage_tight (data : Buffer) (c : Client) :
  wf c -> tight c -> tight (snd (_onWebSocketMessage data c)).
Proof.
  intros Hwf Hr.
  assert (H : tight (snd (processMessage data c))).
  { unfold processMessage.
    destruct (_ || _ || _)%bool; [apply log_tight, Hr|].
    cbn zeta. destruct (byte_is _ WA_PREFIX_INFO_0).
    - destruct (JSON_parse _) as [m|]; [|apply log_tight, Hr].
      pose proof (calm_tight _ _
                    (processJsonMessage_calm m (log "Received JSON message:" c))
                    (processJsonMessage_quiet m (log "Received JSON message:" c))
                    (log_wf _ c Hwf) (log_tight _ c Hr)) as H'.
      destruct (_processJsonMessage m _) as [[u|e] c']; cbn [snd] in *;
        [exact H'|apply log_tight, H'].
    - destruct (byte_is _ WA_PREFIX_BINARY_0); [|apply log_tight, Hr].
      pose proof (processBinaryMessage_tight
                    (BinaryDecoder_decode (Buffer_slice 4 data))
                    (log "Received binary message:" c)
                    (log_tight _ c Hr)) as H'.
      destruct (_processBinaryMessage _ _) as [[u|e] c']; cbn [snd] in *;
        [exact H'|apply log_tight, H']. }
  unfold _onWebSocketMessage.
  destruct (processMessage data c) as [[u|e] c']; cbn [snd] in *;
    [exact H|apply log_tight, H].
Qed.

Lemma step_tight (i : Input) (c : Client) :
  messageTagCounter (step i c) < 2 ^ 53 ->
  wf c -> tight c -> tight (step i c).
Proof.
  intros Hk Hwf Hr. destruct i; cbn [step] in *.
  - exact (calm_tight c _ (connect_calm c) (connect_quiet c) Hwf Hr).
  - exact (calm_tight c _ (disconnect_calm c) (disconnect_quiet c) Hwf Hr).
  - exact (calm_tight c _ (restoreSession_calm s c) (restoreSession_quiet s c)
             Hwf Hr).
  - apply sendBinary_tight; try assumption.
    destruct (sendBinary_quiet node timeout c) as (_ & Hle & _). lia.
  - exact (calm_tight c _ (requestPairingCode_calm phone c)
             (requestPairingCode_quiet phone c) Hwf Hr).
  - refine (calm_tight c _ (handlePairingCodeResponse_calm data c) _ Hwf Hr).
    same.
  - refine (calm_tight c _ (onWebSocketOpen_calm c) _ Hwf Hr).
    eapply evolves_trans; [|apply onWebSocketOpen_quiet]. same.
  - apply onWebSocketMessage_tight; assumption.
  - apply processBinaryMessage_tight; assumption.
  - refine (calm_tight c _ (onWebSocketClose_calm code reason c) _ Hwf Hr).
    eapply evolves_trans; [|apply onWebSocketClose_quiet]. same.
  - apply (tight_tracked c); [reflexivity|exact Hr].
  - apply fire_tight; assumption.
  - apply sent_tight; assumption.
  - exact (calm_tight c _ (handleQRCode_rendered_calm error c)
             (handleQRCode_rendered_quiet error c) Hwf Hr).
  - apply (tight_tracked c); [reflexivity|exact Hr].
Qed.

Lemma run_tight (l : list Input) (c : Client) :
  messageTagCounter (run c l) < 2 ^ 53 ->
  wf c -> tight c -> tight (run c l).
Proof.
  induction l as [|i l IH] using rev_ind; intros Hk Hwf Hr; [exact Hr|].
  rewrite run_snoc in *.
  destruct (run_steady l c) as (_ & _ & Hw & _).
  destruct (step_steady i (run c l)) as (_ & Hle & _).
  apply step_tight; [exact Hk|exact (Hw Hwf)|].
  apply IH; [lia|exact Hwf|exact Hr].
Qed.

Lemma new_tight (o : RawOptions) (rand : nat -> byte)
    (curve : Buffer -> Buffer) (err : option string) (clock : Z) :
  tight (new_WhatsApp o rand curve err clock).
Proof.
  constructor; cbn; intros; rewrite lookup_empty in *; discriminate.
Qed.

(** *** No request is lost *)

(** X17.  No request is lost: in every reachable state in which the tag
    counter is below [2^53], a promise is pending exactly when a callback
    is registered for it, and an armed timeout of a request has its
    callback registered and its promise pending. *)
Theorem pending_iff_registered (o : RawOptions) (rand : nat -> byte)
    (curve : Buffer -> Buffer) (err : option string) (clock : Z)
    (l : list Input) (p : nat) :
  let c := run (new_WhatsApp o rand curve err clock) l in
  messageTagCounter c < 2 ^ 53 ->
  (promises c !! p = Some Pending
   <-> exists (tag : string) (t : nat), callbacks c !! tag = Some (t, p))
  /\ (forall (id : nat) (d : Q) (tag : string),
        timers c !! id
        = Some {| t_delay := d; t_action := T_responseTimeout tag p |} ->
        callbacks c !! tag = Some (id, p)
        /\ promises c !! p = Some Pending).
Proof.
  cbn zeta. intros Hk. set (c := run _ l) in *.
  assert (Ht : tight c)
    by (apply run_tight; [exact Hk|apply wf_new|apply new_tight]).
  assert (Hr : registered c)
    by (apply run_registered; [apply wf_new|apply new_registered]).
  split; [split|].
  - apply (tg_pending c Ht).
  - intros (tag & t & Hl). exact (rg_pending c Hr tag t p Hl).
  - intros id d tag Hl.
    pose proof (tg_timers c Ht id _ tag p Hl eq_refl) as Hc.
    split; [exact Hc|exact (rg_pending c Hr tag id p Hc)].
Qed.

Lemma pending_iff_registered_witness :
  messageTagCounter busy_client < 2 ^ 53
  /\ (promises busy_client !! 0%nat = Some Pending
      <-> exists (tag : string) (t : nat),
            callbacks busy_client !! tag = Some (t, 0%nat)).
Proof.
  assert (H : messageTagCounter busy_client < 2 ^ 53)
    by (vm_compute; reflexivity).
  split; [exact H|].
  exact (proj1 (pending_iff_registered no_options sample_entropy
                  sample_curve None 1700000000000
                  [ I_connect; I_open; I_message (inbound_frame msg_success);
                    I_sendBinary (JObj [("id", JStr "x")]) None ]
                  0%nat H)).
Defined.

(** *** The life of a request *)

(** X18.  A reply whose tag is registered resolves the request with the
    reply: the promise of the tag is resolved with the whole message, the
    callback is removed, the timeout is cleared, no other promise
    changes, and the same reply arriving again changes no callback,
    promise or timer. *)
Theorem reply_resolves_request (m : json) (tag : string) (t p : nat)
    (c : Client) :
  get_prop m "tag" = Normal (Some (JStr tag)) ->
  tag <> "" ->
  callbacks c !! tag = Some (t, p) ->
  promises c !! p = Some Pending ->
  let c' := snd (_processBinaryMessage (D_json m) c) in
  fst (_processBinaryMessage (D_json m) c) = Normal tt
  /\ promises c' !! p = Some (Resolved m)
  /\ callbacks c' = delete tag (callbacks c)
  /\ timers c' = delete t (timers c)
  /\ (forall q : nat, q <> p -> promises c' !! q = promises c !! q)
  /\ callbacks (snd (_processBinaryMessage (D_json m) c')) = callbacks c'
  /\ promises (snd (_processBinaryMessage (D_json m) c')) = promises c'
  /\ timers (snd (_processBinaryMessage (D_json m) c')) = timers c'.
Proof.
  intros Htag Hne Hl Hp. cbn zeta.
  assert (Htr : truthy (Some (JStr tag)) = true).
  { destruct tag; [contradiction|reflexivity]. }
  destruct (processBinaryMessage_tail m _ c Htag Htr)
    as (Hn & _ & Hc & Hpr & Htm).
  assert (Hd : callbacks (deliver m (Some (JStr tag)) c) = delete tag (callbacks c)
               /\ promises (deliver m (Some (JStr tag)) c)
                  = <[p := Resolved m]> (promises c)
               /\ timers (deliver m (Some (JStr tag)) c) = delete t (timers c)).
  { unfold deliver, reply_callback. rewrite Hl. fields. rewrite Hp. auto. }
  destruct Hd as (Hdc & Hdp & Hdt).
  rewrite Hc, Hpr, Htm, Hdc, Hdp, Hdt.
  set (c' := snd (_processBinaryMessage (D_json m) c)) in *.
  assert (Hgone : callbacks c' !! tag = None)
    by (rewrite Hc, Hdc; apply lookup_delete_eq).
  destruct (unmatched_reply_dropped m tag c' Htag Hgone) as (_ & H1 & H2 & H3).
  rewrite H1, H2, H3, Hc, Hpr, Htm, Hdc, Hdp, Hdt.
  repeat apply conj; try reflexivity.
  - exact Hn.
  - apply lookup_insert_eq.
  - intros q Hq. apply lookup_insert_ne. congruence.
Qed.

Lemma reply_resolves_request_witness :
  callbacks busy_client !! "1700000000000.--0" = Some (1%nat, 0%nat)
  /\ promises
       (snd (_processBinaryMessage
               (D_json (JObj [ ("tag", JStr "1700000000000.--0");
                               ("data", JObj [("status", num 200)]) ]))
               busy_client)) !! 0%nat
     = Some (Resolved (JObj [ ("tag", JStr "1700000000000.--0");
                              ("data", JObj [("status", num 200)]) ])).
Proof.
  assert (H1 : callbacks busy_client !! "1700000000000.--0"
               = Some (1%nat, 0%nat)) by (vm_compute; reflexivity).
  assert (H2 : promises busy_client !! 0%nat = Some Pending)
    by (vm_compute; reflexivity).
  split; [exact H1|].
  exact (proj1 (proj2 (reply_resolves_request
                         (JObj [ ("tag", JStr "1700000000000.--0");
                                 ("data", JObj [("status", num 200)]) ])
                         "1700000000000.--0" 1 0 busy_client eq_refl
                         ltac:(discriminate) H1 H2))).
Defined.

(** X19.  A write that fails rejects its request with the error of the
    write, removes the callback and clears the timeout; a write that
    succeeds only completes; a second completion of the same write
    changes nothing. *)
Theorem failed_write_rejects_request (i t p : nat) (tag error : string)
    (c : Client) :
  sends c !! i = Some (K_binary t tag p) ->
  promises c !! p = Some Pending ->
  promises (sent i (Some error) c) !! p = Some (Rejected error)
  /\ callbacks (sent i (Some error) c) = delete tag (callbacks c)
  /\ timers (sent i (Some error) c) = delete t (timers c)
  /\ sends (sent i (Some error) c) = delete i (sends c)
  /\ sent i None c = with_sends (delete i (sends c)) c
  /\ sent i (Some error) (sent i (Some error) c) = sent i (Some error) c.
Proof.
  intros Hl Hp. unfold sent at 1 2 3 4 5. rewrite Hl. cbn zeta.
  unfold binary_send_done. fields. rewrite Hp.
  repeat apply conj; try reflexivity.
  - apply lookup_insert_eq.
  - unfold sent at 1.
    replace (sends (sent i (Some error) c) !! i) with (@None SendCont);
      [reflexivity|].
    unfold sent. rewrite Hl. cbn zeta. unfold binary_send_done. fields.
    symmetry. apply lookup_delete_eq.
Qed.

(** *** Replies to a pairing request *)

(** X20.  [handlePairingCodeResponse] emits one event for a reply of
    type [pair_success], [pairing_code] with the code of the reply, one
    for a reply of type [pair_error], [pairing_code_error], and none for
    any other reply.  The reason of the error event is never falsy: it is
    the reason of the reply when that is truthy, and [Unknown error] when
    the reply has no reason or a falsy one (an empty string, [null],
    [false], a number that is zero). *)
Theorem pairing_error_has_a_reason (data : json) (c : Client) :
  let c' := snd (handlePairingCodeResponse data c) in
  let prop x := match get_prop data x with
                | Normal v => v
                | Throw _ => None
                end in
  (is_str (prop "type") "pair_success" = true ->
   emitted c' = (emitted c ++ [Ev_pairing_code (prop "code")])%list)
  /\ (is_str (prop "type") "pair_error" = true ->
      exists reason : json,
        emitted c'
        = (emitted c ++ [Ev_pairing_code_error (PE_reason reason)])%list
        /\ truthy (Some reason) = true
        /\ (truthy (prop "reason") = true -> prop "reason" = Some reason)
        /\ (truthy (prop "reason") = false -> reason = JStr "Unknown error"))
  /\ (is_str (prop "type") "pair_success" = false ->
      is_str (prop "type") "pair_error" = false ->
      emitted c' = emitted c).
Proof.
  cbn zeta. unfold handlePairingCodeResponse.
  destruct (get_prop data "type") as [ty|e] eqn:Hty;
    [|repeat apply conj; [discriminate|discriminate|reflexivity]].
  repeat apply conj.
  - intros Hs. rewrite Hs. cbn [snd]. fields. reflexivity.
  - intros He.
    assert (Hs : is_str ty "pair_success" = false).
    { destruct ty as [[ | | |x| | ]|]; try discriminate.
      cbn in He |- *. apply String.eqb_eq in He. subst x. reflexivity. }
    rewrite Hs, He. cbn [snd]. fields.
    destruct (match get_prop data "reason" with
              | Normal v => v
              | Throw _ => None
              end) as [r|] eqn:Hr.
    + destruct (truthy (Some r)) eqn:Htr.
      * exists r. repeat apply conj; auto. discriminate.
      * exists (JStr "Unknown error").
        repeat apply conj; auto. discriminate.
    + exists (JStr "Unknown error"). repeat apply conj; auto. discriminate.
  - intros Hs He. rewrite Hs, He. reflexivity.
Qed.

(** A reason that is a number too small for a double is zero, and
    falsy. *)
Lemma pairing_error_has_a_reason_witness :
  emitted (snd (handlePairingCodeResponse
                  (JObj [ ("type", JStr "pair_error");
                          ("reason", JNum "1e-400") ]) fresh_client))
  = [Ev_pairing_code_error (PE_reason (JStr "Unknown error"))].
Proof.
  destruct (pairing_error_has_a_reason
              (JObj [ ("type", JStr "pair_error"); ("reason", JNum "1e-400") ])
              fresh_client) as (_ & Herror & _).
  destruct Herror as (reason & He & _ & _ & Hu); [reflexivity|].
  rewrite He, Hu by (vm_compute; reflexivity). reflexivity.
Defined.

Lemma failed_write_rejects_request_witness :
  sends busy_client !! 1%nat = Some (K_binary 1 "1700000000000.--0" 0)
  /\ promises (sent 1 (Some "EPIPE") busy_client) !! 0%nat
     = Some (Rejected "EPIPE").
Proof.
  assert (H1 : sends busy_client !! 1%nat
               = Some (K_binary 1 "1700000000000.--0" 0))
    by (vm_compute; reflexivity).
  assert (H2 : promises busy_client !! 0%nat = Some Pending)
    by (vm_compute; reflexivity).
  split; [exact H1|].
  exact (proj1 (failed_write_rejects_request 1 1 0 "1700000000000.--0"
                  "EPIPE" busy_client H1 H2)).
Defined.

(** *** The first frame of a connection *)

Lemma hex_of_bytes_length (b : Buffer) :
  String.length (hex_of_bytes b) = (2 * length b)%nat.
Proof.
  induction b as [|x b IH]; [reflexivity|].
  cbn [hex_of_bytes foldr String.length length].
  change (foldr _ "" b) with (hex_of_bytes b). rewrite IH. lia.
Qed.

(** X21.  The first frame of a connection.  After [connect()] without a
    session and the opening of the socket, the frame written is the
    initial message with the client id just generated, 32 hexadecimal
    characters, as [clientToken], and neither [passive] nor [session].
    After [restoreSession(s)] it carries [passive: true] and the server
    token of [s]; its [clientToken] is the client id of the auth handler,
    [null] if no keys were generated, not the one saved in [s], and no
    keys are generated. *)
Theorem initial_message_identifies_client (s : Session) (c : Client) :
  ws_ctor_error c = None ->
  (state c = DISCONNECTED -> session c = None ->
   let id := hex_of_bytes (map (entropy c) (seq (drawn c) 16)) in
   String.length id = 32%nat
   /\ exists init : list (string * json),
        wire (step I_open (connect c)) = (wire c ++ [json_frame (JObj init)])%list
        /\ props_get "clientToken" init = Some (JStr id)
        /\ props_get "passive" init = None
        /\ props_get "session" init = None)
  /\ (exists init : list (string * json),
        wire (step I_open (restoreSession s c))
        = (wire c ++ [json_frame (JObj init)])%list
        /\ props_get "clientToken" init
           = Some (match clientId c with Some i => JStr i | None => JNull end)
        /\ props_get "passive" init = Some (JBool true)
        /\ props_get "session" init = serverToken s
        /\ keys (step I_open (restoreSession s c)) = keys c).
Proof.
  intros Hctor. split.
  - intros Hst Hse. cbn zeta. split.
    + rewrite hex_of_bytes_length, length_map, length_seq. reflexivity.
    + cbn [step]. unfold connect, generateKeys. rewrite Hst. cbn [ConnectionState_eqb negb].
      repeat split_match; try (fields_in Hctor; congruence);
        try (match goal with H : session _ = Some _ |- _ =>
               fields_in H; congruence end).
      all: unfold _onWebSocketOpen, sendInitialMessage, socket_becomes, sendJSON,
             ws_not_open; fields; cbn [snd]; fields.
      all: match goal with H : session _ = None |- _ => rewrite H end.
      all: eexists; repeat apply conj; [reflexivity|..]; reflexivity.
  - cbn [step]. unfold restoreSession.
    destruct (ConnectionState_eqb (state c) DISCONNECTED) eqn:E; cbn [negb].
    + unfold connect. fields. rewrite E. cbn [negb]. fields. rewrite Hctor.
      unfold _onWebSocketOpen, sendInitialMessage, socket_becomes, sendJSON,
        ws_not_open; fields; cbn [snd]; fields.
      destruct (serverToken s) as [tok|] eqn:Htok;
        eexists; repeat apply conj; [reflexivity|..];
        try reflexivity; cbn; rewrite ?Htok; reflexivity.
    + unfold disconnect. rewrite E.
      repeat split_match.
      all: unfold connect; fields; rewrite Hctor.
      all: unfold _onWebSocketOpen, sendInitialMessage, socket_becomes, sendJSON,
             ws_not_open; fields; cbn [snd]; fields.
      all: destruct (serverToken s) as [tok|] eqn:Htok;
             eexists; repeat apply conj; [reflexivity|..];
             try reflexivity; cbn;
             repeat match goal with
                    | H : clientId _ = _ |- _ => rewrite H
                    end;
             rewrite ?Htok; reflexivity.
Qed.

Lemma initial_message_identifies_client_witness :
  ws_ctor_error fresh_client = None
  /\ exists init : list (string * json),
       wire (step I_open (restoreSession saved_session fresh_client))
       = (wire fresh_client ++ [json_frame (JObj init)])%list
       /\ props_get "clientToken" init = Some JNull
       /\ props_get "passive" init = Some (JBool true)
       /\ props_get "session" init = Some (JStr "S0").
Proof.
  assert (H : ws_ctor_error fresh_client = None) by reflexivity.
  split; [exact H|].
  destruct (proj2 (initial_message_identifies_client saved_session
                     fresh_client H)) as (init & Hw & Hc & Hp & Hs & _).
  exists init. repeat apply conj; assumption.
Defined.

(** *** Group notifications *)

(** X22.  A notification that [_processNotification] hands to the group
    handler has the subtype [group]; [handleGroupNotification] switches on
    the same subtype, so it emits [group_group] and never refreshes the
    group, whatever the store holds. *)
Theorem group_notification_never_refreshes (chats_has : option json -> bool)
    (text_of : option json -> string) (n : json) (c d : Client) :
  (forall s : string, text_of (Some (JStr s)) = s) ->
  delegated (_processNotification n c) <> delegated c ->
  get_prop n "subtype" = Normal (Some (JStr "group"))
  /\ delegated (_processNotification n c)
     = (delegated c ++ [To_handleGroupNotification n])%list
  /\ handleGroupNotification chats_has text_of n d
     = (Normal [Emit_group "group_group" n],
        log "Received group notification:" d).
Proof.
  intros Htext Hd. unfold _processNotification in *.
  destruct (get_prop n "subtype") as [st|e] eqn:Hst; [|contradiction].
  destruct (negb (truthy st)); [elim Hd; reflexivity|].
  destruct (is_str st "group") eqn:Hg.
  - assert (st = Some (JStr "group")) as ->.
    { destruct st as [[ | | |s| | ]|]; try discriminate.
      apply String.eqb_eq in Hg. subst s. reflexivity. }
    repeat apply conj; try reflexivity.
    unfold handleGroupNotification. rewrite Hst, Htext.
    rewrite andb_false_r. reflexivity.
  - destruct (is_str st "privacy"); [elim Hd; reflexivity|].
    destruct (is_str st "contact"); elim Hd; reflexivity.
Qed.

Lemma group_notification_never_refreshes_witness :
  delegated (_processNotification
               (JObj [ ("type", JStr "notification"); ("subtype", JStr "group");
                       ("jid", JStr "1@g.us") ]) fresh_client)
  <> delegated fresh_client
  /\ handleGroupNotification (fun _ => true)
       (fun o => match o with Some (JStr s) => s | _ => "" end)
       (JObj [ ("type", JStr "notification"); ("subtype", JStr "group");
               ("jid", JStr "1@g.us") ]) fresh_client
     = (Normal [Emit_group "group_group"
                  (JObj [ ("type", JStr "notification");
                          ("subtype", JStr "group"); ("jid", JStr "1@g.us") ])],
        log "Received group notification:" fresh_client).
Proof.
  assert (H : delegated (_processNotification
                           (JObj [ ("type", JStr "notification");
                                   ("subtype", JStr "group");
                                   ("jid", JStr "1@g.us") ]) fresh_client)
              <> delegated fresh_client) by (vm_compute; discriminate).
  split; [exact H|].
  exact (proj2 (proj2 (group_notification_never_refreshes (fun _ => true)
                         (fun o => match o with Some (JStr s) => s | _ => "" end)
                         _ fresh_client fresh_client
                         (fun s => eq_refl) H))).
Defined.

(** *** Signatures *)

(** X23.  [hmacVerify] accepts the signature [hmacSign] computes.  With
    digests of 32 bytes, a signature of another length makes it throw the
    [RangeError] of [crypto.timingSafeEqual] instead of answering [false];
    a signature of 32 bytes that is not the digest is answered with
    [false]. *)
Theorem hmacVerify_throws_on_length (hmac : Buffer -> Buffer -> Buffer)
    (data key signature : Buffer) :
  (forall k d : Buffer, length (hmac k d) = 32%nat) ->
  hmacVerify hmac data key (hmacSign hmac data key) = Normal true
  /\ (length signature <> 32%nat ->
      hmacVerify hmac data key signature
      = Throw "RangeError: Input buffers must have the same byte length")
  /\ (length signature = 32%nat ->
      signature <> hmacSign hmac data key ->
      hmacVerify hmac data key signature = Normal false).
Proof.
  intros Hlen. unfold hmacVerify, timingSafeEqual, hmacSign.
  repeat apply conj.
  - rewrite Nat.eqb_refl. destruct (List.list_eq_dec _ _ _); [reflexivity|congruence].
  - intros Hne. rewrite Hlen.
    destruct (Nat.eqb_spec 32 (length signature)); [congruence|reflexivity].
  - intros Heq Hne. rewrite Hlen, Heq. cbn.
    destruct (List.list_eq_dec _ _ _); [congruence|reflexivity].
Qed.

Lemma hmacVerify_throws_on_length_witness :
  (forall k d : Buffer, length (repeat x00 32 : Buffer) = 32%nat)
  /\ hmacVerify (fun _ _ => repeat x00 32) [x01] [x02] [x00]
     = Throw "RangeError: Input buffers must have the same byte length".
Proof.
  assert (H : forall k d : Buffer, length (repeat x00 32 : Buffer) = 32%nat)
    by (intros; reflexivity).
  split; [exact H|].
  exact (proj1 (proj2 (hmacVerify_throws_on_length (fun _ _ => repeat x00 32)
                         [x01] [x02] [x00] H)) ltac:(discriminate)).
Defined.

(** *** The transitions of the state *)

Lemma scheduleReconnect_state (c : Client) :
  state (_scheduleReconnect c) = state c.
Proof. unfold _scheduleReconnect. repeat split_match; reflexivity. Qed.

Lemma connect_state (c : Client) :
  state (connect c) = state c
  \/ state c = DISCONNECTED /\ state (connect c) = CONNECTING.
Proof.
  unfold connect, generateKeys.
  destruct (ConnectionState_eqb (state c) DISCONNECTED) eqn:E;
    [|left; reflexivity].
  apply ConnectionState_eqb_eq in E. cbn [negb].
  repeat split_match; rewrite ?scheduleReconnect_state; fields; auto.
Qed.

Lemma disconnect_state (c : Client) : state (disconnect c) = DISCONNECTED.
Proof.
  unfold disconnect. repeat split_match; fields; try reflexivity.
  all: apply ConnectionState_eqb_eq; assumption.
Qed.

Lemma qr_expiry_callback_state (c : Client) :
  state (qr_expiry_callback c) = state c
  \/ state (qr_expiry_callback c) = DISCONNECTED.
Proof.
  unfold qr_expiry_callback. split_match; [left; reflexivity|].
  right. apply disconnect_state.
Qed.

Lemma message_state (data : Buffer) (c : Client) :
  state (snd (_onWebSocketMessage data c)) = state c
  \/ state (snd (_onWebSocketMessage data c)) = TIMEOUT
  \/ state (snd (_onWebSocketMessage data c)) = AUTHENTICATED.
Proof.
  unfold _onWebSocketMessage, processMessage.
  destruct (_ || _ || _)%bool; [left; reflexivity|].
  cbn zeta. destruct (byte_is _ WA_PREFIX_INFO_0).
  - destruct (JSON_parse _) as [m|]; [|left; reflexivity].
    destruct (processJsonMessage_passive m (log "Received JSON message:" c))
      as (_ & _ & _ & _ & H).
    destruct (_processJsonMessage m _) as [[u|e] c']; exact H.
  - destruct (byte_is _ WA_PREFIX_BINARY_0); [|left; reflexivity].
    destruct (processBinaryMessage_passive
                (BinaryDecoder_decode (Buffer_slice 4 data))
                (log "Received binary message:" c)) as (_ & _ & _ & _ & H).
    destruct (_processBinaryMessage _ _) as [[u|e] c']; left; exact H.
Qed.

(** X24.  The transitions of the state.  One turn of the event loop
    leaves the state as it was, or ends [DISCONNECTED], or enters
    [CONNECTING] from [DISCONNECTED] (or by [restoreSession], which
    disconnects first), [CONNECTED] when the socket opens, [TIMEOUT] or
    [AUTHENTICATED] on an inbound message, and [READY] from
    [AUTHENTICATED] when a timer fires. *)
Theorem state_transitions (i : Input) (c : Client) :
  let s := state c in
  let s' := state (step i c) in
  s' = s
  \/ s' = DISCONNECTED
  \/ s' = CONNECTING /\ (s = DISCONNECTED \/ exists x, i = I_restoreSession x)
  \/ s' = CONNECTED /\ i = I_open
  \/ s' = TIMEOUT /\ (exists d, i = I_message d)
  \/ s' = AUTHENTICATED /\ (exists d, i = I_message d)
  \/ s' = READY /\ s = AUTHENTICATED /\ (exists id, i = I_fire id).
Proof.
  cbn zeta. destruct i; cbn [step].
  - destruct (connect_state c) as [H|[H1 H2]]; [left; exact H|].
    right. right. left. auto.
  - right. left. apply disconnect_state.
  - unfold restoreSession.
    match goal with
    | |- context [connect ?x] =>
        destruct (connect_state x) as [H|[H1 H2]]; rewrite ?H, ?H2
    end.
    + destruct (ConnectionState_eqb (state c) DISCONNECTED) eqn:E; cbn [negb].
      * left. reflexivity.
      * right. left. fields. apply disconnect_state.
    + right. right. left. eauto.
  - left. unfold sendBinary. repeat split_match; reflexivity.
  - left. unfold requestPairingCode, ensure_pairing_keys, Pairing_generateKeys,
      sendJSON.
    repeat split_match; reflexivity.
  - left. unfold handlePairingCodeResponse. repeat split_match; reflexivity.
  - right. right. right. left. split; [|reflexivity].
    unfold _onWebSocketOpen, sendInitialMessage, sendJSON.
    repeat split_match; reflexivity.
  - destruct (message_state data c) as [H|[H|H]]; eauto 10.
  - left. apply processBinaryMessage_passive.
  - right. left. unfold _onWebSocketClose.
    repeat split_match; rewrite ?scheduleReconnect_state; reflexivity.
  - left. reflexivity.
  - unfold fire. destruct (timers c !! timer) as [t|]; [|left; reflexivity].
    cbn zeta. destruct (t_action t).
    + unfold reconnect_callback.
      match goal with
      | |- context [connect ?x] => destruct (connect_state x) as [H|[H1 H2]]
      end; [left; exact H|].
      right. right. left. auto.
    + match goal with
      | |- context [qr_expiry_callback ?x] =>
          destruct (qr_expiry_callback_state x) as [H|H]
      end; [left; exact H|right; left; exact H].
    + unfold ready_callback.
      destruct (ConnectionState_eqb _ AUTHENTICATED) eqn:E; [|left; reflexivity].
      apply ConnectionState_eqb_eq in E. do 6 right. eauto.
    + left. unfold response_timeout. fields. reflexivity.
  - left. unfold sent, requestPairingCode_sent, binary_send_done.
    repeat split_match; reflexivity.
  - left. unfold handleQRCode_rendered. repeat split_match; reflexivity.
  - left. reflexivity.
Qed.

(** *** A connection that cannot be opened *)

(** The client after a [connect()] whose socket could not be created,
    before a reconnect is scheduled. *)
Lemma connect_failure_eq (error : string) (c : Client) :
  state c = DISCONNECTED ->
  ws_ctor_error c = Some error ->
  exists b : Client,
    connect c = (if autoReconnect (options c) then _scheduleReconnect b else b)
    /\ state b = DISCONNECTED /\ ws b = ws c /\ wire b = wire c
    /\ options b = options c /\ reconnectCount b = reconnectCount c
    /\ timers b = timers c /\ nextTimer b = nextTimer c
    /\ reconnectTimer b = reconnectTimer c
    /\ emitted b
       = (emitted c ++ [ Ev_state_change DISCONNECTED CONNECTING;
                         Ev_state_change CONNECTING DISCONNECTED;
                         Ev_connection_failure error ])%list.
Proof.
  intros Hst Herr. unfold connect, generateKeys.
  rewrite Hst. cbn [ConnectionState_eqb negb].
  repeat split_match; try discriminate; injection Herr as ->;
    (eexists; split; [reflexivity|]); fields; rewrite <- ?app_assoc;
    repeat apply conj; reflexivity.
Qed.

(** X25.  A [connect()] whose socket cannot be created is reported and
    retried: the client is back in [DISCONNECTED] with nothing written,
    after [state_change] to [CONNECTING] and back and
    [connection_failure] with the error.  Without [autoReconnect] that is
    all; with it, a reconnect is scheduled with the delay of the policy
    (the double nearest to [reconnectDelay * 1.5^count] up to the 34th
    attempt, and that product itself while [reconnectDelay * 3^count] is
    below [2^53]), or, once the attempts are used up, [reconnect_failed]
    follows. *)
Theorem connect_failure_is_reported (error : string) (c : Client) :
  state c = DISCONNECTED ->
  ws_ctor_error c = Some error ->
  let c' := connect c in
  let reported :=
    [ Ev_state_change DISCONNECTED CONNECTING;
      Ev_state_change CONNECTING DISCONNECTED;
      Ev_connection_failure error ] in
  state c' = DISCONNECTED
  /\ ws c' = ws c
  /\ wire c' = wire c
  /\ (autoReconnect (options c) = false ->
      emitted c' = (emitted c ++ reported)%list
      /\ timers c' = timers c /\ reconnectCount c' = reconnectCount c)
  /\ (autoReconnect (options c) = true ->
      reconnectCount c < maxReconnects (options c) ->
      emitted c' = (emitted c ++ reported)%list
      /\ reconnectCount c' = reconnectCount c + 1
      /\ reconnectTimer c' = Some (nextTimer c)
      /\ exists delay : Q,
           timers c' !! nextTimer c
           = Some {| t_delay := delay; t_action := T_reconnect |}
           /\ policy_delay (reconnectDelay (options c))
                (reconnectCount c + 1) delay)
  /\ (autoReconnect (options c) = true ->
      maxReconnects (options c) <= reconnectCount c ->
      emitted c' = (emitted c ++ reported ++ [Ev_reconnect_failed])%list
      /\ timers c' = timers c /\ reconnectCount c' = reconnectCount c).
Proof.
  intros Hst Herr. cbn zeta.
  destruct (connect_failure_eq error c Hst Herr)
    as (b & -> & Hs & Hw & Hwi & Ho & Hrc & Ht & Hn & Hrt & He).
  assert (Hsched : state (_scheduleReconnect b) = DISCONNECTED
                   /\ ws (_scheduleReconnect b) = ws c
                   /\ wire (_scheduleReconnect b) = wire c).
  { unfold _scheduleReconnect. repeat split_match; fields; auto. }
  destruct Hsched as (Hs' & Hw' & Hwi').
  repeat apply conj.
  - destruct (autoReconnect (options c)); assumption.
  - destruct (autoReconnect (options c)); assumption.
  - destruct (autoReconnect (options c)); assumption.
  - intros ->. auto.
  - intros -> Hlt.
    destruct (scheduleReconnect_attempt b) as (H1 & H2 & H3 & H4);
      [rewrite Hrc, Ho; exact Hlt|].
    repeat apply conj.
    + rewrite H2, He. reflexivity.
    + rewrite H1, Hrc. reflexivity.
    + rewrite H3, Hn. reflexivity.
    + eexists. split.
      * rewrite <- Hn, H4, Ho, Hrc. reflexivity.
      * apply policy_delay_holds.
  - intros -> Hge.
    rewrite scheduleReconnect_exhausted by (rewrite Hrc, Ho; exact Hge).
    fields. rewrite He, <- app_assoc. auto.
Qed.

Lemma connect_failure_is_reported_witness :
  state offline_client = DISCONNECTED
  /\ ws_ctor_error offline_client = Some "ENOTFOUND"
  /\ state (connect offline_client) = DISCONNECTED.
Proof.
  assert (H1 : state offline_client = DISCONNECTED) by reflexivity.
  assert (H2 : ws_ctor_error offline_client = Some "ENOTFOUND") by reflexivity.
  split; [exact H1|]. split; [exact H2|].
  exact (proj1 (connect_failure_is_reported "ENOTFOUND" offline_client H1 H2)).
Defined.
